(** * Dialysis session anomaly detection: a shallow embedding

    The evaluator [detectAnomalies] of [backend/src/config/database.ts]
    (the service the routes import as [services/anomalyDetection]), the
    threshold table [ANOMALY_THRESHOLDS] of [backend/src/config/swagger.ts]
    and the session-update handler of [backend/src/routes/sessions.ts];
    then the code around them: the create and schedule handlers of the same
    file, the patient registration of [routes/patients.ts], and what the
    dashboard and the session card of the frontend compute from a schedule.

    A JavaScript [number] is an IEEE-754 binary64 value: it is modelled by
    Rocq's primitive [float], whose operations are the machine's, and whose
    bit-level specification ([Prim2SF], [SpecFloat]) is used in the proofs.
    The pieces of the ECMAScript runtime the evaluator calls
    ([ToBoolean], [Number::toString], [Number.prototype.toFixed],
    [Math.round], [Math.floor], the operator [%], [Date.prototype.getTime])
    are written out from the language specification. *)

From Stdlib Require Import ZArith List String Ascii Bool Lia.
From Stdlib Require Import Uint63 Floats DecimalString Sorted.
Import ListNotations.

#[local] Set Warnings "-inexact-float".
#[local] Open Scope string_scope.
#[local] Open Scope Z_scope.

(** ** ECMAScript numbers *)

Definition number : Type := float.
Bind Scope float_scope with number.

(** [ToBoolean] on a number: [+0], [-0] and [NaN] are falsy. *)
Definition ToBoolean (x : number) : bool :=
  negb (is_zero x || is_nan x).

(** [ToBoolean] on a possibly [undefined] number (the value of an optional
    chain): [undefined] is falsy. *)
Definition ToBoolean_opt (o : option number) : bool :=
  match o with
  | None => false
  | Some x => ToBoolean x
  end.

(** The Number value of an integer; used below [2^63] in magnitude, where
    the conversion from a 63-bit machine integer applies (and is exact up to
    [2^53]). *)
Definition Z2number (z : Z) : number :=
  if z <? 0 then (- of_uint63 (of_Z (- z)))%float else of_uint63 (of_Z z).

(** Decimal digits of a natural number, ["0"] for zero. *)
Definition digits_of (z : Z) : string :=
  NilZero.string_of_uint (N.to_uint (Z.to_N z)).

Fixpoint zeros (n : nat) : string :=
  match n with
  | O => EmptyString
  | S n' => String "0" (zeros n')
  end.

Definition substring_from (n : nat) (s : string) : string :=
  substring n (String.length s - n) s.

(** *** Number::toString, radix 10

    For a positive finite [v = m * 2^e] the specification asks for integers
    [n], [k], [s] with [s * 10^(n-k)] a decimal that converts back to [v],
    [k] (the number of digits of [s]) as small as possible and, among these,
    [s * 10^(n-k)] closest to [v].  [rounding_interval] is the set of reals
    that round to [v] (to nearest, ties to even), as numerators over a
    common power of two; [shortest_at t] looks for such an [s] at the decimal
    exponent [t = n - k]; [shortest_digits] takes the largest [t] that has
    one. *)

Record interval := {
  iv_low : Z;        (* lower end, numerator *)
  iv_mid : Z;        (* the value itself, numerator *)
  iv_high : Z;       (* upper end, numerator *)
  iv_den : Z;        (* common denominator *)
  iv_closed : bool   (* the ends belong to the interval *)
}.

Definition rounding_interval (m : positive) (e : Z) : interval :=
  let unit := 2 ^ (2 + Z.max 0 e) in
  let below :=
    if (Zpos m =? 2 ^ (prec - 1)) && (emin <? e) then unit / 4 else unit / 2 in
  {| iv_low := Zpos m * unit - below;
     iv_mid := Zpos m * unit;
     iv_high := Zpos m * unit + unit / 2;
     iv_den := 2 ^ (2 + Z.max 0 (- e));
     iv_closed := Z.even (Zpos m) |}.

Definition ceil_div (a b : Z) : Z := - ((- a) / b).

(** The decimal [s * 10^t] inside the interval that is closest to the
    value, if there is one. *)
Definition shortest_at (iv : interval) (t : Z) : option Z :=
  let p := 10 ^ Z.max 0 (- t) in
  let q := iv_den iv * 10 ^ Z.max 0 t in
  let a := iv_low iv * p in
  let b := iv_high iv * p in
  let c := iv_mid iv * p in
  let s_lo := if iv_closed iv then ceil_div a q else a / q + 1 in
  let s_hi := if iv_closed iv then b / q else ceil_div b q - 1 in
  if (s_lo <=? s_hi) && (1 <=? s_hi) then
    let nearest :=
      let fl := c / q in
      match (2 * (c - fl * q)) ?= q with
      | Lt => fl
      | Gt => fl + 1
      | Eq => if Z.even fl then fl else fl + 1
      end in
    Some (Z.max (Z.max 1 s_lo) (Z.min s_hi nearest))
  else None.

Fixpoint shortest_search (fuel : nat) (iv : interval) (t : Z) : Z * Z :=
  match fuel with
  | O => (iv_mid iv / iv_den iv, 0)
  | S fuel' =>
      match shortest_at iv t with
      | Some s => (s, t)
      | None => shortest_search fuel' iv (t - 1)
      end
  end.

(** [(s, t)] with [s * 10^t] the shortest decimal that reads back as
    [m * 2^e].  The search starts above [log10] of the value and needs at
    most seventeen more digits. *)
Definition shortest_digits (m : positive) (e : Z) : Z * Z :=
  let bits := Z.log2 (Zpos m) + 1 + e in
  let start := (if 0 <=? bits then bits * 30103 / 100000 else bits * 30102 / 100000) + 2 in
  shortest_search 48 (rounding_interval m e) start.

Definition format_positive (s t : Z) : string :=
  let ds := digits_of s in
  let k := Z.of_nat (String.length ds) in
  let n := k + t in
  if (k <=? n) && (n <=? 21) then
    ds ++ zeros (Z.to_nat (n - k))
  else if (0 <? n) && (n <=? 21) then
    substring 0 (Z.to_nat n) ds ++ "." ++ substring_from (Z.to_nat n) ds
  else if (-6 <? n) && (n <=? 0) then
    "0." ++ zeros (Z.to_nat (- n)) ++ ds
  else
    let e := n - 1 in
    let exponent := (if e <? 0 then "-" else "+") ++ digits_of (Z.abs e) in
    if k =? 1 then ds ++ "e" ++ exponent
    else substring 0 1 ds ++ "." ++ substring_from 1 ds ++ "e" ++ exponent.

Definition Number_toString (x : number) : string :=
  match Prim2SF x with
  | S754_nan => "NaN"
  | S754_zero _ => "0"
  | S754_infinity false => "Infinity"
  | S754_infinity true => "-Infinity"
  | S754_finite sign m e =>
      let '(s, t) := shortest_digits m e in
      (if sign then "-" else "") ++ format_positive s t
  end.

(** *** Number.prototype.toFixed *)

Inductive JSError :=
  | TypeError (msg : string)
  | RangeError (msg : string).

Inductive Completion (A : Type) :=
  | Normal (a : A)
  | Throw (err : JSError).
Arguments Normal {A} a.
Arguments Throw {A} err.

(** The digits of [n] with a decimal point before the last [f] of them,
    padded with zeros on the left up to [f + 1] digits. *)
Definition fixed_digits (n : Z) (f : nat) : string :=
  let m := digits_of n in
  match f with
  | O => m
  | _ =>
      let k := String.length m in
      let m := if Nat.leb k f then zeros (f + 1 - k) ++ m else m in
      let k := String.length m in
      substring 0 (k - f) m ++ "." ++ substring_from (k - f) m
  end.

(** The integer [n] for which [n / 10^f - m * 2^e] is closest to zero, the
    larger one when two are as close. *)
Definition nearest_scaled (m : positive) (e : Z) (f : Z) : Z :=
  if 0 <=? e then Zpos m * 2 ^ e * 10 ^ f
  else (2 * Zpos m * 10 ^ f + 2 ^ (- e)) / 2 ^ (1 - e).

Definition toFixed (x : number) (fractionDigits : Z) : Completion string :=
  if (fractionDigits <? 0) || (100 <? fractionDigits) then
    Throw (RangeError "toFixed() digits argument must be between 0 and 100")
  else
    match Prim2SF x with
    | S754_finite sign m e =>
        if (1.0e21 <=? abs x)%float then Normal (Number_toString x)
        else
          Normal ((if sign then "-" else "") ++
                  fixed_digits (nearest_scaled m e fractionDigits)
                               (Z.to_nat fractionDigits))
    | S754_zero _ => Normal (fixed_digits 0 (Z.to_nat fractionDigits))
    | _ => Normal (Number_toString x)
    end.

(** *** Math.round: the closest integer, ties towards [+Infinity]; a
    negative argument that rounds to zero gives [-0]. *)
Definition Math_round (x : number) : number :=
  match Prim2SF x with
  | S754_finite sign m e =>
      if 0 <=? e then x
      else
        let r := (2 * (if sign then Zneg m else Zpos m) + 2 ^ (- e)) / 2 ^ (1 - e) in
        if (r =? 0) && sign then neg_zero else Z2number r
  | _ => x
  end.

(** *** Math.floor: the greatest integer not above the argument. *)
Definition Math_floor (x : number) : number :=
  match Prim2SF x with
  | S754_finite sign m e =>
      if 0 <=? e then x
      else Z2number ((if sign then Zneg m else Zpos m) / 2 ^ (- e))
  | _ => x
  end.

(** *** The operator [%]: the remainder of the truncating division, with the
    sign of the dividend; it is computed without rounding error. *)
Definition Number_remainder (n d : number) : number :=
  match Prim2SF n, Prim2SF d with
  | S754_nan, _ | _, S754_nan => nan
  | S754_infinity _, _ => nan
  | _, S754_infinity _ => n
  | _, S754_zero _ => nan
  | S754_zero _, _ => n
  | S754_finite sn mn en, S754_finite _ md ed =>
      let e := Z.min en ed in
      let r := Z.rem (Zpos mn * 2 ^ (en - e)) (Zpos md * 2 ^ (ed - e)) in
      if r =? 0 then (if sn then neg_zero else zero)
      else SF2Prim (binary_normalize prec emax (if sn then - r else r) e false)
  end.

(** ** Date objects

    A Date holds a time value: either [NaN] (an invalid date) or an integral
    number of milliseconds since the epoch within the range [TimeClip]
    allows, 8.64e15 on either side. *)

Definition in_time_range (tv : Z) : bool := Z.abs tv <=? 8640000000000000.

Inductive Date :=
  | InvalidDate
  | TimeValue (tv : Z) (clipped : in_time_range tv = true).

Definition getTime (d : Date) : number :=
  match d with
  | InvalidDate => nan
  | TimeValue tv _ => Z2number tv
  end.

(** The Date of a time value: [TimeClip] turns one out of range into an
    invalid date. *)
Definition date (tv : Z) : Date :=
  match in_time_range tv as b return in_time_range tv = b -> Date with
  | true => fun ok => TimeValue tv ok
  | false => fun _ => InvalidDate
  end eq_refl.

(** ** Data model ([models/Session.ts], [models/Patient.ts]) *)

Record IVitals := {
  systolicBP : number;             (* mmHg *)
  diastolicBP : number;            (* mmHg *)
  heartRate : option number;       (* bpm *)
  temperature : option number      (* Celsius *)
}.

(** The type of [ISession.vitals]. *)
Record SessionVitals := {
  pre : option IVitals;
  post : option IVitals
}.

Inductive SessionStatus := not_started | in_progress | completed.

Record ISession := {
  patientId : string;
  scheduledDate : Date;
  startTime : Date;
  endTime : option Date;
  preWeight : number;              (* kg *)
  postWeight : option number;      (* kg *)
  vitals : SessionVitals;
  machineId : string;
  nurseNotes : option string;
  status : SessionStatus;
  session_anomalies : list string; (* the field [anomalies] *)
  createdAt : Date;
  updatedAt : Date
}.

(** The evaluator's second parameter, [{ dryWeight: number }]. *)
Record DryWeightRef := { dryWeight : number }.

Record AnomalyResult := {
  hasAnomalies : bool;
  anomalies : list string
}.

(** ** Thresholds ([ANOMALY_THRESHOLDS]) *)

Record Thresholds := {
  MAX_WEIGHT_GAIN_PERCENT : number;
  HIGH_SYSTOLIC_BP : number;
  MIN_SESSION_DURATION : number;
  MAX_SESSION_DURATION : number;
  TARGET_SESSION_DURATION : number
}.

Definition ANOMALY_THRESHOLDS : Thresholds := {|
  MAX_WEIGHT_GAIN_PERCENT := 0.05;
  HIGH_SYSTOLIC_BP := 140;
  MIN_SESSION_DURATION := 150;
  MAX_SESSION_DURATION := 300;
  TARGET_SESSION_DURATION := 240
|}.

(** ** The evaluation monad

    The evaluator receives references to two objects.  The store holds those
    objects, so that a write to either would be visible, and a ghost log of
    the divisions executed, so that the reachability of a division can be
    stated.  A computation either completes normally or throws. *)

Record Store := {
  session_object : ISession;
  patient_object : DryWeightRef;
  divisions : list (number * number)   (* dividend, divisor; oldest first *)
}.

Definition Eval (A : Type) : Type := Store -> Completion (A * Store).

Definition ret {A} (a : A) : Eval A := fun st => Normal (a, st).

Definition bind {A B} (c : Eval A) (k : A -> Eval B) : Eval B :=
  fun st =>
    match c st with
    | Normal (a, st') => k a st'
    | Throw err => Throw err
    end.

Notation "x <- c ;; k" := (bind c (fun x => k))
  (at level 61, c at next level, right associativity).

Definition throw {A} (err : JSError) : Eval A := fun _ => Throw err.

Definition lift {A} (c : Completion A) : Eval A :=
  fun st =>
    match c with
    | Normal a => Normal (a, st)
    | Throw err => Throw err
    end.

Definition read {A} (field : Store -> A) : Eval A := fun st => Normal (field st, st).

(** The operator [/]: never throws; the operands are logged. *)
Definition divide (x y : number) : Eval number :=
  fun st =>
    Normal ((x / y)%float,
            {| session_object := session_object st;
               patient_object := patient_object st;
               divisions := (divisions st ++ [(x, y)])%list |}).

(** Property access [o.name] on a possibly [undefined] object. *)
Definition member {A} (o : option A) (name : string) : Eval A :=
  match o with
  | Some a => ret a
  | None => throw (TypeError ("Cannot read properties of undefined (reading '" ++ name ++ "')"))
  end.

(** [array.push(x)] on the local array. *)
Definition push (array : list string) (x : string) : list string :=
  (array ++ [x])%list.

(** ** The evaluator

    [detectAnomalies] is declared [async] but awaits nothing: the promise it
    returns is settled by the result modelled here.  [const anomalies] is a
    local array, threaded through the three checks. *)

Definition detectAnomalies : Eval AnomalyResult :=
  session <- read session_object ;;
  patient <- read patient_object ;;
  let anomalies : list string := [] in
  (* Check for excess interdialytic weight gain *)
  anomalies <-
    (if ToBoolean (preWeight session) && ToBoolean (dryWeight patient) then
       let weightGain := (preWeight session - dryWeight patient)%float in
       weightGainPercent <- divide weightGain (dryWeight patient) ;;
       if (MAX_WEIGHT_GAIN_PERCENT ANOMALY_THRESHOLDS <? weightGainPercent)%float then
         gain <- lift (toFixed weightGain 2) ;;
         percent <- lift (toFixed (weightGainPercent * 100)%float 1) ;;
         ret (push anomalies
                ("Excess interdialytic weight gain: " ++ gain ++ " kg ("
                 ++ percent ++ "% of dry weight)"))
       else ret anomalies
     else ret anomalies) ;;
  (* Check for high post-dialysis systolic BP *)
  anomalies <-
    (if ToBoolean_opt (option_map systolicBP (post (vitals session))) then
       post_vitals <- member (post (vitals session)) "systolicBP" ;;
       if (HIGH_SYSTOLIC_BP ANOMALY_THRESHOLDS <? systolicBP post_vitals)%float then
         post_vitals <- member (post (vitals session)) "systolicBP" ;;
         ret (push anomalies
                ("High post-dialysis systolic BP: "
                 ++ Number_toString (systolicBP post_vitals)
                 ++ " mmHg (threshold: "
                 ++ Number_toString (HIGH_SYSTOLIC_BP ANOMALY_THRESHOLDS)
                 ++ " mmHg)"))
       else ret anomalies
     else ret anomalies) ;;
  (* Check for abnormal session duration; a Date object is truthy *)
  anomalies <-
    (match endTime session with
     | Some end_time =>
         durationMinutes <-
           divide (getTime end_time - getTime (startTime session))%float
                  (1000 * 60)%float ;;
         if (durationMinutes <? MIN_SESSION_DURATION ANOMALY_THRESHOLDS)%float then
           ret (push anomalies
                  ("Short session duration: "
                   ++ Number_toString (Math_round durationMinutes)
                   ++ " minutes (minimum: "
                   ++ Number_toString (MIN_SESSION_DURATION ANOMALY_THRESHOLDS)
                   ++ " minutes)"))
         else if (MAX_SESSION_DURATION ANOMALY_THRESHOLDS <? durationMinutes)%float then
           ret (push anomalies
                  ("Long session duration: "
                   ++ Number_toString (Math_round durationMinutes)
                   ++ " minutes (maximum: "
                   ++ Number_toString (MAX_SESSION_DURATION ANOMALY_THRESHOLDS)
                   ++ " minutes)"))
         else ret anomalies
     | None => ret anomalies
     end) ;;
  ret {| hasAnomalies := (0 <? List.length anomalies)%nat;
         anomalies := anomalies |}.

(** A call [detectAnomalies(session, patient)]: the store holds the two
    objects and an empty log. *)
Definition call_store (session : ISession) (patient : DryWeightRef) : Store :=
  {| session_object := session; patient_object := patient; divisions := [] |}.

Definition evaluate (session : ISession) (patient : DryWeightRef)
  : Completion AnomalyResult :=
  match detectAnomalies (call_store session patient) with
  | Normal (result, _) => Normal result
  | Throw err => Throw err
  end.

(** ** The session-update handler ([routes/sessions.ts], [PATCH /:id])

    The database is the two collections the handler touches.  The request
    body is read at the type the API declares for it, with JSON [null]
    allowed where the session's own field is optional: a field of the body
    is [undefined] (absent), [null] or a value. *)

Module IPatient.
Record t := {
  patientId : string;
  firstName : string;
  lastName : string;
  dateOfBirth : Date;
  dryWeight : number;   (* in kg *)
  unit : string         (* dialysis unit *)
}.
End IPatient.

Record Database := {
  sessions : list (string * ISession);   (* by [_id] *)
  patients : list IPatient.t
}.

Inductive Field (A : Type) :=
  | Undefined
  | Null
  | Value (a : A).
Arguments Undefined {A}.
Arguments Null {A}.
Arguments Value {A} a.

Record VitalsUpdate := {
  upd_pre : Field IVitals;
  upd_post : Field IVitals
}.

Record UpdateSessionRequest := {
  upd_nurseNotes : Field string;
  upd_endTime : Field string;
  upd_postWeight : Field number;
  upd_vitals : Field VitalsUpdate;
  upd_status : option SessionStatus
}.

(** [x !== undefined] *)
Definition defined {A} (x : Field A) : bool :=
  match x with
  | Undefined => false
  | _ => true
  end.

(** The value a nullable path of the document takes when assigned [x]. *)
Definition assigned {A} (x : Field A) : option A :=
  match x with
  | Value a => Some a
  | _ => None
  end.

(** An object spread [{ ...old, key: x }] on one key: an absent key keeps
    the old value. *)
Definition spread {A} (old : option A) (x : Field A) : option A :=
  match x with
  | Undefined => old
  | Null => None
  | Value a => Some a
  end.

(** Truthiness of [updates.vitals?.post]: an object is truthy. *)
Definition truthy_post (v : Field VitalsUpdate) : bool :=
  match v with
  | Value u => match upd_post u with Value _ => true | _ => false end
  | _ => false
  end.

(** Truthiness of [updates.endTime]: a non-empty string. *)
Definition truthy_string (x : Field string) : bool :=
  match x with
  | Value s => negb (String.eqb s "")
  | _ => false
  end.

Definition findById (db : Database) (id : string) : option ISession :=
  option_map snd (find (fun kv => String.eqb (fst kv) id) (sessions db)).

Definition findOne (db : Database) (patient_id : string) : option IPatient.t :=
  find (fun pt => String.eqb (IPatient.patientId pt) patient_id) (patients db).

Fixpoint replace_session (id : string) (session : ISession)
    (l : list (string * ISession)) : list (string * ISession) :=
  match l with
  | [] => []
  | (k, old) :: rest =>
      if String.eqb k id then (k, session) :: rest
      else (k, old) :: replace_session id session rest
  end.

Definition save (db : Database) (id : string) (session : ISession) : Database :=
  {| sessions := replace_session id session (sessions db);
     patients := patients db |}.

Definition stored_anomalies (db : Database) (id : string) : option (list string) :=
  option_map session_anomalies (findById db id).

Inductive Response :=
  | Updated (session : ISession) (has_anomalies : bool)   (* 200 *)
  | ValidationFailed                                      (* 400 *)
  | SessionNotFound                                       (* 404 *)
  | UpdateFailed.                                         (* 500 *)

Record Outcome := {
  response : Response;
  database : Database;
  evaluated : option AnomalyResult   (* ghost: what the evaluator returned, if called *)
}.

Definition set_nurseNotes (s : ISession) (x : option string) : ISession :=
  {| patientId := patientId s; scheduledDate := scheduledDate s;
     startTime := startTime s; endTime := endTime s; preWeight := preWeight s;
     postWeight := postWeight s; vitals := vitals s; machineId := machineId s;
     nurseNotes := x; status := status s;
     session_anomalies := session_anomalies s;
     createdAt := createdAt s; updatedAt := updatedAt s |}.

Definition set_endTime (s : ISession) (x : option Date) : ISession :=
  {| patientId := patientId s; scheduledDate := scheduledDate s;
     startTime := startTime s; endTime := x; preWeight := preWeight s;
     postWeight := postWeight s; vitals := vitals s; machineId := machineId s;
     nurseNotes := nurseNotes s; status := status s;
     session_anomalies := session_anomalies s;
     createdAt := createdAt s; updatedAt := updatedAt s |}.

Definition set_postWeight (s : ISession) (x : option number) : ISession :=
  {| patientId := patientId s; scheduledDate := scheduledDate s;
     startTime := startTime s; endTime := endTime s; preWeight := preWeight s;
     postWeight := x; vitals := vitals s; machineId := machineId s;
     nurseNotes := nurseNotes s; status := status s;
     session_anomalies := session_anomalies s;
     createdAt := createdAt s; updatedAt := updatedAt s |}.

Definition set_vitals (s : ISession) (x : SessionVitals) : ISession :=
  {| patientId := patientId s; scheduledDate := scheduledDate s;
     startTime := startTime s; endTime := endTime s; preWeight := preWeight s;
     postWeight := postWeight s; vitals := x; machineId := machineId s;
     nurseNotes := nurseNotes s; status := status s;
     session_anomalies := session_anomalies s;
     createdAt := createdAt s; updatedAt := updatedAt s |}.

Definition set_status (s : ISession) (x : SessionStatus) : ISession :=
  {| patientId := patientId s; scheduledDate := scheduledDate s;
     startTime := startTime s; endTime := endTime s; preWeight := preWeight s;
     postWeight := postWeight s; vitals := vitals s; machineId := machineId s;
     nurseNotes := nurseNotes s; status := x;
     session_anomalies := session_anomalies s;
     createdAt := createdAt s; updatedAt := updatedAt s |}.

Definition set_anomalies (s : ISession) (x : list string) : ISession :=
  {| patientId := patientId s; scheduledDate := scheduledDate s;
     startTime := startTime s; endTime := endTime s; preWeight := preWeight s;
     postWeight := postWeight s; vitals := vitals s; machineId := machineId s;
     nurseNotes := nurseNotes s; status := status s;
     session_anomalies := x;
     createdAt := createdAt s; updatedAt := updatedAt s |}.

Section UpdateHandler.

(** [Date.parse] on the strings the body carries, and the validation
    Mongoose runs against [SessionSchema] when a document is saved: both
    belong to the platform and are left as parameters. *)
Variable Date_parse : string -> Date.
Variable validates : ISession -> bool.

(** [new Date(value)]: a string is parsed, [null] converts to the number 0
    (the epoch), [undefined] to [NaN]. *)
Definition new_Date (x : Field string) : Date :=
  match x with
  | Value s => Date_parse s
  | Null => date 0
  | Undefined => InvalidDate
  end.

(** The five conditional assignments, in order. *)
Definition apply_updates (session : ISession) (updates : UpdateSessionRequest)
  : ISession :=
  let session :=
    if defined (upd_nurseNotes updates)
    then set_nurseNotes session (assigned (upd_nurseNotes updates)) else session in
  let session :=
    if defined (upd_endTime updates)
    then set_endTime session (Some (new_Date (upd_endTime updates))) else session in
  let session :=
    if defined (upd_postWeight updates)
    then set_postWeight session (assigned (upd_postWeight updates)) else session in
  let session :=
    match upd_vitals updates with
    | Undefined => session
    | Null => set_vitals session (vitals session)
    | Value u =>
        set_vitals session
          {| pre := spread (pre (vitals session)) (upd_pre u);
             post := spread (post (vitals session)) (upd_post u) |}
    end in
  match upd_status updates with
  | Some st => set_status session st
  | None => session
  end.

(** [updates.postWeight !== undefined || updates.vitals?.post || updates.endTime] *)
Definition reevaluation_requested (updates : UpdateSessionRequest) : bool :=
  defined (upd_postWeight updates)
  || truthy_post (upd_vitals updates)
  || truthy_string (upd_endTime updates).

Definition patch_session (db : Database) (id : string)
    (updates : UpdateSessionRequest) : Outcome :=
  match findById db id with
  | None => {| response := SessionNotFound; database := db; evaluated := None |}
  | Some session =>
      let session := apply_updates session updates in
      let finish (session : ISession) (ghost : option AnomalyResult) : Outcome :=
        (* await session.save(); res.json(...) *)
        if validates session then
          {| response :=
               Updated session (0 <? List.length (session_anomalies session))%nat;
             database := save db id session;
             evaluated := ghost |}
        else {| response := ValidationFailed; database := db; evaluated := ghost |} in
      if reevaluation_requested updates then
        match findOne db (patientId session) with
        | Some patient =>
            match detectAnomalies
                    (call_store session {| dryWeight := IPatient.dryWeight patient |})
            with
            | Normal (anomalyResult, st) =>
                finish (set_anomalies (session_object st) (anomalies anomalyResult))
                       (Some anomalyResult)
            | Throw _ =>
                {| response := UpdateFailed; database := db; evaluated := None |}
            end
        | None => finish session None
        end
      else finish session None
  end.

End UpdateHandler.

(** The payload carries one of the three fields the evaluator may be
    re-run for. *)
Definition touches_trigger_field (updates : UpdateSessionRequest) : bool :=
  defined (upd_postWeight updates)
  || match upd_vitals updates with
     | Value u => defined (upd_post u)
     | _ => false
     end
  || defined (upd_endTime updates).

(** ** The session-create handler ([routes/sessions.ts], [POST /])

    The body is read at the type the API declares for it, as for the update
    handler.  A required field passes the guard when it is truthy: a
    non-empty string, a number other than [0] and [NaN]. *)

Record CreateSessionRequest := {
  req_patientId : Field string;
  req_scheduledDate : Field string;
  req_startTime : Field string;
  req_endTime : Field string;
  req_preWeight : Field number;
  req_postWeight : Field number;
  req_vitals : Field VitalsUpdate;
  req_machineId : Field string;
  req_nurseNotes : Field string;
  req_status : option SessionStatus
}.

(** The string a field holds when it is truthy. *)
Definition truthy_text (x : Field string) : option string :=
  match x with
  | Value s => if String.eqb s "" then None else Some s
  | _ => None
  end.

(** The number a field holds when it is truthy. *)
Definition truthy_number (x : Field number) : option number :=
  match x with
  | Value n => if ToBoolean n then Some n else None
  | _ => None
  end.

(** [if (vitals) sessionData.vitals = vitals], as the document holds it:
    without the assignment both sub-documents are absent. *)
Definition new_vitals (x : Field VitalsUpdate) : SessionVitals :=
  match x with
  | Value u => {| pre := assigned (upd_pre u); post := assigned (upd_post u) |}
  | _ => {| pre := None; post := None |}
  end.

(** Inserting a document: a second document with the same [_id] is a
    duplicate-key error. *)
Definition insert_session (db : Database) (id : string) (session : ISession)
  : option Database :=
  match findById db id with
  | Some _ => None
  | None => Some {| sessions := (sessions db ++ [(id, session)])%list;
                    patients := patients db |}
  end.

Inductive CreateResponse :=
  | Created (id : string) (session : ISession) (has_anomalies : bool)   (* 201 *)
  | MissingFields                                                       (* 400 *)
  | PatientNotFound                                                     (* 404 *)
  | CreateValidationFailed                                              (* 400 *)
  | CreateFailed.                                                       (* 500 *)

Record CreateOutcome := {
  create_response : CreateResponse;
  create_database : Database;
  create_evaluated : option AnomalyResult   (* ghost, as in [Outcome] *)
}.

Section CreateHandler.

Variable Date_parse : string -> Date.
Variable validates : ISession -> bool.

(** [new_id] is the [_id] the new document receives and [now] the time of
    the request, which the schema's [timestamps] option writes to
    [createdAt] and [updatedAt]; the evaluator reads neither. *)
Definition create_session (db : Database) (new_id : string) (now : Date)
    (body : CreateSessionRequest) : CreateOutcome :=
  match truthy_text (req_patientId body), truthy_text (req_scheduledDate body),
        truthy_text (req_startTime body), truthy_number (req_preWeight body),
        truthy_text (req_machineId body) with
  | Some patient_id, Some scheduled, Some start, Some pre_weight, Some machine =>
      match findOne db patient_id with
      | None => {| create_response := PatientNotFound; create_database := db;
                   create_evaluated := None |}
      | Some patient =>
          let session :=
            {| patientId := patient_id;
               scheduledDate := Date_parse scheduled;
               startTime := Date_parse start;
               endTime := option_map Date_parse (truthy_text (req_endTime body));
               preWeight := pre_weight;
               postWeight := assigned (req_postWeight body);
               vitals := new_vitals (req_vitals body);
               machineId := machine;
               nurseNotes := truthy_text (req_nurseNotes body);
               status := match req_status body with
                         | Some st => st
                         | None => in_progress
                         end;
               session_anomalies := [];
               createdAt := now;
               updatedAt := now |} in
          match detectAnomalies
                  (call_store session {| dryWeight := IPatient.dryWeight patient |})
          with
          | Normal (anomalyResult, st) =>
              let session :=
                set_anomalies (session_object st) (anomalies anomalyResult) in
              (* await session.save(); res.status(201).json(...) *)
              if validates session then
                match insert_session db new_id session with
                | Some db' =>
                    {| create_response :=
                         Created new_id session (hasAnomalies anomalyResult);
                       create_database := db';
                       create_evaluated := Some anomalyResult |}
                | None =>
                    {| create_response := CreateFailed; create_database := db;
                       create_evaluated := Some anomalyResult |}
                end
              else {| create_response := CreateValidationFailed;
                      create_database := db;
                      create_evaluated := Some anomalyResult |}
          | Throw _ =>
              {| create_response := CreateFailed; create_database := db;
                 create_evaluated := None |}
          end
      end
  | _, _, _, _, _ =>
      {| create_response := MissingFields; create_database := db;
         create_evaluated := None |}
  end.

End CreateHandler.

(** The document the handler builds from a body whose required fields are
    truthy, before the evaluator is called. *)
Definition session_of_body (Date_parse : string -> Date) (body : CreateSessionRequest)
    (patient_id scheduled start machine : string) (pre_weight : number) (now : Date)
  : ISession :=
  {| patientId := patient_id;
     scheduledDate := Date_parse scheduled;
     startTime := Date_parse start;
     endTime := option_map Date_parse (truthy_text (req_endTime body));
     preWeight := pre_weight;
     postWeight := assigned (req_postWeight body);
     vitals := new_vitals (req_vitals body);
     machineId := machine;
     nurseNotes := truthy_text (req_nurseNotes body);
     status := match req_status body with
               | Some st => st
               | None => in_progress
               end;
     session_anomalies := [];
     createdAt := now;
     updatedAt := now |}.

(** ** The patient-registration handler ([routes/patients.ts], [POST /])

    The collection holds the patients without their [_id], which the
    response echoes and nothing else reads. *)

Record CreatePatientRequest := {
  new_patientId : Field string;
  new_firstName : Field string;
  new_lastName : Field string;
  new_dateOfBirth : Field string;
  new_dryWeight : Field number;
  new_unit : Field string
}.

Inductive PatientResponse :=
  | Registered (patient : IPatient.t)   (* 201 *)
  | MissingPatientFields                (* 400 *)
  | InvalidDryWeight                    (* 400 *)
  | DuplicatePatient                    (* 409 *)
  | RegistrationFailed.                 (* 500 *)

Record PatientOutcome := {
  patient_response : PatientResponse;
  patient_database : Database
}.

Section PatientHandler.

Variable Date_parse : string -> Date.
(** The validation Mongoose runs against [PatientSchema]. *)
Variable validates_patient : IPatient.t -> bool.

(** [patient.save()] validates the document, then inserts it; the unique
    index on [patientId] refuses a second document with the same value
    (error code 11000).  A validation error has no such code. *)
Definition register_patient (db : Database) (body : CreatePatientRequest)
  : PatientOutcome :=
  match truthy_text (new_patientId body), truthy_text (new_firstName body),
        truthy_text (new_lastName body), truthy_text (new_dateOfBirth body),
        truthy_number (new_dryWeight body), truthy_text (new_unit body) with
  | Some patient_id, Some first, Some last, Some birth, Some dry_weight, Some unit_name =>
      if (dry_weight <=? 0)%float then
        {| patient_response := InvalidDryWeight; patient_database := db |}
      else
        let patient :=
          {| IPatient.patientId := patient_id;
             IPatient.firstName := first;
             IPatient.lastName := last;
             IPatient.dateOfBirth := Date_parse birth;
             IPatient.dryWeight := dry_weight;
             IPatient.unit := unit_name |} in
        if validates_patient patient then
          match findOne db patient_id with
          | Some _ =>
              {| patient_response := DuplicatePatient; patient_database := db |}
          | None =>
              {| patient_response := Registered patient;
                 patient_database :=
                   {| sessions := sessions db;
                      patients := (patients db ++ [patient])%list |} |}
          end
        else {| patient_response := RegistrationFailed; patient_database := db |}
  | _, _, _, _, _, _ =>
      {| patient_response := MissingPatientFields; patient_database := db |}
  end.

End PatientHandler.

(** ** Today's schedule ([routes/sessions.ts], [GET /today]) *)

Module ScheduleEntry.
Record patient_summary := {
  firstName : string;
  lastName : string;
  dryWeight : number;
  unit : string
}.
Record t := {
  id : string;
  patientId : string;
  patient : patient_summary;
  scheduledDate : Date;
  startTime : Date;
  endTime : option Date;
  preWeight : number;
  postWeight : option number;
  vitals : SessionVitals;
  machineId : string;
  nurseNotes : option string;
  status : SessionStatus;
  anomalies : list string;
  hasAnomalies : bool
}.
End ScheduleEntry.

(** The query string: each parameter is absent or a string. *)
Record TodayQuery := {
  q_unit : option string;
  q_anomaliesOnly : option string
}.

Record TodayScheduleResponse := {
  schedule_date : string;
  schedule_count : nat;
  schedule_sessions : list ScheduleEntry.t
}.

(** [{ $gte: today, $lt: tomorrow }] on a stored date. *)
Definition scheduled_within (today tomorrow : Z) (d : Date) : bool :=
  match d with
  | TimeValue tv _ => (today <=? tv) && (tv <? tomorrow)
  | InvalidDate => false
  end.

(** The sort key of a date field, ascending; a missing value sorts first. *)
Definition date_key (d : Date) : option Z :=
  match d with
  | TimeValue tv _ => Some tv
  | InvalidDate => None
  end.

Definition key_compare (a b : option Z) : comparison :=
  match a, b with
  | None, None => Eq
  | None, Some _ => Lt
  | Some _, None => Gt
  | Some x, Some y => x ?= y
  end.

(** [{ scheduledDate: 1, startTime: 1 }] *)
Definition schedule_compare (a b : ISession) : comparison :=
  match key_compare (date_key (scheduledDate a)) (date_key (scheduledDate b)) with
  | Eq => key_compare (date_key (startTime a)) (date_key (startTime b))
  | c => c
  end.

Definition schedule_leb (a b : string * ISession) : bool :=
  match schedule_compare (snd a) (snd b) with
  | Gt => false
  | _ => true
  end.

(** The cursor's sort, as an insertion sort; documents with equal keys stay
    in the order of the collection. *)
Fixpoint insert_sorted (x : string * ISession) (l : list (string * ISession))
  : list (string * ISession) :=
  match l with
  | [] => [x]
  | y :: rest => if schedule_leb x y then x :: l else y :: insert_sorted x rest
  end.

Definition sort_schedule (l : list (string * ISession)) : list (string * ISession) :=
  fold_right insert_sorted [] l.

(** [string.split('T')[0]] *)
Fixpoint before_T (s : string) : string :=
  match s with
  | EmptyString => EmptyString
  | String c rest => if Ascii.eqb c "T" then EmptyString else String c (before_T rest)
  end.

(** A truthy [unit] that differs from the patient's. *)
Definition other_unit (unit_filter : option string) (patient : IPatient.t) : bool :=
  match unit_filter with
  | Some u => negb (String.eqb u "") && negb (String.eqb (IPatient.unit patient) u)
  | None => false
  end.

(** [anomaliesOnly === 'true' && session.anomalies.length === 0] *)
Definition hidden_without_anomalies (only : option string) (session : ISession) : bool :=
  match only with
  | Some flag => String.eqb flag "true" && (List.length (session_anomalies session) =? 0)%nat
  | None => false
  end.

(** The object the [map] callback returns for a session and its patient. *)
Definition entry_for (kv : string * ISession) (patient : IPatient.t)
  : ScheduleEntry.t :=
  let session := snd kv in
  {| ScheduleEntry.id := fst kv;
     ScheduleEntry.patientId := patientId session;
     ScheduleEntry.patient :=
       {| ScheduleEntry.firstName := IPatient.firstName patient;
          ScheduleEntry.lastName := IPatient.lastName patient;
          ScheduleEntry.dryWeight := IPatient.dryWeight patient;
          ScheduleEntry.unit := IPatient.unit patient |};
     ScheduleEntry.scheduledDate := scheduledDate session;
     ScheduleEntry.startTime := startTime session;
     ScheduleEntry.endTime := endTime session;
     ScheduleEntry.preWeight := preWeight session;
     ScheduleEntry.postWeight := postWeight session;
     ScheduleEntry.vitals := vitals session;
     ScheduleEntry.machineId := machineId session;
     ScheduleEntry.nurseNotes := nurseNotes session;
     ScheduleEntry.status := status session;
     ScheduleEntry.anomalies := session_anomalies session;
     ScheduleEntry.hasAnomalies := (0 <? List.length (session_anomalies session))%nat |}.

(** The [map] callback: [None] for [null]. *)
Definition schedule_entry (db : Database) (query : TodayQuery)
    (kv : string * ISession) : option ScheduleEntry.t :=
  let session := snd kv in
  match findOne db (patientId session) with
  | None => None
  | Some patient =>
      if other_unit (q_unit query) patient then None
      else if hidden_without_anomalies (q_anomaliesOnly query) session then None
      else Some (entry_for kv patient)
  end.

(** [array.filter((s) => s !== null)] *)
Fixpoint not_null {A} (l : list (option A)) : list A :=
  match l with
  | [] => []
  | Some a :: rest => a :: not_null rest
  | None :: rest => not_null rest
  end.

Section TodayHandler.

(** [Date.prototype.toISOString] on a time value. *)
Variable toISOString : Z -> string.

(** [today] is the local midnight before the request and [tomorrow] the one
    after it, both as time values. *)
Definition today_schedule (db : Database) (today tomorrow : Z) (query : TodayQuery)
  : TodayScheduleResponse :=
  let sessions :=
    sort_schedule
      (filter (fun kv => scheduled_within today tomorrow (scheduledDate (snd kv)))
              (sessions db)) in
  let sessionsWithPatients := map (schedule_entry db query) sessions in
  let filteredSessions := not_null sessionsWithPatients in
  {| schedule_date := before_T (toISOString today);
     schedule_count := List.length filteredSessions;
     schedule_sessions := filteredSessions |}.

End TodayHandler.

(** The order of the cursor, read on the entries of the response. *)
Definition entry_leb (a b : ScheduleEntry.t) : bool :=
  match key_compare (date_key (ScheduleEntry.scheduledDate a))
                    (date_key (ScheduleEntry.scheduledDate b)) with
  | Eq => match key_compare (date_key (ScheduleEntry.startTime a))
                            (date_key (ScheduleEntry.startTime b)) with
          | Gt => false
          | _ => true
          end
  | Lt => true
  | Gt => false
  end.

(** What the two filters of a query let through. *)
Definition entry_shown (query : TodayQuery) (e : ScheduleEntry.t) : bool :=
  match q_unit query with
  | Some u => String.eqb u "" || String.eqb (ScheduleEntry.unit (ScheduleEntry.patient e)) u
  | None => true
  end
  && match q_anomaliesOnly query with
     | Some flag => negb (String.eqb flag "true") || ScheduleEntry.hasAnomalies e
     | None => true
     end.

(** ** The session card ([components/SessionCard.tsx])

    The card receives a session of the schedule response as JSON: the two
    times are strings, [endTime] possibly absent. *)

(** [`${hours}h ${mins}m`] for a number of minutes. *)
Definition duration_text (minutes : number) : string :=
  let hours := Math_floor (minutes / 60) in
  let mins := Number_remainder minutes 60 in
  Number_toString hours ++ "h " ++ Number_toString mins ++ "m".

Definition calculateDuration (Date_parse : string -> Date)
    (startTime : string) (endTime : option string) : option string :=
  match endTime with
  | Some end_time =>
      if String.eqb startTime "" || String.eqb end_time "" then None
      else
        let start := Date_parse startTime in
        let end_date := Date_parse end_time in
        let minutes :=
          Math_round ((getTime end_date - getTime start) / (1000 * 60))%float in
        Some (duration_text minutes)
  | None => None
  end.

(** ** The dashboard ([components/Dashboard.tsx])

    The dashboard holds the [sessions] of the schedule response and the
    patients of [GET /api/patients], which have the fields of the stored
    ones. *)




(** [new Set(...)]: a value is added unless the set has it; [Array.from]
    lists the values in the order of insertion. *)
Definition Set_add (set : list string) (value : string) : list string :=
  if existsb (String.eqb value) set then set else (set ++ [value])%list.

Definition uniqueUnits (patients : list IPatient.t) : list string :=
  fold_left Set_add (map IPatient.unit patients) [].

(** ** The three writing routes as steps on the database *)

Section Api.

Variable Date_parse : string -> Date.
Variable validates : ISession -> bool.
Variable validates_patient : IPatient.t -> bool.

Inductive api_step (db : Database) : Database -> Prop :=
  | step_register (body : CreatePatientRequest) :
      api_step db (patient_database (register_patient Date_parse validates_patient db body))
  | step_create (new_id : string) (now : Date) (body : CreateSessionRequest) :
      api_step db
        (create_database (create_session Date_parse validates db new_id now body))
  | step_patch (id : string) (updates : UpdateSessionRequest) :
      api_step db (database (patch_session Date_parse validates db id updates)).

(** The databases the routes can produce from an empty one. *)
Inductive reachable : Database -> Prop :=
  | reachable_empty : reachable {| sessions := []; patients := [] |}
  | reachable_step (db db' : Database) :
      reachable db -> api_step db db' -> reachable db'.

End Api.

(** What every database the routes produce satisfies. *)
Definition well_formed (db : Database) : Prop :=
  NoDup (map IPatient.patientId (patients db))
  /\ NoDup (map fst (sessions db))
  /\ Forall (fun p => (0 <? IPatient.dryWeight p)%float = true) (patients db)
  /\ Forall (fun kv => ToBoolean (preWeight (snd kv)) = true
                       /\ exists patient, findOne db (patientId (snd kv)) = Some patient)
            (sessions db).

(** The stored anomaly list of session [id] is what the evaluator returns
    for the stored session and its patient. *)
Definition anomalies_current (db : Database) (id : string) : Prop :=
  forall session patient,
    findById db id = Some session ->
    findOne db (patientId session) = Some patient ->
    exists flag,
      evaluate session {| dryWeight := IPatient.dryWeight patient |}
      = Normal {| hasAnomalies := flag; anomalies := session_anomalies session |}.

(** ** Test fixtures ([__tests__/anomalyDetection.test.ts]) *)

(* 2024-01-01T08:00:00Z in milliseconds *)
Definition t_0800 : Z := 1704096000000.
Definition hours (h : Z) : Z := h * 3600000.

Definition mockPatient : DryWeightRef := {| dryWeight := 70.0 |}.

Definition mockSession (pre_weight : number) (post_vitals : option IVitals)
    (end_time : option Date) : ISession :=
  {| patientId := "P001";
     scheduledDate := date t_0800;
     startTime := date t_0800;
     endTime := end_time;
     preWeight := pre_weight;
     postWeight := None;
     vitals := {| pre := None; post := post_vitals |};
     machineId := "M-01";
     nurseNotes := None;
     status := in_progress;
     session_anomalies := [];
     createdAt := date t_0800;
     updatedAt := date t_0800 |}.

Definition bp (systolic diastolic : number) : IVitals :=
  {| systolicBP := systolic; diastolicBP := diastolic;
     heartRate := None; temperature := None |}.

(** For the handler: one patient, one stored session that started at
    08:00 and has no end time yet. *)
Definition patient_P001 : IPatient.t :=
  {| IPatient.patientId := "P001"; IPatient.firstName := "John";
     IPatient.lastName := "Doe"; IPatient.dateOfBirth := date 327196800000;
     IPatient.dryWeight := 70.0; IPatient.unit := "Unit-A" |}.

Definition clinic : Database :=
  {| sessions := [("s1", mockSession 72 None None)];
     patients := [patient_P001] |}.

Definition clinic_without_patient : Database :=
  {| sessions := [("s1", mockSession 72 None None)]; patients := [] |}.

Definition no_updates : UpdateSessionRequest :=
  {| upd_nurseNotes := Undefined; upd_endTime := Undefined;
     upd_postWeight := Undefined; upd_vitals := Undefined; upd_status := None |}.

Definition with_postWeight (x : Field number) : UpdateSessionRequest :=
  {| upd_nurseNotes := Undefined; upd_endTime := Undefined;
     upd_postWeight := x; upd_vitals := Undefined; upd_status := None |}.

Definition with_endTime (x : Field string) : UpdateSessionRequest :=
  {| upd_nurseNotes := Undefined; upd_endTime := x;
     upd_postWeight := Undefined; upd_vitals := Undefined; upd_status := None |}.

(** A parser that knows one timestamp is enough for the fixtures. *)
Definition parse_fixture (s : string) : Date :=
  if String.eqb s "2024-01-01T10:00:00.000Z" then date (t_0800 + hours 2)
  else InvalidDate.

Definition accept_all (s : ISession) : bool := true.

(** For the create handler: a body with the required fields only. *)
Definition create_fixture : CreateSessionRequest :=
  {| req_patientId := Value "P001";
     req_scheduledDate := Value "2024-01-01T10:00:00.000Z";
     req_startTime := Value "2024-01-01T10:00:00.000Z";
     req_endTime := Undefined;
     req_preWeight := Value 75%float;
     req_postWeight := Undefined;
     req_vitals := Undefined;
     req_machineId := Value "M-02";
     req_nurseNotes := Undefined;
     req_status := None |}.

(** For the registration handler. *)
Definition register_fixture : CreatePatientRequest :=
  {| new_patientId := Value "P001";
     new_firstName := Value "John";
     new_lastName := Value "Doe";
     new_dateOfBirth := Value "1980-05-15";
     new_dryWeight := Value 70.0%float;
     new_unit := Value "Unit-A" |}.

Definition accept_patient (p : IPatient.t) : bool := true.

Definition empty_clinic : Database := {| sessions := []; patients := [] |}.

(** One patient registered, then one session created for them. *)
Definition registered_clinic : Database :=
  patient_database (register_patient parse_fixture accept_patient empty_clinic
                      register_fixture).

Definition opened_clinic : Database :=
  create_database (create_session parse_fixture accept_all registered_clinic "s2"
                     (date t_0800) create_fixture).

(** For the session card: the times of the fourth session of the seed
    script, as the server serialises them when [today] is as below. *)
Definition parse_seed (s : string) : Date :=
  if String.eqb s "2024-01-01T11:00:00.000Z" then date (1704067200000 + 11 * 3600000)
  else if String.eqb s "2024-01-01T06:30:00.000Z" then date (1704067200000 + 13 * 1800000)
  else InvalidDate.

(** ** Seed data ([scripts/seed.ts])

    The four completed sessions of the seed script, which re-evaluates them
    after insertion.  [today] is some midnight. *)

Definition today : Z := 1704067200000.

Definition seedSession (patient : string) (start_h end_ms : Z)
    (pre_weight post_weight : number) (pre_vitals post_vitals : IVitals) : ISession :=
  {| patientId := patient;
     scheduledDate := date today;
     startTime := date (today + start_h * 60 * 60 * 1000);
     endTime := Some (date (today + end_ms));
     preWeight := pre_weight;
     postWeight := Some post_weight;
     vitals := {| pre := Some pre_vitals; post := Some post_vitals |};
     machineId := "M00x";
     nurseNotes := None;
     status := completed;
     session_anomalies := [];
     createdAt := date today;
     updatedAt := date today |}.

Definition vitals3 (systolic diastolic rate : number) : IVitals :=
  {| systolicBP := systolic; diastolicBP := diastolic;
     heartRate := Some rate; temperature := None |}.

Definition seed_P001 : ISession :=
  seedSession "P001" 8 (12 * 60 * 60 * 1000) 72.0 70.5
    (vitals3 135 85 72) (vitals3 130 80 70).
Definition seed_P002 : ISession :=
  seedSession "P002" 9 (13 * 60 * 60 * 1000) 70.0 66.0
    (vitals3 140 90 78) (vitals3 135 85 75).
Definition seed_P003 : ISession :=
  seedSession "P003" 10 (14 * 60 * 60 * 1000) 82.0 80.5
    (vitals3 145 95 80) (vitals3 145 90 78).
(* The end time is written [13 * 30 * 60 * 1000], which is 06:30. *)
Definition seed_P004 : ISession :=
  seedSession "P004" 11 (13 * 30 * 60 * 1000) 60.0 59.0
    (vitals3 125 75 68) (vitals3 120 70 65).

(** ** What each check contributes

    The three blocks of the evaluator, read as functions of the two
    objects: the proofs go through [detectAnomalies_run], which shows that
    running the evaluator appends exactly these lists, in this order. *)

Definition fixed (x : number) (f : Z) : string :=
  match toFixed x f with
  | Normal s => s
  | Throw _ => ""
  end.

Definition weight_message (gain percent : number) : string :=
  "Excess interdialytic weight gain: " ++ fixed gain 2 ++ " kg ("
  ++ fixed (percent * 100)%float 1 ++ "% of dry weight)".

Definition bp_message (systolic : number) : string :=
  "High post-dialysis systolic BP: " ++ Number_toString systolic
  ++ " mmHg (threshold: " ++ Number_toString 140 ++ " mmHg)".

Definition short_message (minutes : number) : string :=
  "Short session duration: " ++ Number_toString (Math_round minutes)
  ++ " minutes (minimum: " ++ Number_toString 150 ++ " minutes)".

Definition long_message (minutes : number) : string :=
  "Long session duration: " ++ Number_toString (Math_round minutes)
  ++ " minutes (maximum: " ++ Number_toString 300 ++ " minutes)".

Definition weight_gain (s : ISession) (p : DryWeightRef) : number :=
  (preWeight s - dryWeight p)%float.

Definition weight_gain_percent (s : ISession) (p : DryWeightRef) : number :=
  (weight_gain s p / dryWeight p)%float.

Definition elapsed_ms (s : ISession) (e : Date) : number :=
  (getTime e - getTime (startTime s))%float.

Definition duration_minutes (s : ISession) (e : Date) : number :=
  (elapsed_ms s e / (1000 * 60))%float.

Definition weight_active (s : ISession) (p : DryWeightRef) : bool :=
  ToBoolean (preWeight s) && ToBoolean (dryWeight p)
  && (0.05 <? weight_gain_percent s p)%float.

Definition weight_check (s : ISession) (p : DryWeightRef) : list string :=
  if weight_active s p
  then [weight_message (weight_gain s p) (weight_gain_percent s p)] else [].

Definition bp_check (s : ISession) : list string :=
  match post (vitals s) with
  | Some v =>
      if ToBoolean (systolicBP v) && (140 <? systolicBP v)%float
      then [bp_message (systolicBP v)] else []
  | None => []
  end.

Definition duration_check (s : ISession) : list string :=
  match endTime s with
  | Some e =>
      if (duration_minutes s e <? 150)%float then [short_message (duration_minutes s e)]
      else if (300 <? duration_minutes s e)%float then [long_message (duration_minutes s e)]
      else []
  | None => []
  end.

Definition checks (s : ISession) (p : DryWeightRef) : list string :=
  (weight_check s p ++ bp_check s ++ duration_check s)%list.

Definition weight_divisions (s : ISession) (p : DryWeightRef) : list (number * number) :=
  if ToBoolean (preWeight s) && ToBoolean (dryWeight p)
  then [(weight_gain s p, dryWeight p)] else [].

Definition duration_divisions (s : ISession) : list (number * number) :=
  match endTime s with
  | Some e => [(elapsed_ms s e, (1000 * 60)%float)]
  | None => []
  end.

(** The kind of an anomaly string is read off its label. *)
Definition is_weight_gain_anomaly (a : string) : bool :=
  prefix "Excess interdialytic weight gain" a.
Definition is_bp_anomaly (a : string) : bool :=
  prefix "High post-dialysis systolic BP" a.
Definition is_short_anomaly (a : string) : bool :=
  prefix "Short session duration" a.
Definition is_long_anomaly (a : string) : bool :=
  prefix "Long session duration" a.
Definition is_duration_anomaly (a : string) : bool :=
  is_short_anomaly a || is_long_anomaly a.

(** The decimal numeral of an integer. *)
Definition decimal (z : Z) : string :=
  if z <? 0 then "-" ++ digits_of (- z) else digits_of z.

(** [f] holds from [0] to [n]. *)
Fixpoint holds_upto (n : nat) (f : Z -> bool) : bool :=
  match n with
  | O => f 0
  | S k => f (Z.of_nat n) && holds_upto k f
  end.

(** [emits s p a]: the call returns and [a] is in the returned list. *)
Definition emits (s : ISession) (p : DryWeightRef) (a : string) : Prop :=
  exists r, evaluate s p = Normal r /\ In a (anomalies r).

(** * Proofs *)

(** ** Facts about binary64 arithmetic

    Proved on the bit-level specification of [SpecFloat], with [prec = 53]
    and [emax = 1024]. *)

Module Binary64.

(** Sign classes of a specification float. *)
Definition signed (s : bool) (x : spec_float) : Prop :=
  match x with
  | S754_zero s' | S754_infinity s' | S754_finite s' _ _ => s' = s
  | S754_nan => True
  end.

Definition not_positive (x : spec_float) : Prop :=
  match x with
  | S754_finite false _ _ | S754_infinity false => False
  | _ => True
  end.

Definition positive_number (x : spec_float) : Prop :=
  match x with
  | S754_finite false _ _ | S754_infinity false => True
  | _ => False
  end.

Lemma binary_round_aux_signed s m e l :
  signed s (binary_round_aux prec emax s m e l).
Proof.
  unfold binary_round_aux.
  destruct (shr_fexp prec emax m e l) as [mrs' e'].
  destruct (shr_fexp prec emax _ e' loc_Exact) as [mrs'' e''].
  destruct (shr_m mrs''); [ | destruct (e'' <=? emax - prec) | ]; simpl; auto.
Qed.

Lemma signed_true_not_positive x : signed true x -> not_positive x.
Proof. destruct x as [ | | | [] ? ?]; simpl; auto; try discriminate. destruct s; auto; discriminate. Qed.

Lemma SFdiv_not_positive x y :
  not_positive x -> positive_number y -> not_positive (SFdiv prec emax x y).
Proof.
  destruct x as [sx | sx | | sx mx ex], y as [sy | sy | | sy my ey];
    simpl; auto; try tauto;
    destruct sx, sy; simpl; auto; try tauto.
  intros _ _.
  destruct (SFdiv_core_binary prec emax (Zpos mx) ex (Zpos my) ey) as [[mz ez] lz].
  apply signed_true_not_positive, binary_round_aux_signed.
Qed.

Lemma SFltb_not_positive m e x :
  not_positive x -> SFltb (S754_finite false m e) x = false.
Proof.
  destruct x as [sx | sx | | sx mx ex]; simpl; auto; destruct sx; simpl; tauto.
Qed.

(** Digits and alignment. *)

Lemma digits2_pos_size m : digits2_pos m = Pos.size m.
Proof. induction m; simpl; congruence. Qed.

Lemma digits_bounds m :
  2 ^ (Zpos (digits2_pos m) - 1) <= Zpos m < 2 ^ Zpos (digits2_pos m).
Proof.
  rewrite digits2_pos_size.
  pose proof (Pos.size_gt m) as Hgt. pose proof (Pos.size_le m) as Hle.
  apply Pos2Z.pos_lt_pos in Hgt. apply Pos2Z.pos_le_pos in Hle.
  rewrite Pos2Z.inj_pow in Hgt. rewrite Pos2Z.inj_xO, Pos2Z.inj_pow in Hle.
  split; [ | exact Hgt ].
  replace (Zpos (Pos.size m)) with (Z.succ (Zpos (Pos.size m) - 1)) in Hle by lia.
  rewrite Z.pow_succ_r in Hle by lia. lia.
Qed.

Lemma iter_xO m d : Zpos (Pos.iter xO m d) = Zpos m * 2 ^ Zpos d.
Proof.
  induction d using Pos.peano_ind.
  - simpl. lia.
  - rewrite Pos.iter_succ, Pos2Z.inj_xO, IHd, Pos2Z.inj_succ, Z.pow_succ_r by lia. lia.
Qed.

Lemma shl_align_value m e e' :
  e' <= e -> Zpos (fst (shl_align m e e')) = Zpos m * 2 ^ (e - e').
Proof.
  intros H. unfold shl_align.
  destruct (e' - e) as [ | d | d] eqn:E; simpl fst.
  - replace (e - e') with 0 by lia. lia.
  - lia.
  - rewrite iter_xO. f_equal. f_equal. lia.
Qed.

Lemma shl_align_exponent m e e' :
  e' <= e -> snd (shl_align m e e') = e'.
Proof.
  intros H. unfold shl_align.
  destruct (e' - e) as [ | d | d] eqn:E; simpl snd; lia.
Qed.

Lemma canonical_digits m e :
  bounded prec emax m e = true ->
  Zpos (digits2_pos m) <= prec /\ emin <= e /\ e <= emax - prec /\
  (emin < e -> Zpos (digits2_pos m) = prec).
Proof.
  unfold bounded, canonical_mantissa, fexp. intros H.
  apply andb_true_iff in H. destruct H as [H1 H2].
  apply Z.eqb_eq in H1. apply Z.leb_le in H2.
  change (SpecFloat.emin prec emax) with (-1074) in *.
  change prec with 53 in *. change emax with 1024 in *.
  lia.
Qed.


Lemma magnitude_lt m1 e1 m2 e2 :
  bounded prec emax m1 e1 = true -> bounded prec emax m2 e2 = true ->
  e1 < e2 -> Zpos m1 < Zpos m2 * 2 ^ (e2 - e1).
Proof.
  intros B1 B2 Hlt.
  destruct (canonical_digits _ _ B1) as (D1 & L1 & _ & _).
  destruct (canonical_digits _ _ B2) as (_ & _ & _ & N2).
  specialize (N2 ltac:(lia)).
  pose proof (digits_bounds m1) as [_ U1].
  pose proof (digits_bounds m2) as [L2 _].
  rewrite N2 in L2.
  assert (2 ^ Zpos (digits2_pos m1) <= 2 ^ prec) by (apply Z.pow_le_mono_r; lia).
  assert (2 ^ 1 <= 2 ^ (e2 - e1)) by (apply Z.pow_le_mono_r; lia).
  change (2 ^ 1) with 2 in *.
  change (2 ^ prec) with (2 ^ (prec - 1) * 2) in *.
  nia.
Qed.

Definition aligned (s : bool) (m : positive) (e ez : Z) : Z :=
  cond_Zopp s (Zpos (fst (shl_align m e ez))).

Lemma aligned_value s m e ez :
  ez <= e -> aligned s m e ez = cond_Zopp s (Zpos m * 2 ^ (e - ez)).
Proof. intros H. unfold aligned. now rewrite shl_align_value. Qed.

Lemma SFcompare_aligned s1 m1 e1 s2 m2 e2 :
  bounded prec emax m1 e1 = true -> bounded prec emax m2 e2 = true ->
  SFcompare (S754_finite s1 m1 e1) (S754_finite s2 m2 e2) =
  Some (aligned s1 m1 e1 (Z.min e1 e2) ?= aligned s2 m2 e2 (Z.min e1 e2)).
Proof.
  intros B1 B2.
  rewrite !aligned_value by lia.
  assert (P1 : 0 < 2 ^ (e1 - Z.min e1 e2)) by (apply Z.pow_pos_nonneg; lia).
  assert (P2 : 0 < 2 ^ (e2 - Z.min e1 e2)) by (apply Z.pow_pos_nonneg; lia).
  assert (M : Pos.compare_cont Eq m1 m2 = (Zpos m1 ?= Zpos m2)) by reflexivity.
  assert (C : e1 = e2 ->
             (Zpos m1 * 2 ^ (e1 - Z.min e1 e2) ?= Zpos m2 * 2 ^ (e2 - Z.min e1 e2))
             = (Zpos m1 ?= Zpos m2)).
  { intros <-. rewrite Z.min_id, Z.sub_diag, !Z.mul_1_r. reflexivity. }
  assert (L : e1 < e2 ->
              Zpos m1 * 2 ^ (e1 - Z.min e1 e2) < Zpos m2 * 2 ^ (e2 - Z.min e1 e2)).
  { intros E. rewrite Z.min_l, Z.sub_diag, Z.mul_1_r by lia. now apply magnitude_lt. }
  assert (G : e2 < e1 ->
              Zpos m2 * 2 ^ (e2 - Z.min e1 e2) < Zpos m1 * 2 ^ (e1 - Z.min e1 e2)).
  { intros E. rewrite Z.min_r, Z.sub_diag, Z.mul_1_r by lia. now apply magnitude_lt. }
  simpl SFcompare. f_equal.
  destruct s1, s2; cbn [cond_Zopp].
  - rewrite Z.compare_opp.
    destruct (Z.compare_spec e1 e2) as [E | E | E].
    + rewrite M. rewrite (Z.compare_antisym (Zpos m1 * 2 ^ (e1 - Z.min e1 e2))), (C E).
      reflexivity.
    + symmetry. apply Z.compare_gt_iff. auto.
    + symmetry. apply Z.compare_lt_iff. auto.
  - symmetry. apply Z.compare_lt_iff. lia.
  - symmetry. apply Z.compare_gt_iff. lia.
  - destruct (Z.compare_spec e1 e2) as [E | E | E].
    + rewrite M. symmetry. now apply C.
    + symmetry. apply Z.compare_lt_iff. auto.
    + symmetry. apply Z.compare_gt_iff. auto.
Qed.

Lemma binary_round_signed s m e : signed s (binary_round prec emax s m e).
Proof.
  unfold binary_round. destruct (shl_align _ _ _). apply binary_round_aux_signed.
Qed.

Definition valid (x : spec_float) : Prop := valid_binary x = true.

Lemma SFsub_not_positive x y :
  valid x -> valid y -> SFleb x y = true -> not_positive (SFsub prec emax x y).
Proof.
  unfold valid.
  destruct x as [sx | sx | | sx mx ex], y as [sy | sy | | sy my ey];
    try (destruct sx, sy; simpl; intros; auto; discriminate);
    try (destruct sx; simpl; intros; auto; discriminate);
    try (destruct sy; simpl; intros; auto; discriminate);
    try (simpl; intros; auto; discriminate).
  simpl valid_binary. intros Vx Vy. unfold SFleb.
  rewrite (SFcompare_aligned _ _ _ _ _ _ Vx Vy). unfold SFsub.
  fold (aligned sx mx ex (Z.min ex ey)). fold (aligned sy my ey (Z.min ex ey)).
  set (a := aligned sx mx ex (Z.min ex ey)). set (b := aligned sy my ey (Z.min ex ey)).
  intros Hle.
  assert (a - b <= 0).
  { destruct (Z.compare_spec a b); try lia; discriminate. }
  unfold binary_normalize. destruct (a - b) eqn:E; simpl; auto; try lia.
  apply signed_true_not_positive, binary_round_signed.
Qed.


(** Right shifts and rounding: when the result is a non-zero number. *)

Lemma Zdigits2_log2 m : 0 < m -> Zdigits2 m = Z.log2 m + 1.
Proof.
  destruct m as [ | p | p]; try lia. intros _. simpl Zdigits2.
  rewrite digits2_pos_size. destruct p; simpl; lia.
Qed.

Lemma Zdigits2_mul_pow2 a k :
  0 < a -> 0 <= k -> Zdigits2 (a * 2 ^ k) = Zdigits2 a + k.
Proof.
  intros Ha Hk.
  assert (0 < 2 ^ k) by (apply Z.pow_pos_nonneg; lia).
  rewrite !Zdigits2_log2 by nia. rewrite Z.log2_mul_pow2 by lia. lia.
Qed.

Lemma shr_1_m mrs : 0 <= shr_m mrs -> shr_m (shr_1 mrs) = shr_m mrs / 2.
Proof.
  destruct mrs as [m r s]. cbn [shr_m]. intros H.
  rewrite <- Z.div2_div.
  destruct m as [ | [p | p | ] | p]; try lia; reflexivity.
Qed.

Lemma shr_iter p : forall mrs,
  0 <= shr_m mrs -> shr_m (iter_pos shr_1 p mrs) = shr_m mrs / 2 ^ Zpos p.
Proof.
  assert (P : forall q, 0 < 2 ^ Zpos q) by (intros; apply Z.pow_pos_nonneg; lia).
  induction p as [p IH | p IH | ]; intros mrs H; cbn [iter_pos].
  - assert (H1 : 0 <= shr_m (shr_1 mrs)) by (rewrite shr_1_m by lia; apply Z.div_pos; lia).
    assert (H2 : 0 <= shr_m (iter_pos shr_1 p (shr_1 mrs)))
      by (rewrite IH by lia; apply Z.div_pos; auto).
    rewrite IH, IH, shr_1_m by lia.
    pose proof (P p).
    rewrite !Z.div_div by lia. f_equal.
    replace (Zpos p~1) with (1 + Zpos p + Zpos p) by lia.
    rewrite !Z.pow_add_r by lia. change (2 ^ 1) with 2. ring.
  - assert (H2 : 0 <= shr_m (iter_pos shr_1 p mrs))
      by (rewrite IH by lia; apply Z.div_pos; auto).
    rewrite IH, IH by lia.
    pose proof (P p).
    rewrite !Z.div_div by lia. f_equal.
    replace (Zpos p~0) with (Zpos p + Zpos p) by lia.
    rewrite !Z.pow_add_r by lia. ring.
  - now rewrite shr_1_m.
Qed.

Lemma shr_record_of_loc_m m l : shr_m (shr_record_of_loc m l) = m.
Proof. destruct l as [ | []]; reflexivity. Qed.

Lemma digits_shifted m n :
  0 < m -> 0 <= n < Zdigits2 m ->
  0 < m / 2 ^ n /\ Zdigits2 (m / 2 ^ n) = Zdigits2 m - n.
Proof.
  intros Hm Hn. rewrite (Zdigits2_log2 m) in * by lia.
  assert (Hq : 0 < m / 2 ^ n).
  { apply Z.div_str_pos. split; [ apply Z.pow_pos_nonneg; lia | ].
    apply Z.log2_le_pow2; lia. }
  split; [ exact Hq | ].
  rewrite Zdigits2_log2 by lia.
  rewrite <- Z.shiftr_div_pow2, Z.log2_shiftr by lia. lia.
Qed.

(** The magnitude of [m * 2^e]: the [k] with [2^(k-1) <= m * 2^e < 2^k]. *)
Definition magnitude (m e : Z) : Z := Zdigits2 m + e.

Lemma shr_fexp_magnitude m e l :
  0 < m -> emin < magnitude m e ->
  0 < shr_m (fst (shr_fexp prec emax m e l)) /\
  magnitude (shr_m (fst (shr_fexp prec emax m e l))) (snd (shr_fexp prec emax m e l))
  = magnitude m e.
Proof.
  unfold magnitude, shr_fexp, shr, fexp. intros Hm Hmag.
  change (SpecFloat.emin prec emax) with (-1074) in *. change prec with 53.
  destruct (Z.max (Zdigits2 m + e - 53) (-1074) - e) as [ | n | n] eqn:E;
    cbn [fst snd]; rewrite ?shr_record_of_loc_m; try (split; [ lia | reflexivity ]).
  rewrite shr_iter by (rewrite shr_record_of_loc_m; lia).
  rewrite shr_record_of_loc_m.
  destruct (digits_shifted m (Zpos n)) as [Hq Hd]; try lia.
Qed.

Lemma round_nearest_even_magnitude m l :
  0 < m ->
  0 < round_nearest_even m l /\ Zdigits2 m <= Zdigits2 (round_nearest_even m l).
Proof.
  intros Hm.
  assert (Zdigits2 m <= Zdigits2 (m + 1)).
  { rewrite !Zdigits2_log2 by lia. pose proof (Z.log2_le_mono m (m + 1)). lia. }
  unfold round_nearest_even.
  destruct l as [ | []]; try destruct (Z.even m); split; lia.
Qed.

(** A rounded non-zero number of magnitude above [emin]: never zero, never
    [NaN], never smaller in magnitude. *)
Definition sizeable (s : bool) (k : Z) (x : spec_float) : Prop :=
  x = S754_infinity s \/
  exists m e, x = S754_finite s m e /\ k <= magnitude (Zpos m) e.

Lemma binary_round_aux_sizeable s m e l :
  0 < m -> emin < magnitude m e ->
  sizeable s (magnitude m e) (binary_round_aux prec emax s m e l).
Proof.
  intros Hm Hmag. unfold binary_round_aux.
  destruct (shr_fexp_magnitude m e l Hm Hmag) as [H1 M1].
  destruct (shr_fexp prec emax m e l) as [mrs' e']. cbn [fst snd] in *.
  destruct (round_nearest_even_magnitude (shr_m mrs') (loc_of_shr_record mrs') H1)
    as [H2 M2].
  set (m1 := round_nearest_even (shr_m mrs') (loc_of_shr_record mrs')) in *.
  assert (Hmag1 : emin < magnitude m1 e') by (unfold magnitude in *; lia).
  destruct (shr_fexp_magnitude m1 e' loc_Exact H2 Hmag1) as [H3 M3].
  destruct (shr_fexp prec emax m1 e' loc_Exact) as [mrs'' e'']. cbn [fst snd] in *.
  destruct (shr_m mrs'') as [ | m2 | m2] eqn:E; try lia.
  destruct (e'' <=? emax - prec); [ right | left; reflexivity ].
  exists m2, e''. split; [ reflexivity | ]. unfold magnitude in *. lia.
Qed.

Lemma digits_iter_xO m d :
  Zpos (digits2_pos (Pos.iter xO m d)) = Zpos (digits2_pos m) + Zpos d.
Proof.
  induction d using Pos.peano_ind.
  - simpl. lia.
  - rewrite Pos.iter_succ. cbn [digits2_pos]. rewrite Pos2Z.inj_succ, IHd. lia.
Qed.

Lemma shl_align_magnitude m e e' :
  magnitude (Zpos (fst (shl_align m e e'))) (snd (shl_align m e e')) = magnitude (Zpos m) e.
Proof.
  unfold magnitude, shl_align.
  destruct (e' - e) as [ | d | d] eqn:E; cbn [fst snd Zdigits2]; try reflexivity.
  rewrite digits_iter_xO. lia.
Qed.

Lemma binary_round_sizeable s m e :
  emin < magnitude (Zpos m) e ->
  sizeable s (magnitude (Zpos m) e) (binary_round prec emax s m e).
Proof.
  intros H. unfold binary_round.
  pose proof (shl_align_magnitude m e (fexp prec emax (Zpos (digits2_pos m) + e))) as M.
  destruct (shl_align m e _) as [mz ez]. cbn [fst snd] in M.
  rewrite <- M in *. apply binary_round_aux_sizeable; lia.
Qed.

Lemma binary_round_aux_canonical s m e :
  bounded prec emax m e = true ->
  binary_round_aux prec emax s (Zpos m) e loc_Exact = S754_finite s m e.
Proof.
  intros B. pose proof B as B'.
  unfold bounded, canonical_mantissa in B'.
  apply andb_true_iff in B'. destruct B' as [C L]. apply Z.eqb_eq in C.
  unfold binary_round_aux, shr_fexp. cbn [Zdigits2]. rewrite C, Z.sub_diag.
  cbn [shr shr_record_of_loc shr_m loc_of_shr_record round_nearest_even Zdigits2].
  rewrite C, Z.sub_diag. cbn [shr shr_record_of_loc shr_m]. now rewrite L.
Qed.


Lemma sizeable_weaken s k k' x : k' <= k -> sizeable s k x -> sizeable s k' x.
Proof.
  intros H [-> | (m & e & -> & M)]; [ now left | right ].
  exists m, e. split; [ reflexivity | lia ].
Qed.

Lemma SFdiv_sizeable sx mx ex sy my ey :
  emin + prec <= magnitude (Zpos mx) ex - magnitude (Zpos my) ey ->
  sizeable (xorb sx sy) (magnitude (Zpos mx) ex - magnitude (Zpos my) ey)
    (SFdiv prec emax (S754_finite sx mx ex) (S754_finite sy my ey)).
Proof.
  unfold magnitude. cbn [Zdigits2]. intros HD.
  unfold SFdiv, SFdiv_core_binary. cbn [Zdigits2].
  set (d1 := Zpos (digits2_pos mx)) in *. set (d2 := Zpos (digits2_pos my)) in *.
  assert (F : fexp prec emax (d1 + ex - (d2 + ey)) = d1 + ex - (d2 + ey) - 53).
  { unfold fexp. change (SpecFloat.emin prec emax) with (-1074) in *.
    change prec with 53 in *. lia. }
  rewrite F.
  set (e' := Z.min (d1 + ex - (d2 + ey) - 53) (ex - ey)).
  set (s := ex - ey - e').
  assert (Hs : 0 <= s /\ d2 - d1 + 53 <= s) by (unfold s, e'; lia).
  set (m' := match s with Zpos _ => Z.shiftl (Zpos mx) s | 0 => Zpos mx | Zneg _ => 0 end).
  assert (Hm' : m' = Zpos mx * 2 ^ s).
  { unfold m'. destruct s as [ | p | p] eqn:Es; try lia.
    rewrite Z.shiftl_mul_pow2 by lia. reflexivity. }
  destruct (Z.div_eucl m' (Zpos my)) as [q r] eqn:E.
  assert (Hq : q = m' / Zpos my) by (unfold Z.div; now rewrite E).
  pose proof (digits_bounds mx) as [Lx _]. pose proof (digits_bounds my) as [_ Uy].
  fold d1 in Lx. fold d2 in Uy.
  assert (Hk : 2 ^ (d1 - 1 + s - d2) <= q).
  { rewrite Hq. apply Z.div_le_lower_bound; [ lia | ].
    assert (E1 : 2 ^ d2 * 2 ^ (d1 - 1 + s - d2) = 2 ^ (d1 - 1) * 2 ^ s).
    { rewrite <- !Z.pow_add_r by (unfold d1, d2; lia). f_equal. lia. }
    assert (0 < 2 ^ (d1 - 1 + s - d2)) by (apply Z.pow_pos_nonneg; lia).
    assert (0 < 2 ^ s) by (apply Z.pow_pos_nonneg; lia).
    rewrite Hm'. nia. }
  assert (Hq0 : 0 < q).
  { assert (0 < 2 ^ (d1 - 1 + s - d2)) by (apply Z.pow_pos_nonneg; lia). lia. }
  assert (Hmag : d1 + ex - (d2 + ey) <= magnitude q e').
  { unfold magnitude. rewrite Zdigits2_log2 by lia.
    apply Z.log2_le_pow2 in Hk; [ | lia ]. unfold s in *. lia. }
  apply sizeable_weaken with (k := magnitude q e'); [ exact Hmag | ].
  apply binary_round_aux_sizeable; [ exact Hq0 | ].
  change (SpecFloat.emin prec emax) with (-1074) in *. change prec with 53 in *. lia.
Qed.

(** Integers as floats: [represents z x] when [x] is the canonical binary64
    form of the integer [z]. *)
Definition represents (z : Z) (x : spec_float) : Prop :=
  match x with
  | S754_zero _ => z = 0
  | S754_finite s m e =>
      e <= 0 /\ cond_Zopp s (Zpos m) = z * 2 ^ (- e) /\ bounded prec emax m e = true
  | _ => False
  end.

Lemma binary_normalize_represents z :
  0 <= z < 2 ^ 53 -> represents z (binary_normalize prec emax z 0 false).
Proof.
  intros Hz. destruct z as [ | p | p]; try lia; [ reflexivity | ].
  cbn [binary_normalize]. unfold binary_round.
  set (d := Zpos (digits2_pos p)).
  assert (Hd : 1 <= d <= 53).
  { unfold d. split; [ lia | ].
    pose proof (digits_bounds p) as [L _]. fold d in L.
    destruct (Z.le_gt_cases d 53) as [ | G]; [ assumption | exfalso ].
    assert (2 ^ 53 <= 2 ^ (d - 1)) by (apply Z.pow_le_mono_r; lia). lia. }
  assert (F : fexp prec emax (d + 0) = d - 53).
  { unfold fexp. change (SpecFloat.emin prec emax) with (-1074). change prec with 53. lia. }
  rewrite F.
  pose proof (shl_align_value p 0 (d - 53) ltac:(lia)) as V.
  pose proof (shl_align_exponent p 0 (d - 53) ltac:(lia)) as X.
  pose proof (shl_align_magnitude p 0 (d - 53)) as M.
  destruct (shl_align p 0 (d - 53)) as [mz ez]. cbn [fst snd] in *. subst ez.
  assert (B : bounded prec emax mz (d - 53) = true).
  { unfold bounded, canonical_mantissa. unfold magnitude in M. cbn [Zdigits2] in M.
    fold d in M. rewrite M, Z.add_0_r. rewrite Z.add_0_r in F. rewrite F, Z.eqb_refl.
    apply Z.leb_le. change emax with 1024. change prec with 53. lia. }
  rewrite (binary_round_aux_canonical _ _ _ B).
  cbn [represents cond_Zopp]. repeat split; try lia; try assumption.
Qed.

Lemma represents_opp z x : represents z x -> represents (- z) (SFopp x).
Proof.
  destruct x as [s | s | | s m e]; cbn [represents SFopp]; try tauto; try lia.
  intros (E & V & B). repeat split; try assumption.
  destruct s; cbn [negb cond_Zopp] in *; lia.
Qed.

Lemma represents_magnitude z s m e :
  represents z (S754_finite s m e) ->
  1 <= magnitude (Zpos m) e /\ z <> 0 /\ s = (z <? 0).
Proof.
  cbn [represents]. intros (E & V & B).
  assert (P : 0 < 2 ^ (- e)) by (apply Z.pow_pos_nonneg; lia).
  assert (Hz : z <> 0 /\ s = (z <? 0)).
  { destruct s; cbn [cond_Zopp] in V; (split; [ nia | symmetry ]).
    - apply Z.ltb_lt. nia.
    - apply Z.ltb_ge. nia. }
  split; [ | exact Hz ].
  unfold magnitude. rewrite Zdigits2_log2 by lia.
  assert (2 ^ (- e) <= Zpos m) by (destruct s; cbn [cond_Zopp] in V; nia).
  apply Z.log2_le_pow2 in H; lia.
Qed.

Lemma represents_exact_magnitude z s m e :
  represents z (S754_finite s m e) -> magnitude (Zpos m) e = Zdigits2 (Z.abs z).
Proof.
  intros H. destruct (represents_magnitude _ _ _ _ H) as (_ & Hz & _).
  cbn [represents] in H. destruct H as (E & V & _).
  assert (A : Zpos m = Z.abs z * 2 ^ (- e)).
  { assert (0 < 2 ^ (- e)) by (apply Z.pow_pos_nonneg; lia).
    destruct s; cbn [cond_Zopp] in V; nia. }
  unfold magnitude. rewrite A, Zdigits2_mul_pow2 by lia. lia.
Qed.

Lemma represents_aligned z s m e ez :
  represents z (S754_finite s m e) -> ez <= e ->
  aligned s m e ez = z * 2 ^ (- ez).
Proof.
  cbn [represents]. intros (E & V & B) H.
  rewrite aligned_value by assumption.
  replace (- ez) with (- e + (e - ez)) by lia.
  rewrite Z.pow_add_r, Z.mul_assoc, <- V by lia.
  destruct s; cbn [cond_Zopp]; lia.
Qed.

Lemma compare_scaled a b k : 0 < k -> (a * k ?= b * k) = (a ?= b).
Proof.
  intros H. destruct (Z.compare_spec a b) as [E | E | E].
  - subst. apply Z.compare_refl.
  - apply Z.compare_lt_iff. nia.
  - apply Z.compare_gt_iff. nia.
Qed.

Lemma represents_compare a b x y :
  represents a x -> represents b y -> SFcompare x y = Some (a ?= b).
Proof.
  destruct x as [sx | sx | | sx mx ex], y as [sy | sy | | sy my ey];
    cbn [represents]; try tauto.
  - intros -> ->. reflexivity.
  - intros -> Hy. destruct (represents_magnitude _ _ _ _ Hy) as (_ & Hb & ->).
    cbn [SFcompare]. f_equal.
    destruct (Z.ltb_spec b 0); symmetry; [ apply Z.compare_gt_iff | apply Z.compare_lt_iff ]; lia.
  - intros Hx ->. destruct (represents_magnitude _ _ _ _ Hx) as (_ & Ha & ->).
    cbn [SFcompare]. f_equal.
    destruct (Z.ltb_spec a 0); symmetry; [ apply Z.compare_lt_iff | apply Z.compare_gt_iff ]; lia.
  - intros Hx Hy.
    rewrite SFcompare_aligned by (cbn [represents] in *; tauto).
    rewrite (represents_aligned a), (represents_aligned b) by (assumption || lia).
    f_equal. apply compare_scaled. apply Z.pow_pos_nonneg; cbn [represents] in *; lia.
Qed.

Lemma SFsub_integers a b x y :
  represents a x -> represents b y -> a <> b ->
  sizeable (a - b <? 0) (Zdigits2 (Z.abs (a - b))) (SFsub prec emax x y).
Proof.
  destruct x as [sx | sx | | sx mx ex], y as [sy | sy | | sy my ey];
    cbn [represents]; try tauto.
  - intros -> ->. lia.
  - intros -> Hy _. destruct (represents_magnitude _ _ _ _ Hy) as (_ & Hb & ->).
    cbn [SFsub]. right. exists my, ey. split.
    + f_equal. destruct (Z.ltb_spec b 0), (Z.ltb_spec (0 - b) 0); try reflexivity; lia.
    + rewrite (represents_exact_magnitude _ _ _ _ Hy).
      replace (Z.abs (0 - b)) with (Z.abs b) by lia. lia.
  - intros Hx -> _. destruct (represents_magnitude _ _ _ _ Hx) as (_ & Ha & ->).
    cbn [SFsub]. right. exists mx, ex. split.
    + f_equal. destruct (Z.ltb_spec a 0), (Z.ltb_spec (a - 0) 0); try reflexivity; lia.
    + rewrite (represents_exact_magnitude _ _ _ _ Hx), Z.sub_0_r. lia.
  - intros Hx Hy Hab. cbn [SFsub].
    fold (aligned sx mx ex (Z.min ex ey)). fold (aligned sy my ey (Z.min ex ey)).
    rewrite (represents_aligned a), (represents_aligned b) by (assumption || lia).
    set (ez := Z.min ex ey).
    assert (Hez : ez <= 0) by (cbn [represents] in *; lia).
    assert (P : 0 < 2 ^ (- ez)) by (apply Z.pow_pos_nonneg; lia).
    assert (emin <= ez).
    { destruct Hx as (_ & _ & Bx), Hy as (_ & _ & By).
      apply canonical_digits in Bx, By. lia. }
    assert (M : forall p, Zpos p = Z.abs (a - b) * 2 ^ (- ez) ->
                          magnitude (Zpos p) ez = Zdigits2 (Z.abs (a - b))).
    { intros p Hp. unfold magnitude. rewrite Hp, Zdigits2_mul_pow2 by lia. lia. }
    assert (D : 1 <= Zdigits2 (Z.abs (a - b))).
    { rewrite Zdigits2_log2 by lia. pose proof (Z.log2_nonneg (Z.abs (a - b))). lia. }
    change (SpecFloat.emin prec emax) with (-1074) in *.
    unfold binary_normalize.
    destruct (a * 2 ^ (- ez) - b * 2 ^ (- ez)) as [ | p | p] eqn:E; try nia.
    + assert (Hp : Zpos p = Z.abs (a - b) * 2 ^ (- ez)) by nia.
      replace (a - b <? 0) with false by (symmetry; apply Z.ltb_ge; nia).
      rewrite <- (M p Hp). apply binary_round_sizeable. rewrite (M p Hp).
      change (SpecFloat.emin prec emax) with (-1074). lia.
    + assert (Hp : Zpos p = Z.abs (a - b) * 2 ^ (- ez)) by nia.
      replace (a - b <? 0) with true by (symmetry; apply Z.ltb_lt; nia).
      rewrite <- (M p Hp). apply binary_round_sizeable. rewrite (M p Hp).
      change (SpecFloat.emin prec emax) with (-1074). lia.
Qed.


(** Exact right shifts. *)

Lemma shr_1_exact c :
  0 <= c -> shr_1 (Build_shr_record (2 * c) false false) = Build_shr_record c false false.
Proof.
  intros H. destruct c as [ | p | p]; try lia; reflexivity.
Qed.

Lemma shr_iter_exact p : forall c,
  0 <= c ->
  iter_pos shr_1 p (Build_shr_record (c * 2 ^ Zpos p) false false)
  = Build_shr_record c false false.
Proof.
  assert (P : forall q, 0 < 2 ^ Zpos q) by (intros; apply Z.pow_pos_nonneg; lia).
  induction p as [p IH | p IH | ]; intros c H; cbn [iter_pos].
  - replace (c * 2 ^ Zpos p~1) with (2 * ((c * 2 ^ Zpos p) * 2 ^ Zpos p)).
    + pose proof (P p). rewrite shr_1_exact by nia. rewrite IH by nia. now rewrite IH.
    + replace (Zpos p~1) with (1 + Zpos p + Zpos p) by lia.
      rewrite !Z.pow_add_r by lia. change (2 ^ 1) with 2. ring.
  - replace (c * 2 ^ Zpos p~0) with ((c * 2 ^ Zpos p) * 2 ^ Zpos p).
    + pose proof (P p). rewrite IH by nia. now rewrite IH.
    + replace (Zpos p~0) with (Zpos p + Zpos p) by lia.
      rewrite !Z.pow_add_r by lia. ring.
  - change (2 ^ 1) with 2. rewrite Z.mul_comm. now apply shr_1_exact.
Qed.

(** The canonical form of a non-zero integer below [2^53]. *)
Lemma binary_round_integer s d ez p :
  0 < d < 2 ^ 53 -> emin <= ez <= 0 -> Zpos p = d * 2 ^ (- ez) ->
  represents (cond_Zopp s d) (binary_round prec emax s p ez).
Proof.
  intros Hd Hez Hp.
  change (SpecFloat.emin prec emax) with (-1074) in Hez.
  set (dd := Zdigits2 d).
  assert (Hdd : 1 <= dd <= 53).
  { unfold dd. rewrite Zdigits2_log2 by lia. split.
    - pose proof (Z.log2_nonneg d). lia.
    - assert (Z.log2 d < 53) by (apply Z.log2_lt_pow2; lia). lia. }
  assert (Dp : Zpos (digits2_pos p) = dd - ez).
  { change (Zpos (digits2_pos p)) with (Zdigits2 (Zpos p)).
    rewrite Hp, Zdigits2_mul_pow2 by lia. unfold dd. lia. }
  assert (F : fexp prec emax (Zpos (digits2_pos p) + ez) = dd - 53).
  { unfold fexp. change (SpecFloat.emin prec emax) with (-1074). change prec with 53. lia. }
  unfold binary_round. rewrite F.
  set (c := d * 2 ^ (53 - dd)).
  assert (Pc : 0 < 2 ^ (53 - dd)) by (apply Z.pow_pos_nonneg; lia).
  assert (Hc : 0 < c) by (unfold c; nia).
  assert (Dc : Zdigits2 c = 53) by (unfold c; rewrite Zdigits2_mul_pow2 by lia; unfold dd; lia).
  assert (Bc : forall pc, Zpos pc = c -> bounded prec emax pc (dd - 53) = true).
  { intros pc E. unfold bounded, canonical_mantissa.
    change (Zpos (digits2_pos pc)) with (Zdigits2 (Zpos pc)). rewrite E, Dc.
    apply andb_true_iff. split; [ apply Z.eqb_eq | apply Z.leb_le ].
    - unfold fexp. change (SpecFloat.emin prec emax) with (-1074). change prec with 53. lia.
    - change emax with 1024. change prec with 53. lia. }
  assert (Rc : forall pc, Zpos pc = c ->
               represents (cond_Zopp s d) (S754_finite s pc (dd - 53))).
  { intros pc E. cbn [represents]. split; [ lia | ]. split; [ | now apply Bc ].
    rewrite E. unfold c. replace (- (dd - 53)) with (53 - dd) by lia.
    destruct s; cbn [cond_Zopp]; lia. }
  destruct (Z.lt_ge_cases (dd - 53) ez) as [Hlt | Hge].
  - (* the mantissa is shifted left to 53 digits *)
    pose proof (shl_align_value p ez (dd - 53) ltac:(lia)) as V.
    pose proof (shl_align_exponent p ez (dd - 53) ltac:(lia)) as X.
    destruct (shl_align p ez (dd - 53)) as [mz e2]. cbn [fst snd] in *. subst e2.
    assert (E : Zpos mz = c).
    { rewrite V, Hp. unfold c. rewrite <- Z.mul_assoc, <- Z.pow_add_r by lia.
      f_equal. f_equal. lia. }
    rewrite (binary_round_aux_canonical _ _ _ (Bc mz E)). now apply Rc.
  - (* the low bits, all zero, are shifted out *)
    assert (A : shl_align p ez (dd - 53) = (p, ez)).
    { unfold shl_align. destruct (dd - 53 - ez) eqn:E; try reflexivity. lia. }
    rewrite A. unfold binary_round_aux, shr_fexp. cbn [Zdigits2].
    rewrite F. cbn [shr_record_of_loc].
    destruct (dd - 53 - ez) as [ | n | n] eqn:E; try lia; cbn [shr].
    + assert (ez = dd - 53) by lia. subst ez.
      cbn [shr_m loc_of_shr_record round_nearest_even Zdigits2].
      rewrite F. rewrite Z.sub_diag. cbn [shr shr_m shr_record_of_loc].
      assert (Ep : Zpos p = c) by (rewrite Hp; unfold c; f_equal; f_equal; lia).
      pose proof (Bc p Ep) as B. unfold bounded in B. apply andb_true_iff in B as [_ B].
      rewrite B. now apply Rc.
    + assert (Ep : Zpos p = c * 2 ^ Zpos n).
      { rewrite Hp. unfold c. rewrite <- Z.mul_assoc, <- Z.pow_add_r by lia.
        f_equal. f_equal. lia. }
      rewrite Ep, shr_iter_exact by lia.
      cbn [shr_m loc_of_shr_record round_nearest_even].
      destruct c as [ | pc | pc] eqn:Ec; try lia.
      cbn [Zdigits2]. change (Zpos (digits2_pos pc)) with (Zdigits2 (Zpos pc)).
      rewrite Dc.
      replace (fexp prec emax (53 + (ez + Zpos n)) - (ez + Zpos n)) with 0
        by (unfold fexp; change (SpecFloat.emin prec emax) with (-1074);
            change prec with 53; lia).
      cbn [shr shr_record_of_loc shr_m].
      replace (ez + Zpos n) with (dd - 53) by lia.
      pose proof (Bc pc eq_refl) as B. unfold bounded in B. apply andb_true_iff in B as [_ B].
      rewrite B. now apply Rc.
Qed.


Lemma represents_unique z x y :
  z <> 0 -> represents z x -> represents z y -> x = y.
Proof.
  intros Hz Hx Hy.
  destruct x as [sx | sx | | sx mx ex], y as [sy | sy | | sy my ey];
    cbn [represents] in Hx, Hy; try tauto; try lia.
  pose proof (represents_exact_magnitude _ _ _ _ Hx) as Mx.
  pose proof (represents_exact_magnitude _ _ _ _ Hy) as My.
  destruct (represents_magnitude _ _ _ _ Hx) as (_ & _ & Sx).
  destruct (represents_magnitude _ _ _ _ Hy) as (_ & _ & Sy).
  destruct Hx as (_ & Vx & Bx), Hy as (_ & Vy & By).
  assert (ex = ey).
  { unfold bounded, canonical_mantissa in Bx, By.
    apply andb_true_iff in Bx as [Bx _]. apply andb_true_iff in By as [By _].
    apply Z.eqb_eq in Bx, By. unfold magnitude in Mx, My. cbn [Zdigits2] in Mx, My.
    rewrite Mx in Bx. rewrite My in By. congruence. }
  subst ey sx sy. f_equal.
  assert (Zpos mx = Zpos my) by (destruct (z <? 0); cbn [cond_Zopp] in *; lia).
  congruence.
Qed.

(** Subtraction of integers is exact below [2^53]. *)
Lemma SFsub_integers_exact a b x y :
  represents a x -> represents b y -> a <> b -> Z.abs (a - b) < 2 ^ 53 ->
  represents (a - b) (SFsub prec emax x y).
Proof.
  destruct x as [sx | sx | | sx mx ex], y as [sy | sy | | sy my ey];
    cbn [represents]; try tauto.
  - intros -> ->. lia.
  - intros -> (E & V & B) _ _. cbn [SFsub represents].
    repeat split; try assumption. destruct sy; cbn [negb cond_Zopp] in *; lia.
  - intros Hx -> _ _. cbn [SFsub]. now rewrite Z.sub_0_r.
  - intros Hx Hy Hab Hlt. cbn [SFsub].
    fold (aligned sx mx ex (Z.min ex ey)). fold (aligned sy my ey (Z.min ex ey)).
    rewrite (represents_aligned a), (represents_aligned b) by (assumption || lia).
    set (ez := Z.min ex ey).
    assert (Hez : emin <= ez <= 0).
    { destruct Hx as (? & _ & Bx), Hy as (? & _ & By).
      apply canonical_digits in Bx, By. lia. }
    assert (P : 0 < 2 ^ (- ez)) by (apply Z.pow_pos_nonneg; lia).
    unfold binary_normalize.
    destruct (a * 2 ^ (- ez) - b * 2 ^ (- ez)) as [ | p | p] eqn:E; try nia.
    + replace (a - b) with (cond_Zopp false (a - b)) by reflexivity.
      apply binary_round_integer; try assumption; nia.
    + replace (a - b) with (cond_Zopp true (b - a)) by (cbn [cond_Zopp]; lia).
      apply binary_round_integer; try assumption; nia.
Qed.

Lemma SFsub_equal a x y :
  represents a x -> represents a y ->
  exists s, SFsub prec emax x y = S754_zero s.
Proof.
  intros Hx Hy. destruct (Z.eq_dec a 0) as [-> | Ha].
  - destruct x as [sx | sx | | sx mx ex], y as [sy | sy | | sy my ey];
      cbn [represents] in Hx, Hy; try tauto.
    + destruct sx, sy; cbn [SFsub]; eauto.
    + destruct (represents_magnitude _ _ _ _ Hy) as (_ & F & _). congruence.
    + destruct (represents_magnitude _ _ _ _ Hx) as (_ & F & _). congruence.
    + destruct (represents_magnitude _ _ _ _ Hx) as (_ & F & _). congruence.
  - rewrite (represents_unique a x y Ha Hx Hy).
    destruct y as [sy | sy | | sy my ey]; cbn [represents] in Hy; try tauto; try lia.
    cbn [SFsub]. rewrite Z.sub_diag. cbn [binary_normalize]. eauto.
Qed.


(** Rounding moves a number by less than one unit of the exponent it is
    rounded at. *)

Lemma shr_fexp_value m e l :
  0 < m ->
  shr_m (fst (shr_fexp prec emax m e l))
  = m / 2 ^ Z.max 0 (fexp prec emax (magnitude m e) - e)
  /\ snd (shr_fexp prec emax m e l)
     = e + Z.max 0 (fexp prec emax (magnitude m e) - e).
Proof.
  intros Hm. unfold shr_fexp, shr, magnitude.
  destruct (fexp prec emax (Zdigits2 m + e) - e) as [ | n | n] eqn:E;
    cbn [fst snd]; rewrite ?shr_record_of_loc_m.
  - cbn [Z.max]. rewrite Z.div_1_r. lia.
  - rewrite shr_iter by (rewrite shr_record_of_loc_m; lia).
    rewrite shr_record_of_loc_m. rewrite Z.max_r by lia. split; reflexivity.
  - rewrite Z.max_l by lia. rewrite Z.div_1_r. lia.
Qed.

Lemma round_nearest_even_cases m l :
  round_nearest_even m l = m \/ round_nearest_even m l = m + 1.
Proof.
  unfold round_nearest_even. destruct l as [ | []]; try destruct (Z.even m); auto.
Qed.

Lemma digits_succ q :
  0 < q ->
  Zdigits2 (q + 1) = Zdigits2 q
  \/ (Zdigits2 (q + 1) = Zdigits2 q + 1 /\ q + 1 = 2 ^ Zdigits2 q).
Proof.
  intros Hq. rewrite !Zdigits2_log2 by lia.
  pose proof (Z.log2_le_mono q (q + 1) ltac:(lia)) as L1.
  destruct (Z.log2_spec q Hq) as [_ U].
  destruct (Z.log2_spec (q + 1) ltac:(lia)) as [L _].
  destruct (Z.eq_dec (Z.log2 (q + 1)) (Z.log2 q)) as [E | N]; [ left; lia | right ].
  assert (H : 2 ^ Z.succ (Z.log2 q) <= 2 ^ Z.log2 (q + 1))
    by (apply Z.pow_le_mono_r; lia).
  assert (Z.log2 (q + 1) = Z.succ (Z.log2 q)).
  { destruct (Z.lt_trichotomy (Z.log2 (q + 1)) (Z.succ (Z.log2 q))) as [A | [A | A]];
      try lia.
    assert (2 ^ Z.succ (Z.succ (Z.log2 q)) <= 2 ^ Z.log2 (q + 1))
      by (apply Z.pow_le_mono_r; lia).
    rewrite (Z.pow_succ_r 2 (Z.succ (Z.log2 q))) in H0
      by (pose proof (Z.log2_nonneg q); lia).
    lia. }
  split; [ lia | ]. replace (Z.log2 q + 1) with (Z.succ (Z.log2 q)) by lia. lia.
Qed.

Lemma binary_round_aux_bracket s m e l :
  0 < m -> emin < magnitude m e ->
  let k := Z.max 0 (fexp prec emax (magnitude m e) - e) in
  exists m2 e2,
    binary_round_aux prec emax s m e l
    = (if e2 <=? emax - prec then S754_finite s m2 e2 else S754_infinity s)
    /\ e + k <= e2 <= e + k + 1
    /\ (Zpos m2 * 2 ^ (e2 - (e + k)) - 1) * 2 ^ k <= m
    /\ m < (Zpos m2 * 2 ^ (e2 - (e + k)) + 1) * 2 ^ k.
Proof.
  intros Hm Hmag k. unfold binary_round_aux.
  destruct (shr_fexp_value m e l Hm) as [V1 X1]. fold k in V1, X1.
  destruct (shr_fexp_magnitude m e l Hm Hmag) as [P1 M1].
  destruct (shr_fexp prec emax m e l) as [mrs' e1]. cbn [fst snd] in *.
  set (q := shr_m mrs') in *.
  assert (Pk : 0 < 2 ^ k) by (apply Z.pow_pos_nonneg; lia).
  assert (Bq : q * 2 ^ k <= m < (q + 1) * 2 ^ k).
  { rewrite V1. pose proof (Z.mul_div_le m (2 ^ k) Pk).
    pose proof (Z.mul_succ_div_gt m (2 ^ k) Pk). lia. }
  set (m1 := round_nearest_even q (loc_of_shr_record mrs')).
  assert (C1 : m1 = q \/ m1 = q + 1) by apply round_nearest_even_cases.
  assert (H1 : 0 < m1) by lia.
  assert (Fle : fexp prec emax (magnitude m e) <= e1) by lia.
  assert (Fs : fexp prec emax (magnitude m e + 1) <= fexp prec emax (magnitude m e) + 1)
    by (unfold fexp; lia).
  (* the second shift is by at most one bit, of a power of two *)
  assert (D : magnitude m1 e1 = magnitude m e
              \/ (magnitude m1 e1 = magnitude m e + 1 /\ m1 = 2 ^ Zdigits2 q)).
  { unfold magnitude in *. destruct C1 as [-> | ->]; [ left; lia | ].
    destruct (digits_succ q P1) as [E | [E Pw]]; [ left | right ]; lia. }
  assert (Hmag1 : emin < magnitude m1 e1) by lia.
  destruct (shr_fexp_value m1 e1 loc_Exact H1) as [V2 X2].
  destruct (shr_fexp_magnitude m1 e1 loc_Exact H1 Hmag1) as [P2 _].
  destruct (shr_fexp prec emax m1 e1 loc_Exact) as [mrs'' e2]. cbn [fst snd] in *.
  set (k2 := Z.max 0 (fexp prec emax (magnitude m1 e1) - e1)) in *.
  assert (K2 : k2 = 0 \/ k2 = 1) by (unfold k2; destruct D as [D | [D _]]; rewrite D; lia).
  assert (Ex : shr_m mrs'' * 2 ^ k2 = m1).
  { rewrite V2. destruct D as [D | [D Pw]].
    - replace k2 with 0 by (unfold k2; rewrite D; lia).
      change (2 ^ 0) with 1. rewrite Z.div_1_r. lia.
    - destruct K2 as [-> | ->].
      + change (2 ^ 0) with 1. rewrite Z.div_1_r. lia.
      + change (2 ^ 1) with 2. rewrite Pw.
        assert (1 <= Zdigits2 q).
        { rewrite Zdigits2_log2 by lia. pose proof (Z.log2_nonneg q). lia. }
        replace (Zdigits2 q) with (Z.succ (Zdigits2 q - 1)) by lia.
        rewrite Z.pow_succ_r by lia.
        rewrite (Z.mul_comm 2), Z.div_mul by lia. ring. }
  destruct (shr_m mrs'') as [ | m2 | m2] eqn:E2; try lia.
  exists m2, e2. split; [ reflexivity | ].
  assert (e2 - (e + k) = k2) by lia.
  split; [ lia | ].
  rewrite H, Ex. destruct C1 as [-> | ->]; nia.
Qed.

Lemma SFcompare_scaled m1 e1 m2 e2 E :
  bounded prec emax m1 e1 = true -> bounded prec emax m2 e2 = true ->
  E <= e1 -> E <= e2 ->
  SFcompare (S754_finite false m1 e1) (S754_finite false m2 e2)
  = Some (Zpos m1 * 2 ^ (e1 - E) ?= Zpos m2 * 2 ^ (e2 - E)).
Proof.
  intros B1 B2 H1 H2. rewrite SFcompare_aligned by assumption.
  rewrite !aligned_value by lia. cbn [cond_Zopp]. f_equal.
  set (ez := Z.min e1 e2).
  replace (e1 - E) with ((e1 - ez) + (ez - E)) by lia.
  replace (e2 - E) with ((e2 - ez) + (ez - E)) by lia.
  rewrite !Z.pow_add_r, !Z.mul_assoc by lia.
  symmetry. apply compare_scaled. apply Z.pow_pos_nonneg; lia.
Qed.

(** Division in the normal range: the quotient before rounding, and the
    rounded result around it. *)
Lemma SFdiv_bracket sx mx ex sy my ey :
  let D := magnitude (Zpos mx) ex - magnitude (Zpos my) ey in
  emin + prec <= D -> Zpos (digits2_pos mx) <= prec ->
  let e' := D - prec in
  let q := Zpos mx * 2 ^ (ex - ey - e') / Zpos my in
  exists m2 e2 k,
    SFdiv prec emax (S754_finite sx mx ex) (S754_finite sy my ey)
    = (if e2 <=? emax - prec then S754_finite (xorb sx sy) m2 e2
       else S754_infinity (xorb sx sy))
    /\ 0 <= k <= 1 /\ e' + k <= e2 <= e' + k + 1
    /\ q * Zpos my <= Zpos mx * 2 ^ (ex - ey - e') < (q + 1) * Zpos my
    /\ (Zpos m2 * 2 ^ (e2 - (e' + k)) - 1) * 2 ^ k <= q
    /\ q < (Zpos m2 * 2 ^ (e2 - (e' + k)) + 1) * 2 ^ k.
Proof.
  intros D HD Hdx e' q. unfold magnitude in D. cbn [Zdigits2] in D.
  unfold SFdiv, SFdiv_core_binary. cbn [Zdigits2].
  set (d1 := Zpos (digits2_pos mx)) in *. set (d2 := Zpos (digits2_pos my)) in *.
  change (SpecFloat.emin prec emax) with (-1074) in *. change prec with 53 in *.
  assert (F : fexp 53 emax (d1 + ex - (d2 + ey)) = e').
  { unfold fexp, e', D. change (SpecFloat.emin 53 emax) with (-1074). lia. }
  assert (d2 >= 1) by (unfold d2; lia).
  rewrite F. replace (Z.min e' (ex - ey)) with e' by (unfold e', D; lia).
  set (s := ex - ey - e') in *.
  assert (Hs : s = 53 + d2 - d1) by (unfold s, e', D; lia).
  assert (Hm' : match s with Zpos _ => Z.shiftl (Zpos mx) s | 0 => Zpos mx | Zneg _ => 0 end
                = Zpos mx * 2 ^ s).
  { destruct s as [ | p | p] eqn:Es; try lia.
    rewrite Z.shiftl_mul_pow2 by lia. reflexivity. }
  rewrite Hm'.
  destruct (Z.div_eucl (Zpos mx * 2 ^ s) (Zpos my)) as [q0 r] eqn:E.
  assert (Hq : q0 = q) by (unfold q, Z.div; now rewrite E).
  subst q0.
  pose proof (digits_bounds mx) as [Lx Ux]. pose proof (digits_bounds my) as [Ly Uy].
  fold d1 in Lx, Ux. fold d2 in Ly, Uy.
  assert (Ps : 0 < 2 ^ s) by (apply Z.pow_pos_nonneg; lia).
  assert (Bq : q * Zpos my <= Zpos mx * 2 ^ s < (q + 1) * Zpos my).
  { unfold q. pose proof (Z.mul_div_le (Zpos mx * 2 ^ s) (Zpos my) ltac:(lia)).
    pose proof (Z.mul_succ_div_gt (Zpos mx * 2 ^ s) (Zpos my) ltac:(lia)). lia. }
  assert (Lq : 2 ^ 52 <= q).
  { unfold q. apply Z.div_le_lower_bound; [ lia | ].
    assert (E1 : 2 ^ d2 * 2 ^ 52 = 2 ^ (d1 - 1) * 2 ^ s).
    { rewrite <- !Z.pow_add_r by lia. f_equal. lia. }
    nia. }
  assert (Uq : q < 2 ^ 54).
  { unfold q. apply Z.div_lt_upper_bound; [ lia | ].
    assert (E1 : 2 ^ (d2 - 1) * 2 ^ 54 = 2 ^ d1 * 2 ^ s).
    { rewrite <- !Z.pow_add_r by lia. f_equal. lia. }
    assert (0 < 2 ^ 54) by reflexivity. nia. }
  assert (Hq0 : 0 < q) by (assert (0 < 2 ^ 52) by reflexivity; lia).
  assert (Dq : 53 <= Zdigits2 q <= 54).
  { rewrite Zdigits2_log2 by lia. split.
    - apply Z.log2_le_pow2 in Lq; lia.
    - apply Z.log2_lt_pow2 in Uq; lia. }
  assert (Hmag : emin < magnitude q e').
  { unfold magnitude. change (SpecFloat.emin prec emax) with (-1074). unfold e', D. lia. }
  destruct (binary_round_aux_bracket (xorb sx sy) q e' (new_location (Zpos my) r) Hq0 Hmag)
    as (m2 & e2 & R & He2 & B1 & B2).
  set (k := Z.max 0 (fexp prec emax (magnitude q e') - e')) in *.
  exists m2, e2, k. split; [ exact R | ].
  assert (0 <= k <= 1).
  { unfold k, magnitude, fexp. change (SpecFloat.emin prec emax) with (-1074).
    change prec with 53. unfold e', D in *. lia. }
  repeat split; try lia; try assumption.
Qed.


(** Minutes from milliseconds: the quotient by 60000 against the two
    duration limits, for a positive integer number of milliseconds. *)

Definition sixty_thousand : spec_float := S754_finite false 8246337208320000 (-37).
Definition limit_150 : spec_float := S754_finite false 5277655813324800 (-45).
Definition limit_300 : spec_float := S754_finite false 5277655813324800 (-44).

(** The rounded quotient [m2 * 2^e2] of [d] by 60000, scaled by [2^69]
    ([b]), lies within [c] of the scaled exact quotient, itself bracketed by
    [a] and [a + T]. *)
Lemma minutes_scaled d g :
  0 < d < 2 ^ 53 -> represents d g ->
  exists m2 e2 a b c T,
    SFdiv prec emax g sixty_thousand = S754_finite false m2 e2
    /\ -69 <= e2 <= -14
    /\ b = Zpos m2 * 2 ^ (e2 - -69)
    /\ b - c <= a < b + c
    /\ c <= 4 * d /\ 0 < T <= 2 * d
    /\ 60000 * a <= d * 590295810358705651712 < 60000 * (a + T).
Proof.
  intros Hd Hg.
  destruct g as [sg | sg | | sg mx ex]; cbn [represents] in Hg; try tauto; try lia.
  pose proof (represents_exact_magnitude _ _ _ _ Hg) as Mg.
  destruct (represents_magnitude _ _ _ _ Hg) as (_ & _ & Sg).
  replace (d <? 0) with false in Sg by (symmetry; apply Z.ltb_ge; lia). subst sg.
  destruct Hg as (Hex & Vx & Bx). cbn [cond_Zopp] in Vx.
  rewrite Z.abs_eq in Mg by lia.
  set (dd := Zdigits2 d) in *.
  assert (Hdd : 1 <= dd <= 53).
  { unfold dd. rewrite Zdigits2_log2 by lia. split.
    - pose proof (Z.log2_nonneg d). lia.
    - assert (Z.log2 d < 53) by (apply Z.log2_lt_pow2; lia). lia. }
  assert (Eex : ex = dd - 53).
  { pose proof Bx as B. unfold bounded, canonical_mantissa in B.
    apply andb_true_iff in B as [B _]. apply Z.eqb_eq in B.
    unfold magnitude in Mg. cbn [Zdigits2] in Mg. rewrite Mg in B.
    unfold fexp in B. change (SpecFloat.emin prec emax) with (-1074) in B.
    change prec with 53 in B. lia. }
  assert (Dx : Zpos (digits2_pos mx) <= prec)
    by (apply canonical_digits in Bx; tauto).
  unfold sixty_thousand.
  pose proof (SFdiv_bracket false mx ex false 8246337208320000 (-37)) as Br.
  change (magnitude (Zpos 8246337208320000) (-37)) with 16 in Br.
  rewrite Mg in Br. cbv zeta in Br.
  change (SpecFloat.emin prec emax) with (-1074) in Br. change prec with 53 in Br.
  specialize (Br ltac:(lia) Dx).
  destruct Br as (m2 & e2 & k & R & Hk & He2 & Bq & B1 & B2).
  replace (ex - -37 - (dd - 16 - 53)) with 53 in * by lia.
  set (q := Zpos mx * 2 ^ 53 / 8246337208320000) in *.
  change emax with 1024 in R.
  replace (e2 <=? 1024 - 53) with true in R by (symmetry; apply Z.leb_le; lia).
  cbn [xorb] in R. change prec with 53. change emax with 1024.
  set (T := 2 ^ dd).
  assert (PT : 0 < T) by (apply Z.pow_pos_nonneg; lia).
  assert (HT : T <= 2 * d).
  { unfold T, dd. rewrite Zdigits2_log2 by lia.
    replace (Z.log2 d + 1) with (Z.succ (Z.log2 d)) by lia.
    rewrite Z.pow_succ_r by apply Z.log2_nonneg.
    destruct (Z.log2_spec d ltac:(lia)). lia. }
  set (u := 2 ^ k) in *.
  assert (Hu : 1 <= u <= 2).
  { unfold u. destruct (Z.eq_dec k 0) as [-> | ]; [ cbn; lia | ].
    replace k with 1 by lia. cbn. lia. }
  set (m1 := Zpos m2 * 2 ^ (e2 - (dd - 16 - 53 + k))) in *.
  assert (Eb : Zpos m2 * 2 ^ (e2 - -69) = m1 * u * T).
  { unfold m1, u, T. rewrite <- !Z.mul_assoc, <- !Z.pow_add_r by lia.
    f_equal. f_equal. lia. }
  (* the quotient, scaled: 60000 * q * T <= d * 2^69 < 60000 * (q + 1) * T *)
  assert (Ea : 60000 * (q * T) <= d * 2 ^ 69 /\ d * 2 ^ 69 < 60000 * ((q + 1) * T)).
  { assert (E1 : Zpos mx * 2 ^ 53 * T = d * 2 ^ 69 * 2 ^ 37).
    { rewrite Vx, Eex. unfold T.
      rewrite <- !Z.mul_assoc, <- !Z.pow_add_r by lia. f_equal. f_equal. lia. }
    assert (E2 : 8246337208320000 = 60000 * 2 ^ 37) by reflexivity.
    assert (P37 : 0 < 2 ^ 37) by reflexivity.
    rewrite E2 in Bq. split; nia. }
  assert (P69 : 2 ^ 69 = 590295810358705651712) by reflexivity. rewrite P69 in Ea.
  assert (Ba : (m1 - 1) * u * T <= q * T /\ q * T < (m1 + 1) * u * T) by (split; nia).
  exists m2, e2, (q * T), (m1 * u * T), (u * T), T.
  split; [ exact R | ]. split; [ lia | ]. split; [ now rewrite Eb | ].
  split; [ nia | ]. split; [ nia | ]. split; [ lia | ].
  replace (q * T + T) with ((q + 1) * T) by ring. exact Ea.
Qed.

Lemma minutes_thresholds d g :
  0 < d < 2 ^ 53 -> represents d g ->
  valid_binary (SFdiv prec emax g sixty_thousand) = true ->
  (d < 9000000 -> SFltb (SFdiv prec emax g sixty_thousand) limit_150 = true)
  /\ (9000000 < d -> SFltb (SFdiv prec emax g sixty_thousand) limit_150 = false)
  /\ (18000000 < d -> SFltb limit_300 (SFdiv prec emax g sixty_thousand) = true)
  /\ (d < 18000000 -> SFltb limit_300 (SFdiv prec emax g sixty_thousand) = false).
Proof.
  intros Hd Hg.
  destruct (minutes_scaled d g Hd Hg) as (m2 & e2 & a & b & c & T & -> & He2 & Eb & H).
  cbn [valid_binary]. intros B2.
  unfold limit_150, limit_300, SFltb.
  rewrite (SFcompare_scaled m2 e2 5277655813324800 (-45) (-69))
    by (reflexivity || assumption || lia).
  rewrite (SFcompare_scaled 5277655813324800 (-44) m2 e2 (-69))
    by (reflexivity || assumption || lia).
  change (Zpos 5277655813324800 * 2 ^ (-45 - -69)) with 88544371553805847756800.
  change (Zpos 5277655813324800 * 2 ^ (-44 - -69)) with 177088743107611695513600.
  rewrite <- Eb. clear Eb B2 He2.
  repeat split; intros L.
  - replace (b ?= 88544371553805847756800) with Lt;
      [ reflexivity | symmetry; apply Z.compare_lt_iff; lia ].
  - destruct (Z.compare_spec b 88544371553805847756800); try reflexivity; lia.
  - replace (177088743107611695513600 ?= b) with Lt;
      [ reflexivity | symmetry; apply Z.compare_lt_iff; lia ].
  - destruct (Z.compare_spec 177088743107611695513600 b); try reflexivity; lia.
Qed.

(** Half a minute: the rounded quotient is at most 1/2 exactly when [d] is
    at most 30000. *)
Lemma half_minute d g :
  0 < d < 2 ^ 53 -> represents d g ->
  exists m2 e2,
    SFdiv prec emax g sixty_thousand = S754_finite false m2 e2
    /\ (d <= 30000 -> e2 < 0 /\ 2 * Zpos m2 <= 2 ^ (- e2))
    /\ (30000 < d -> 0 <= e2 \/ 2 ^ (- e2) < 2 * Zpos m2).
Proof.
  intros Hd Hg.
  destruct (Z.eq_dec d 30000) as [-> | Hne].
  - assert (C : represents 30000 (S754_finite false 8246337208320000 (-38)))
      by (cbn [represents cond_Zopp]; repeat split; lia || reflexivity).
    rewrite (represents_unique 30000 _ _ ltac:(lia) Hg C).
    exists 4503599627370496%positive, (-53). split; [ reflexivity | ].
    split; [ intros _; split; [ lia | ] | lia ].
    replace (2 ^ (- -53)) with (2 * 4503599627370496) by reflexivity. lia.
  - destruct (minutes_scaled d g Hd Hg) as (m2 & e2 & a & b & c & T & R & He2 & Eb & H).
    exists m2, e2. split; [ exact R | ].
    assert (P : 0 < 2 ^ (e2 - -69)) by (apply Z.pow_pos_nonneg; lia).
    assert (E : 2 ^ (- e2) * 2 ^ (e2 - -69) = 590295810358705651712).
    { rewrite <- Z.pow_add_r by lia. replace (- e2 + (e2 - -69)) with 69 by lia.
      reflexivity. }
    split; intros L.
    + split; [ lia | ].
      assert (2 * b < 590295810358705651712) by lia. nia.
    + right. assert (590295810358705651712 < 2 * b) by lia. nia.
Qed.

Lemma binary_round_aux_opp s m e l :
  binary_round_aux prec emax (negb s) m e l
  = SFopp (binary_round_aux prec emax s m e l).
Proof.
  unfold binary_round_aux.
  destruct (shr_fexp prec emax m e l) as [mrs' e'].
  destruct (shr_fexp prec emax _ e' loc_Exact) as [mrs'' e''].
  destruct (shr_m mrs''); [ | destruct (e'' <=? emax - prec) | ]; reflexivity.
Qed.

Lemma SFdiv_opp x my ey :
  SFdiv prec emax (SFopp x) (S754_finite false my ey)
  = SFopp (SFdiv prec emax x (S754_finite false my ey)).
Proof.
  destruct x as [sx | sx | | sx mx ex]; cbn [SFopp SFdiv]; rewrite ?xorb_false_r;
    try reflexivity.
  destruct (SFdiv_core_binary prec emax (Zpos mx) ex (Zpos my) ey) as [[q e'] l].
  apply binary_round_aux_opp.
Qed.

Lemma minutes_at_limits g :
  (represents 9000000 g -> SFdiv prec emax g sixty_thousand = limit_150)
  /\ (represents 18000000 g -> SFdiv prec emax g sixty_thousand = limit_300).
Proof.
  split; intros H.
  - assert (C : represents 9000000 (S754_finite false 4831838208000000 (-29)))
      by (cbn [represents cond_Zopp]; repeat split; lia || reflexivity).
    rewrite (represents_unique 9000000 _ _ ltac:(lia) H C). reflexivity.
  - assert (C : represents 18000000 (S754_finite false 4831838208000000 (-28)))
      by (cbn [represents cond_Zopp]; repeat split; lia || reflexivity).
    rewrite (represents_unique 18000000 _ _ ltac:(lia) H C). reflexivity.
Qed.

(** A number of magnitude above nine is more than 300. *)
Lemma sizeable_above_limits k x :
  10 <= k -> valid_binary x = true -> sizeable false k x ->
  SFltb limit_300 x = true /\ SFltb x limit_150 = false.
Proof.
  intros Hk V [-> | (m & e & -> & M)]; [ split; reflexivity | ].
  cbn [valid_binary] in V. pose proof (canonical_digits _ _ V) as (D & _).
  unfold magnitude in M. cbn [Zdigits2] in M. change prec with 53 in D.
  unfold limit_300, limit_150, SFltb, SFcompare.
  destruct (Z.compare_spec (-44) e), (Z.compare_spec e (-45));
    try (exfalso; lia). split; reflexivity.
Qed.

End Binary64.


(** ** Running the evaluator *)

Lemma toFixed_fixed (x : number) (f : Z) :
  0 <= f <= 100 -> toFixed x f = Normal (fixed x f).
Proof.
  intros Hf. unfold fixed, toFixed.
  replace ((f <? 0) || (100 <? f)) with false by
    (symmetry; apply orb_false_iff; split; apply Z.ltb_ge; lia).
  destruct (Prim2SF x) as [ | | | sg m e]; try reflexivity.
  destruct (1.0e21 <=? abs x)%float; reflexivity.
Qed.

Lemma detectAnomalies_run (st : Store) :
  let s := session_object st in
  let p := patient_object st in
  detectAnomalies st =
  Normal ({| hasAnomalies := (0 <? List.length (checks s p))%nat;
             anomalies := checks s p |},
          {| session_object := s;
             patient_object := p;
             divisions := (divisions st ++ weight_divisions s p
                           ++ duration_divisions s)%list |}).
Proof.
  destruct st as [s p log]. cbv zeta.
  unfold detectAnomalies, bind, read, ret, divide, lift, member, push, checks,
    weight_check, weight_active, bp_check, duration_check,
    weight_divisions, duration_divisions.
  cbn [session_object patient_object divisions MAX_WEIGHT_GAIN_PERCENT
       HIGH_SYSTOLIC_BP MIN_SESSION_DURATION MAX_SESSION_DURATION
       ANOMALY_THRESHOLDS].
  fold (weight_gain s p). fold (weight_gain_percent s p).
  destruct (ToBoolean (preWeight s)), (ToBoolean (dryWeight p));
    cbn [andb]; cbv beta;
    try (destruct (0.05 <? weight_gain_percent s p)%float; cbv beta;
         rewrite ?toFixed_fixed by lia);
    (destruct (post (vitals s)) as [v | ];
     cbn [option_map ToBoolean_opt ret throw session_object patient_object divisions];
     [ destruct (ToBoolean (systolicBP v)); cbn [andb]; cbv beta;
       try destruct (140 <? systolicBP v)%float | ]);
    (destruct (endTime s) as [e | ];
     [ fold (elapsed_ms s e); fold (duration_minutes s e);
       destruct (duration_minutes s e <? 150)%float;
       [ | destruct (300 <? duration_minutes s e)%float ] | ]);
    cbn [session_object patient_object divisions app];
    rewrite <- ?app_assoc; cbn [app]; rewrite ?app_nil_r; reflexivity.
Qed.

(** ** Primitive floats through their specification *)

Import Binary64.

Lemma Prim2SF_threshold_weight :
  Prim2SF 0.05 = S754_finite false 7205759403792794 (-57).
Proof. reflexivity. Qed.

Lemma Prim2SF_minute : Prim2SF (1000 * 60) = S754_finite false 8246337208320000 (-37).
Proof. reflexivity. Qed.

Lemma Prim2SF_150 : Prim2SF 150 = S754_finite false 5277655813324800 (-45).
Proof. reflexivity. Qed.

Lemma Prim2SF_300 : Prim2SF 300 = S754_finite false 5277655813324800 (-44).
Proof. reflexivity. Qed.

Lemma Prim2SF_zero : Prim2SF 0 = S754_zero false.
Proof. reflexivity. Qed.

Lemma SFeqb_refl_finite s m e : SFeqb (S754_finite s m e) (S754_finite s m e) = true.
Proof.
  unfold SFeqb, SFcompare. rewrite Z.compare_refl, Pos.compare_cont_refl.
  destruct s; reflexivity.
Qed.

Lemma ToBoolean_spec (x : number) :
  ToBoolean x = match Prim2SF x with
                | S754_zero _ | S754_nan => false
                | _ => true
                end.
Proof.
  unfold ToBoolean, is_zero, is_nan. rewrite !eqb_spec.
  change (Prim2SF zero) with (S754_zero false).
  destruct (Prim2SF x) as [s | s | | s m e]; try reflexivity.
  - destruct s; reflexivity.
  - rewrite SFeqb_refl_finite. destruct s; reflexivity.
Qed.

Lemma positive_spec (x : number) :
  (0 <? x)%float = true -> positive_number (Prim2SF x).
Proof.
  rewrite ltb_spec, Prim2SF_zero.
  destruct (Prim2SF x) as [s | s | | s m e]; try destruct s; simpl; auto; discriminate.
Qed.

Lemma positive_truthy (x : number) :
  (0 <? x)%float = true -> ToBoolean x = true.
Proof.
  intros H. apply positive_spec in H. rewrite ToBoolean_spec.
  destruct (Prim2SF x); simpl in *; tauto.
Qed.

Lemma not_negative_truthy_positive (x : number) :
  (x <? 0)%float = false -> ToBoolean x = true -> positive_number (Prim2SF x).
Proof.
  rewrite ltb_spec, Prim2SF_zero, ToBoolean_spec.
  destruct (Prim2SF x) as [s | s | | s m e]; try destruct s; simpl; auto; discriminate.
Qed.

(** A falsy [preWeight] never exceeds the threshold over a positive
    [dryWeight]: the skipped check would not have fired. *)
Lemma falsy_gain_below (x d : number) :
  ToBoolean x = false -> (0 <? d)%float = true ->
  (0.05 <? (x - d) / d)%float = false.
Proof.
  intros Hx Hd. apply positive_spec in Hd.
  rewrite ltb_spec, div_spec, sub_spec, Prim2SF_threshold_weight.
  rewrite ToBoolean_spec in Hx.
  apply SFltb_not_positive, SFdiv_not_positive; [ | exact Hd ].
  destruct (Prim2SF x) as [s | s | | s m e]; try discriminate;
    destruct (Prim2SF d) as [sd | sd | | sd md ed]; try destruct sd; simpl in *;
    try destruct s; simpl; tauto.
Qed.

(** A gain that is not positive stays under the threshold. *)
Lemma no_gain_below (x d : number) :
  (x <=? d)%float = true -> (d <? 0)%float = false -> ToBoolean d = true ->
  (0.05 <? (x - d) / d)%float = false.
Proof.
  intros Hle Hd Ht. pose proof (not_negative_truthy_positive d Hd Ht) as Hp.
  rewrite ltb_spec, div_spec, sub_spec, Prim2SF_threshold_weight.
  rewrite leb_spec in Hle.
  apply SFltb_not_positive, SFdiv_not_positive; [ | exact Hp ].
  apply SFsub_not_positive; [ apply Prim2SF_valid | apply Prim2SF_valid | exact Hle ].
Qed.

(** ** What a call returns *)

Lemma evaluate_checks (s : ISession) (p : DryWeightRef) :
  evaluate s p = Normal {| hasAnomalies := (0 <? List.length (checks s p))%nat;
                           anomalies := checks s p |}.
Proof.
  unfold evaluate. rewrite detectAnomalies_run. reflexivity.
Qed.

Lemma emits_checks (s : ISession) (p : DryWeightRef) (a : string) :
  emits s p a <-> In a (checks s p).
Proof.
  unfold emits. rewrite evaluate_checks. split.
  - intros (r & E & H). injection E as <-. exact H.
  - intros H. eexists. split; [ reflexivity | exact H ].
Qed.

Lemma weight_message_kind g c :
  is_weight_gain_anomaly (weight_message g c) = true
  /\ is_bp_anomaly (weight_message g c) = false
  /\ is_duration_anomaly (weight_message g c) = false.
Proof. repeat split. Qed.

Lemma bp_message_kind x :
  is_weight_gain_anomaly (bp_message x) = false
  /\ is_bp_anomaly (bp_message x) = true
  /\ is_duration_anomaly (bp_message x) = false.
Proof. repeat split. Qed.

Lemma short_message_kind x :
  is_weight_gain_anomaly (short_message x) = false
  /\ is_bp_anomaly (short_message x) = false
  /\ is_short_anomaly (short_message x) = true
  /\ is_long_anomaly (short_message x) = false.
Proof. repeat split. Qed.

Lemma long_message_kind x :
  is_weight_gain_anomaly (long_message x) = false
  /\ is_bp_anomaly (long_message x) = false
  /\ is_short_anomaly (long_message x) = false
  /\ is_long_anomaly (long_message x) = true.
Proof. repeat split. Qed.

Lemma in_weight_check s p a :
  In a (weight_check s p) <->
  weight_active s p = true /\ a = weight_message (weight_gain s p) (weight_gain_percent s p).
Proof.
  unfold weight_check. destruct (weight_active s p); simpl; split;
    intros H; try tauto; try (destruct H; discriminate).
  - destruct H as [<- | []]. auto.
  - left. symmetry. tauto.
Qed.

Lemma in_bp_check s a :
  In a (bp_check s) <->
  exists v, post (vitals s) = Some v /\ ToBoolean (systolicBP v) = true
            /\ (140 <? systolicBP v)%float = true /\ a = bp_message (systolicBP v).
Proof.
  unfold bp_check. destruct (post (vitals s)) as [v | ].
  - destruct (ToBoolean (systolicBP v)) eqn:T, (140 <? systolicBP v)%float eqn:L;
      simpl; split; intros H; try tauto;
      try (destruct H as (v' & E & T' & L' & _); injection E as <-; congruence).
    + destruct H as [<- | []]. exists v. auto.
    + destruct H as (v' & E & _ & _ & ->). injection E as <-. now left.
  - simpl. split; [ tauto | ]. intros (v & E & _). discriminate.
Qed.

Lemma in_duration_check s a :
  In a (duration_check s) <->
  exists e, endTime s = Some e /\
    (((duration_minutes s e <? 150)%float = true /\ a = short_message (duration_minutes s e))
     \/ ((duration_minutes s e <? 150)%float = false
         /\ (300 <? duration_minutes s e)%float = true
         /\ a = long_message (duration_minutes s e))).
Proof.
  unfold duration_check. destruct (endTime s) as [e | ].
  - destruct (duration_minutes s e <? 150)%float eqn:S;
      [ | destruct (300 <? duration_minutes s e)%float eqn:L ];
      simpl; split; intros H; try tauto.
    + destruct H as [<- | []]. exists e. split; [ reflexivity | ]. left. now rewrite S.
    + destruct H as (e' & E & [(_ & ->) | (F & _)]); injection E as <-;
        [ now left | congruence ].
    + destruct H as [<- | []]. exists e. split; [ reflexivity | ]. right. now rewrite S, L.
    + destruct H as (e' & E & [(F & _) | (_ & _ & ->)]); injection E as <-;
        [ congruence | now left ].
    + destruct H as (e' & E & [(F & _) | (_ & F & _)]); injection E as <-; congruence.
  - simpl. split; [ tauto | ]. intros (e & E & _). discriminate.
Qed.

Lemma in_checks s p a :
  In a (checks s p) <-> In a (weight_check s p) \/ In a (bp_check s) \/ In a (duration_check s).
Proof. unfold checks. rewrite !in_app_iff. tauto. Qed.

(** An emitted string of a given kind comes from the check of that kind. *)
Lemma emitted_weight s p a :
  (emits s p a /\ is_weight_gain_anomaly a = true) <-> In a (weight_check s p).
Proof.
  rewrite emits_checks, in_checks, in_bp_check, in_duration_check. split.
  - intros ([H | [(v & _ & _ & _ & ->) | (e & _ & [(_ & ->) | (_ & _ & ->)])]] & K);
      try exact H; discriminate K.
  - intros H. split; [ now left | ]. apply in_weight_check in H as (_ & ->). reflexivity.
Qed.

Lemma emitted_bp s p a :
  (emits s p a /\ is_bp_anomaly a = true) <-> In a (bp_check s).
Proof.
  rewrite emits_checks, in_checks, in_weight_check, in_duration_check. split.
  - intros ([(_ & ->) | [H | (e & _ & [(_ & ->) | (_ & _ & ->)])]] & K);
      try exact H; discriminate K.
  - intros H. split; [ tauto | ]. apply in_bp_check in H as (v & _ & _ & _ & ->). reflexivity.
Qed.

Lemma emitted_duration s p a :
  (emits s p a /\ is_duration_anomaly a = true) <-> In a (duration_check s).
Proof.
  rewrite emits_checks, in_checks, in_weight_check, in_bp_check. split.
  - intros ([(_ & ->) | [(v & _ & _ & _ & ->) | H]] & K);
      try exact H; discriminate K.
  - intros H. split; [ tauto | ].
    apply in_duration_check in H as (e & _ & [(_ & ->) | (_ & _ & ->)]); reflexivity.
Qed.

(** ** Dates and durations *)

Lemma SFcompare_antisym x y :
  SFcompare y x = option_map CompOpp (SFcompare x y).
Proof.
  destruct x as [sx | sx | | sx mx ex], y as [sy | sy | | sy my ey];
    try reflexivity; try (destruct sx; reflexivity); try (destruct sy; reflexivity);
    try (destruct sx, sy; reflexivity).
  cbn [SFcompare option_map]. f_equal.
  rewrite (Z.compare_antisym ex ey).
  pose proof (Pos.compare_cont_antisym mx my Eq) as A. cbn [CompOpp] in A.
  rewrite <- A.
  destruct sx, sy; try reflexivity; destruct (ex ?= ey); cbn [CompOpp];
    try reflexivity; destruct (Pos.compare_cont Eq mx my); reflexivity.
Qed.

Lemma SFltb_false_leb x y :
  x <> S754_nan -> y <> S754_nan ->
  (SFltb x y = false <-> SFleb y x = true).
Proof.
  intros Hx Hy. unfold SFltb, SFleb. rewrite (SFcompare_antisym x y).
  destruct (SFcompare x y) as [[] | ] eqn:E; cbn [option_map CompOpp];
    try (split; (reflexivity || discriminate)).
  exfalso. destruct x, y; try discriminate E; congruence.
Qed.

Lemma above_300_not_below_150 x :
  SFltb (S754_finite false 5277655813324800 (-44)) x = true ->
  SFltb x (S754_finite false 5277655813324800 (-45)) = false.
Proof.
  unfold SFltb, SFcompare.
  destruct x as [sx | sx | | sx mx ex]; try destruct sx; try reflexivity;
    try discriminate.
  destruct (Z.compare_spec (-44) ex), (Z.compare_spec ex (-45));
    try lia; try reflexivity; discriminate.
Qed.

Lemma sizeable_not_nan s k x : sizeable s k x -> x <> S754_nan.
Proof. intros [-> | (m & e & -> & _)]; discriminate. Qed.

Lemma sizeable_negative k x :
  sizeable true k x ->
  SFltb x (S754_zero false) = true
  /\ forall m e, SFltb x (S754_finite false m e) = true.
Proof. intros [-> | (m & e & -> & _)]; split; reflexivity. Qed.

Lemma getTime_invalid : Prim2SF (getTime InvalidDate) = S754_nan.
Proof. reflexivity. Qed.

Lemma Z2number_represents (z : Z) :
  Z.abs z < 2 ^ 53 -> represents z (Prim2SF (Z2number z)).
Proof.
  intros Hz. unfold Z2number.
  assert (W : forall n, 0 <= n < 2 ^ 53 -> Uint63.to_Z (of_Z n) = n).
  { intros n Hn. rewrite of_Z_spec. apply Z.mod_small.
    change wB with (2 ^ 63). assert (2 ^ 53 < 2 ^ 63) by reflexivity. lia. }
  destruct (Z.ltb_spec z 0).
  - rewrite opp_spec, of_uint63_spec.
    change (Uint63Axioms.to_Z (of_Z (- z))) with (Uint63.to_Z (of_Z (- z))).
    rewrite W by lia.
    replace z with (- - z) at 1 by lia.
    apply represents_opp, binary_normalize_represents. lia.
  - rewrite of_uint63_spec.
    change (Uint63Axioms.to_Z (of_Z z)) with (Uint63.to_Z (of_Z z)).
    rewrite W by lia.
    apply binary_normalize_represents. lia.
Qed.

Lemma getTime_represents (tv : Z) (ok : in_time_range tv = true) :
  represents tv (Prim2SF (getTime (TimeValue tv ok))).
Proof.
  apply Z2number_represents. unfold in_time_range in ok. apply Z.leb_le in ok.
  assert (8640000000000000 < 2 ^ 53) by reflexivity. lia.
Qed.

(** [a < b] on Dates, as JavaScript compares them (by time value), holds
    only between valid dates, and then as integers. *)
Lemma date_before (a b : Date) :
  (getTime a <? getTime b)%float = true ->
  exists ta oka tb okb,
    a = TimeValue ta oka /\ b = TimeValue tb okb /\ ta < tb.
Proof.
  rewrite ltb_spec.
  destruct a as [ | ta oka], b as [ | tb okb].
  - rewrite getTime_invalid. discriminate.
  - rewrite getTime_invalid. discriminate.
  - rewrite getTime_invalid. unfold SFltb.
    destruct (Prim2SF (getTime (TimeValue ta oka))); discriminate.
  - unfold SFltb.
    rewrite (represents_compare ta tb) by apply getTime_represents.
    destruct (Z.compare_spec ta tb); try discriminate.
    intros _. exists ta, oka, tb, okb. auto.
Qed.

(** Between two distinct valid dates the duration in minutes is a non-zero
    number with the sign of the difference, of the magnitude of the
    difference over that of 60000. *)
Lemma duration_sizeable (s : ISession) ta oka tb okb :
  startTime s = TimeValue ta oka -> ta <> tb ->
  sizeable (tb - ta <? 0) (Zdigits2 (Z.abs (tb - ta)) - 16)
    (Prim2SF (duration_minutes s (TimeValue tb okb))).
Proof.
  intros Hs Hne. unfold duration_minutes, elapsed_ms.
  rewrite div_spec, sub_spec, Prim2SF_minute, Hs. unfold SF64div, SF64sub.
  pose proof (SFsub_integers tb ta _ _ (getTime_represents tb okb)
                (getTime_represents ta oka) ltac:(lia)) as H.
  assert (D : 1 <= Zdigits2 (Z.abs (tb - ta))).
  { rewrite Zdigits2_log2 by lia. pose proof (Z.log2_nonneg (Z.abs (tb - ta))). lia. }
  destruct H as [-> | (m & e & -> & M)].
  - left. cbn [SFdiv]. now rewrite xorb_false_r.
  - pose proof (SFdiv_sizeable (tb - ta <? 0) m e false 8246337208320000 (-37)) as Q.
    change (magnitude (Zpos 8246337208320000) (-37)) with 16 in Q.
    change (SpecFloat.emin prec emax) with (-1074) in Q. change prec with 53 in Q.
    rewrite xorb_false_r in Q.
    eapply sizeable_weaken; [ | apply Q ]; lia.
Qed.

(** In exact arithmetic: the duration is under 150 minutes exactly when the
    two time values are less than 9000000 ms apart, and over 300 minutes
    exactly when they are more than 18000000 ms apart. *)
Lemma minutes_exact (s : ISession) ts oks te oke :
  startTime s = TimeValue ts oks ->
  ((duration_minutes s (TimeValue te oke) <? 150)%float = true <-> te - ts < 9000000)
  /\ ((300 <? duration_minutes s (TimeValue te oke))%float = true <-> 18000000 < te - ts).
Proof.
  intros Hs.
  pose proof (Prim2SF_valid (duration_minutes s (TimeValue te oke))) as V.
  rewrite !ltb_spec, Prim2SF_150, Prim2SF_300.
  fold limit_150. fold limit_300.
  assert (B : Z.abs (te - ts) < 2 ^ 54).
  { pose proof oks as A1. pose proof oke as A2. unfold in_time_range in A1, A2.
    apply Z.leb_le in A1, A2.
    assert (2 * 8640000000000000 < 2 ^ 54) by reflexivity. lia. }
  destruct (Z.lt_trichotomy (te - ts) 0) as [Neg | [Zero | Pos]].
  - (* endTime before startTime *)
    pose proof (duration_sizeable s ts oks te oke Hs ltac:(lia)) as Z.
    replace (te - ts <? 0) with true in Z by (symmetry; apply Z.ltb_lt; lia).
    destruct (sizeable_negative _ _ Z) as (_ & N). unfold limit_150. rewrite N.
    replace (SFltb limit_300 _) with false; [ split; split; (lia || discriminate || auto) | ].
    symmetry. apply SFltb_not_positive.
    destruct Z as [-> | (m & e & -> & _)]; exact I.
  - (* the same instant *)
    assert (te = ts) by lia. subst te.
    unfold duration_minutes, elapsed_ms. rewrite div_spec, sub_spec, Prim2SF_minute, Hs.
    unfold SF64div, SF64sub.
    destruct (SFsub_equal ts _ _ (getTime_represents ts oke) (getTime_represents ts oks))
      as (z & ->).
    cbn [SFdiv]. split; split; (lia || discriminate || reflexivity).
  - destruct (Z.lt_ge_cases (te - ts) (2 ^ 53)) as [Small | Large].
    + (* the difference is computed exactly *)
      unfold duration_minutes, elapsed_ms in *.
      rewrite div_spec, sub_spec, Prim2SF_minute, Hs in *. fold sixty_thousand in *.
      unfold SF64div, SF64sub in *.
      pose proof (SFsub_integers_exact te ts _ _ (getTime_represents te oke)
                    (getTime_represents ts oks) ltac:(lia) ltac:(lia)) as R.
      set (g := SFsub prec emax (Prim2SF (getTime (TimeValue te oke)))
                  (Prim2SF (getTime (TimeValue ts oks)))) in *.
      destruct (minutes_thresholds (te - ts) g ltac:(lia) R V) as (T1 & T2 & T3 & T4).
      destruct (minutes_at_limits g) as (L1 & L2).
      split; split; intros H.
      * destruct (Z.lt_trichotomy (te - ts) 9000000) as [A | [A | A]]; [ exact A | | ].
        -- rewrite A in R. rewrite (L1 R) in H. discriminate H.
        -- rewrite (T2 A) in H. discriminate H.
      * auto.
      * destruct (Z.lt_trichotomy 18000000 (te - ts)) as [A | [A | A]]; [ exact A | | ].
        -- rewrite <- A in R. rewrite (L2 R) in H. discriminate H.
        -- rewrite (T4 A) in H. discriminate H.
      * auto.
    + (* both far apart: the quotient is huge *)
      pose proof (duration_sizeable s ts oks te oke Hs ltac:(lia)) as Z.
      replace (te - ts <? 0) with false in Z by (symmetry; apply Z.ltb_ge; lia).
      assert (54 <= Zdigits2 (Z.abs (te - ts))).
      { rewrite Zdigits2_log2 by lia.
        assert (53 <= Z.log2 (Z.abs (te - ts))) by (apply Z.log2_le_pow2; lia). lia. }
      destruct (sizeable_above_limits (Zdigits2 (Z.abs (te - ts)) - 16) _
                  ltac:(lia) V Z) as (A1 & A2).
      rewrite A1, A2.
      assert (2 ^ 53 > 18000000) by reflexivity.
      split; split; (lia || discriminate || auto).
Qed.

(** ** The evaluator on the fixtures of the tests and of the seed script *)

Example test_excess_weight_gain :
  evaluate (mockSession 75 None None) mockPatient
  = Normal {| hasAnomalies := true;
              anomalies :=
                ["Excess interdialytic weight gain: 5.00 kg (7.1% of dry weight)"] |}.
Proof. vm_compute. reflexivity. Qed.

Example test_normal_weight_gain :
  evaluate (mockSession 72 None None) mockPatient
  = Normal {| hasAnomalies := false; anomalies := [] |}.
Proof. vm_compute. reflexivity. Qed.

Example test_high_bp :
  evaluate (mockSession 72 (Some (bp 145 90)) None) mockPatient
  = Normal {| hasAnomalies := true;
              anomalies :=
                ["High post-dialysis systolic BP: 145 mmHg (threshold: 140 mmHg)"] |}.
Proof. vm_compute. reflexivity. Qed.

Example test_short_session :
  evaluate (mockSession 72 None (Some (date (t_0800 + hours 2)))) mockPatient
  = Normal {| hasAnomalies := true;
              anomalies :=
                ["Short session duration: 120 minutes (minimum: 150 minutes)"] |}.
Proof. vm_compute. reflexivity. Qed.

Example test_long_session :
  evaluate (mockSession 72 None (Some (date (t_0800 + hours 6)))) mockPatient
  = Normal {| hasAnomalies := true;
              anomalies :=
                ["Long session duration: 360 minutes (maximum: 300 minutes)"] |}.
Proof. vm_compute. reflexivity. Qed.

Example test_multiple_anomalies :
  evaluate (mockSession 75 (Some (bp 145 90)) (Some (date (t_0800 + hours 2))))
    mockPatient
  = Normal {| hasAnomalies := true;
              anomalies :=
                ["Excess interdialytic weight gain: 5.00 kg (7.1% of dry weight)";
                 "High post-dialysis systolic BP: 145 mmHg (threshold: 140 mmHg)";
                 "Short session duration: 120 minutes (minimum: 150 minutes)"] |}.
Proof. vm_compute. reflexivity. Qed.

Example seed_sessions :
  evaluate seed_P001 {| dryWeight := 70.0 |}
  = Normal {| hasAnomalies := false; anomalies := [] |}
  /\ evaluate seed_P002 {| dryWeight := 65.5 |}
     = Normal {| hasAnomalies := true;
                 anomalies :=
                   ["Excess interdialytic weight gain: 4.50 kg (6.9% of dry weight)"] |}
  /\ evaluate seed_P003 {| dryWeight := 80.0 |}
     = Normal {| hasAnomalies := true;
                 anomalies :=
                   ["High post-dialysis systolic BP: 145 mmHg (threshold: 140 mmHg)"] |}
  /\ evaluate seed_P004 {| dryWeight := 58.0 |}
     = Normal {| hasAnomalies := true;
                 anomalies :=
                   ["Short session duration: -270 minutes (minimum: 150 minutes)"] |}.
Proof. vm_compute. repeat split. Qed.

(** * Properties of the evaluator *)

Lemma weight_active_positive_dry (s : ISession) (p : DryWeightRef) :
  (0 <? dryWeight p)%float = true ->
  weight_active s p = (0.05 <? (preWeight s - dryWeight p) / dryWeight p)%float.
Proof.
  intros Hd. unfold weight_active, weight_gain_percent, weight_gain.
  rewrite (positive_truthy _ Hd), andb_true_r.
  destruct (ToBoolean (preWeight s)) eqn:T; [ reflexivity | ].
  now rewrite (falsy_gain_below _ _ T Hd).
Qed.

(** C1. With a positive dry weight, the excess-weight-gain anomaly is
    emitted exactly when [(preWeight - dryWeight) / dryWeight > 0.05]; the
    emitted string is the label followed by the gain with two decimals and
    the percentage with one; 75 kg over a dry weight of 70 kg gives
    "5.00 kg (7.1% of dry weight)". *)
Theorem excess_weight_gain_iff (s : ISession) (p : DryWeightRef) :
  (0 <? dryWeight p)%float = true ->
  ((exists a, emits s p a /\ is_weight_gain_anomaly a = true) <->
   (0.05 <? (preWeight s - dryWeight p) / dryWeight p)%float = true)
  /\ (forall a, emits s p a -> is_weight_gain_anomaly a = true ->
      exists gain percent,
        toFixed (preWeight s - dryWeight p)%float 2 = Normal gain
        /\ toFixed ((preWeight s - dryWeight p) / dryWeight p * 100)%float 1
           = Normal percent
        /\ a = "Excess interdialytic weight gain: " ++ gain ++ " kg ("
               ++ percent ++ "% of dry weight)")
  /\ (preWeight s = 75%float -> dryWeight p = 70%float ->
      emits s p "Excess interdialytic weight gain: 5.00 kg (7.1% of dry weight)").
Proof.
  intros Hd. pose proof (weight_active_positive_dry s p Hd) as A.
  split; [ | split ].
  - rewrite <- A. split.
    + intros (a & H). apply emitted_weight, in_weight_check in H. tauto.
    + intros H. eexists. apply emitted_weight, in_weight_check. split; [ exact H | reflexivity ].
  - intros a E K.
    pose proof (proj1 (emitted_weight s p a) (conj E K)) as H.
    apply in_weight_check in H as (_ & ->).
    exists (fixed (preWeight s - dryWeight p) 2),
           (fixed ((preWeight s - dryWeight p) / dryWeight p * 100) 1).
    rewrite !toFixed_fixed by lia. repeat split.
  - intros Hs Hp.
    apply (proj2 (emitted_weight s p _)), in_weight_check.
    unfold weight_active, weight_gain_percent, weight_gain. rewrite Hs, Hp.
    split; vm_compute; reflexivity.
Qed.

Lemma excess_weight_gain_iff_witness :
  ((exists a, emits (mockSession 75 None None) mockPatient a
              /\ is_weight_gain_anomaly a = true) <->
   (0.05 <? (75 - 70) / 70)%float = true)
  /\ emits (mockSession 75 None None) mockPatient
       "Excess interdialytic weight gain: 5.00 kg (7.1% of dry weight)".
Proof.
  destruct (excess_weight_gain_iff (mockSession 75 None None) mockPatient)
    as (H1 & _ & H3).
  - reflexivity.
  - split; [ exact H1 | apply H3; reflexivity ].
Defined.

Lemma bp_message_text (x : number) :
  bp_message x = "High post-dialysis systolic BP: " ++ Number_toString x
                 ++ " mmHg (threshold: 140 mmHg)".
Proof.
  unfold bp_message.
  replace (Number_toString 140) with "140" by (vm_compute; reflexivity).
  reflexivity.
Qed.

(** C3. The high post-dialysis systolic BP anomaly is emitted exactly when
    [vitals.post] is present with a truthy [systolicBP] above 140; without
    [vitals.post] it is never emitted; the emitted string is the label, the
    reading and the 140 mmHg threshold. *)
Theorem high_systolic_bp_iff (s : ISession) (p : DryWeightRef) :
  ((exists a, emits s p a /\ is_bp_anomaly a = true) <->
   (exists v, post (vitals s) = Some v /\ ToBoolean (systolicBP v) = true
              /\ (140 <? systolicBP v)%float = true))
  /\ (post (vitals s) = None -> forall a, emits s p a -> is_bp_anomaly a = false)
  /\ (forall a, emits s p a -> is_bp_anomaly a = true ->
      exists v, post (vitals s) = Some v
                /\ a = "High post-dialysis systolic BP: "
                       ++ Number_toString (systolicBP v)
                       ++ " mmHg (threshold: 140 mmHg)").
Proof.
  split; [ | split ].
  - split.
    + intros (a & H). apply emitted_bp, in_bp_check in H as (v & E & T & L & _).
      exists v. auto.
    + intros (v & E & T & L). exists (bp_message (systolicBP v)).
      apply emitted_bp, in_bp_check. exists v. auto.
  - intros N a E. destruct (is_bp_anomaly a) eqn:K; [ exfalso | reflexivity ].
    pose proof (proj1 (emitted_bp s p a) (conj E K)) as H.
    apply in_bp_check in H as (v & F & _). congruence.
  - intros a E K. pose proof (proj1 (emitted_bp s p a) (conj E K)) as H.
    apply in_bp_check in H as (v & F & _ & _ & ->).
    exists v. split; [ exact F | apply bp_message_text ].
Qed.

Lemma weight_check_length s p : (List.length (weight_check s p) <= 1)%nat.
Proof. unfold weight_check. destruct (weight_active s p); simpl; lia. Qed.

Lemma bp_check_length s : (List.length (bp_check s) <= 1)%nat.
Proof.
  unfold bp_check. destruct (post (vitals s)) as [v | ]; [ | simpl; lia ].
  destruct (ToBoolean (systolicBP v) && (140 <? systolicBP v)%float); simpl; lia.
Qed.

Lemma duration_check_length s : (List.length (duration_check s) <= 1)%nat.
Proof.
  unfold duration_check. destruct (endTime s) as [e | ]; [ | simpl; lia ].
  destruct (duration_minutes s e <? 150)%float; [ simpl; lia | ].
  destruct (300 <? duration_minutes s e)%float; simpl; lia.
Qed.

(** C4. The returned list is what the weight-gain check contributes, then
    the BP check, then the duration check; each contributes at most one
    string of its own kind, so there are at most three; when the three
    triggers are active together the list is exactly one string of each
    kind, in that order. *)
Theorem anomalies_fixed_order (s : ISession) (p : DryWeightRef) :
  exists r w b d,
    evaluate s p = Normal r
    /\ anomalies r = (w ++ b ++ d)%list
    /\ (List.length w <= 1)%nat /\ (List.length b <= 1)%nat
    /\ (List.length d <= 1)%nat
    /\ (List.length (anomalies r) <= 3)%nat
    /\ Forall (fun a => is_weight_gain_anomaly a = true) w
    /\ Forall (fun a => is_bp_anomaly a = true) b
    /\ Forall (fun a => is_duration_anomaly a = true) d
    /\ ((ToBoolean (preWeight s) && ToBoolean (dryWeight p)
         && (0.05 <? (preWeight s - dryWeight p) / dryWeight p)%float = true) ->
        (exists v, post (vitals s) = Some v /\ ToBoolean (systolicBP v) = true
                   /\ (140 <? systolicBP v)%float = true) ->
        (exists e, endTime s = Some e /\
           let minutes := ((getTime e - getTime (startTime s)) / (1000 * 60))%float in
           ((minutes <? 150)%float || (300 <? minutes)%float) = true) ->
        exists a1 a2 a3,
          anomalies r = [a1; a2; a3]
          /\ is_weight_gain_anomaly a1 = true
          /\ is_bp_anomaly a2 = true
          /\ is_duration_anomaly a3 = true).
Proof.
  exists {| hasAnomalies := (0 <? List.length (checks s p))%nat;
            anomalies := checks s p |},
         (weight_check s p), (bp_check s), (duration_check s).
  pose proof (weight_check_length s p). pose proof (bp_check_length s).
  pose proof (duration_check_length s).
  split; [ apply evaluate_checks | ].
  split; [ reflexivity | ].
  repeat (split; [ assumption | ]).
  split; [ cbn [anomalies]; unfold checks; rewrite !length_app; lia | ].
  split; [ apply Forall_forall; intros a Ha; now apply emitted_weight in Ha | ].
  split; [ apply Forall_forall; intros a Ha; now apply (emitted_bp s p) in Ha | ].
  split; [ apply Forall_forall; intros a Ha; now apply (emitted_duration s p) in Ha | ].
  intros W (v & Ev & Tv & Lv) (e & Ee & De).
  cbn [anomalies]. unfold checks, weight_check, bp_check, duration_check.
  fold (weight_gain s p) in W. fold (weight_gain_percent s p) in W.
  fold (weight_active s p) in W.
  fold (elapsed_ms s e) in De. fold (duration_minutes s e) in De. cbv zeta in De.
  rewrite W, Ev, Tv, Lv, Ee. cbn [andb app].
  destruct (duration_minutes s e <? 150)%float; [ | cbn [orb] in De; rewrite De ];
    do 3 eexists; (split; [ reflexivity | repeat split ]).
Qed.

(** C5. The evaluator never throws: whatever the store holds (any optional
    field present or absent, any number in the present ones) the call
    completes normally.  Every division it executes has a divisor that is
    neither zero nor [NaN]; with a falsy [preWeight] or [dryWeight] the
    weight-gain block is skipped: no weight-gain anomaly, and no division
    but that of the duration check, by 60000. *)
Theorem detectAnomalies_total (st : Store) :
  exists r st' log,
    detectAnomalies st = Normal (r, st')
    /\ divisions st' = (divisions st ++ log)%list
    /\ Forall (fun nd => ToBoolean (snd nd) = true) log
    /\ (ToBoolean (preWeight (session_object st)) = false
        \/ ToBoolean (dryWeight (patient_object st)) = false ->
        (forall a, In a (anomalies r) -> is_weight_gain_anomaly a = false)
        /\ log = match endTime (session_object st) with
                 | Some e =>
                     [((getTime e - getTime (startTime (session_object st)))%float,
                       (1000 * 60)%float)]
                 | None => []
                 end).
Proof.
  set (s := session_object st). set (p := patient_object st).
  do 2 eexists. exists (weight_divisions s p ++ duration_divisions s)%list.
  split; [ apply detectAnomalies_run | ].
  split; [ reflexivity | ].
  split.
  - apply Forall_app. split.
    + unfold weight_divisions.
      destruct (ToBoolean (preWeight s)), (ToBoolean (dryWeight p)) eqn:T;
        repeat constructor. exact T.
    + unfold duration_divisions. destruct (endTime s); repeat constructor.
  - intros F. split.
    + cbn [anomalies]. fold s p. intros a Ha.
      destruct (is_weight_gain_anomaly a) eqn:K; [ exfalso | reflexivity ].
      assert (E : emits s p a) by now apply emits_checks.
      pose proof (proj1 (emitted_weight s p a) (conj E K)) as H.
      apply in_weight_check in H as (A & _). unfold weight_active in A.
      destruct F as [F | F]; rewrite F in A;
        [ | rewrite andb_false_r in A ]; discriminate.
    + replace (weight_divisions s p) with (@nil (number * number)); [ reflexivity | ].
      unfold weight_divisions. destruct F as [F | F]; rewrite F;
        [ | rewrite andb_false_r ]; reflexivity.
Qed.

(** C6. The evaluator is deterministic and pure: a call leaves the session
    and the patient objects as they were, a second call on the resulting
    store returns the same result, and so does a call from any other store
    that holds the same two objects. *)
Theorem detectAnomalies_pure (st : Store) :
  exists r st1 st2,
    detectAnomalies st = Normal (r, st1)
    /\ detectAnomalies st1 = Normal (r, st2)
    /\ session_object st1 = session_object st
    /\ patient_object st1 = patient_object st
    /\ session_object st2 = session_object st
    /\ patient_object st2 = patient_object st
    /\ (forall st', session_object st' = session_object st ->
                    patient_object st' = patient_object st ->
                    exists st'', detectAnomalies st' = Normal (r, st'')
                                 /\ session_object st'' = session_object st
                                 /\ patient_object st'' = patient_object st).
Proof.
  do 3 eexists.
  split; [ apply detectAnomalies_run | ].
  split; [ rewrite detectAnomalies_run; reflexivity | ].
  repeat (split; [ reflexivity | ]).
  intros st' Hs Hp. eexists.
  split; [ rewrite detectAnomalies_run, Hs, Hp; reflexivity | ].
  split; reflexivity.
Qed.

(** C7. [hasAnomalies] is [anomalies.length > 0]: true exactly when at least
    one anomaly string was emitted. *)
Theorem hasAnomalies_length (st : Store) :
  exists r st',
    detectAnomalies st = Normal (r, st')
    /\ hasAnomalies r = (0 <? List.length (anomalies r))%nat
    /\ (hasAnomalies r = true <-> exists a, In a (anomalies r)).
Proof.
  do 2 eexists. split; [ apply detectAnomalies_run | ].
  split; [ reflexivity | ].
  cbn [hasAnomalies anomalies].
  destruct (checks (session_object st) (patient_object st)) as [ | a l]; simpl.
  - split; [ discriminate | intros (a & []) ].
  - split; [ intros _; exists a; now left | reflexivity ].
Qed.

(** C8, as stated, fails on a negative dry weight: -80 kg against a dry
    weight of -70 kg is a gain of -10 kg, which is 14.3% of the dry weight. *)
Lemma weight_loss_counterexample :
  let s := mockSession (-80) None None in
  let p := {| dryWeight := (-70) |} in
  (preWeight s <=? dryWeight p)%float = true
  /\ evaluate s p =
     Normal {| hasAnomalies := true;
               anomalies :=
                 ["Excess interdialytic weight gain: -10.00 kg (14.3% of dry weight)"] |}
  /\ is_weight_gain_anomaly
       "Excess interdialytic weight gain: -10.00 kg (14.3% of dry weight)" = true.
Proof. vm_compute. repeat split. Qed.

(** C8, amended. When the dry weight is not negative, a gain that is
    negative or zero ([preWeight <= dryWeight]) never triggers the
    excess-weight-gain anomaly. *)
Theorem no_anomaly_without_gain (s : ISession) (p : DryWeightRef) :
  (dryWeight p <? 0)%float = false ->
  (preWeight s <=? dryWeight p)%float = true ->
  forall a, emits s p a -> is_weight_gain_anomaly a = false.
Proof.
  intros Hd Hle a E.
  destruct (is_weight_gain_anomaly a) eqn:K; [ exfalso | reflexivity ].
  pose proof (proj1 (emitted_weight s p a) (conj E K)) as H.
  apply in_weight_check in H as (A & _).
  unfold weight_active, weight_gain_percent, weight_gain in A.
  destruct (ToBoolean (dryWeight p)) eqn:T;
    [ | rewrite andb_false_r in A; discriminate ].
  rewrite (no_gain_below _ _ Hle Hd T), andb_false_r in A. discriminate.
Qed.

Lemma no_anomaly_without_gain_witness :
  let s := mockSession 68 (Some (bp 145 90)) None in
  (dryWeight mockPatient <? 0)%float = false
  /\ (preWeight s <=? dryWeight mockPatient)%float = true
  /\ emits s mockPatient "High post-dialysis systolic BP: 145 mmHg (threshold: 140 mmHg)"
  /\ is_weight_gain_anomaly
       "High post-dialysis systolic BP: 145 mmHg (threshold: 140 mmHg)" = false.
Proof.
  cbv zeta.
  assert (E : emits (mockSession 68 (Some (bp 145 90)) None) mockPatient
                "High post-dialysis systolic BP: 145 mmHg (threshold: 140 mmHg)").
  { eexists. split; [ vm_compute; reflexivity | now left ]. }
  split; [ reflexivity | ]. split; [ reflexivity | ]. split; [ exact E | ].
  apply (no_anomaly_without_gain (mockSession 68 (Some (bp 145 90)) None) mockPatient);
    [ reflexivity | reflexivity | exact E ].
Defined.

Lemma emitted_short s p a :
  (emits s p a /\ is_short_anomaly a = true) <->
  exists e, endTime s = Some e /\ (duration_minutes s e <? 150)%float = true
            /\ a = short_message (duration_minutes s e).
Proof.
  split.
  - intros (E & K).
    assert (D : is_duration_anomaly a = true) by (unfold is_duration_anomaly; now rewrite K).
    pose proof (proj1 (emitted_duration s p a) (conj E D)) as H.
    apply in_duration_check in H as (e & Ee & [(S & ->) | (_ & _ & ->)]);
      [ exists e; auto | discriminate K ].
  - intros (e & Ee & S & ->). split; [ | reflexivity ].
    apply (proj2 (emitted_duration s p _)), in_duration_check.
    exists e. split; [ exact Ee | left; auto ].
Qed.

Lemma emitted_long s p a :
  (emits s p a /\ is_long_anomaly a = true) <->
  exists e, endTime s = Some e /\ (duration_minutes s e <? 150)%float = false
            /\ (300 <? duration_minutes s e)%float = true
            /\ a = long_message (duration_minutes s e).
Proof.
  split.
  - intros (E & K).
    assert (D : is_duration_anomaly a = true)
      by (unfold is_duration_anomaly; rewrite K; apply orb_true_r).
    pose proof (proj1 (emitted_duration s p a) (conj E D)) as H.
    apply in_duration_check in H as (e & Ee & [(_ & ->) | (S & L & ->)]);
      [ discriminate K | exists e; auto ].
  - intros (e & Ee & S & L & ->). split; [ | reflexivity ].
    apply (proj2 (emitted_duration s p _)), in_duration_check.
    exists e. split; [ exact Ee | right; auto ].
Qed.

Lemma long_excludes_short (x : number) :
  (300 <? x)%float = true -> (x <? 150)%float = false.
Proof.
  rewrite !ltb_spec, Prim2SF_150, Prim2SF_300. apply above_300_not_below_150.
Qed.

Lemma within_bounds (x : number) :
  Prim2SF x <> S754_nan ->
  ((x <? 150)%float = false /\ (300 <? x)%float = false <->
   ((150 <=? x)%float && (x <=? 300)%float) = true).
Proof.
  intros N. rewrite andb_true_iff, !ltb_spec, !leb_spec.
  rewrite (SFltb_false_leb (Prim2SF x) (Prim2SF 150)),
          (SFltb_false_leb (Prim2SF 300) (Prim2SF x));
    try assumption; try (rewrite ?Prim2SF_150, ?Prim2SF_300; discriminate).
  tauto.
Qed.

(** C2. When both times are present and [startTime < endTime], with
    [minutes = (endTime - startTime) / 60000] compared unrounded: the short
    anomaly is emitted exactly when [minutes < 150], the long one exactly
    when [minutes > 300], none exactly when [150 <= minutes <= 300], and
    never both.  The binary64 comparisons agree with the exact ones: with
    time values [ts] and [te], [minutes < 150] is [te - ts < 150 * 60000]
    and [minutes > 300] is [300 * 60000 < te - ts]. *)
Theorem duration_anomaly_iff (s : ISession) (p : DryWeightRef) (e : Date) :
  endTime s = Some e ->
  (getTime (startTime s) <? getTime e)%float = true ->
  let minutes := ((getTime e - getTime (startTime s)) / (1000 * 60))%float in
  ((exists a, emits s p a /\ is_short_anomaly a = true) <->
   (minutes <? 150)%float = true)
  /\ ((exists a, emits s p a /\ is_long_anomaly a = true) <->
      (300 <? minutes)%float = true)
  /\ ((forall a, emits s p a -> is_duration_anomaly a = false) <->
      ((150 <=? minutes)%float && (minutes <=? 300)%float) = true)
  /\ ~ ((exists a, emits s p a /\ is_short_anomaly a = true)
        /\ (exists a, emits s p a /\ is_long_anomaly a = true))
  /\ (forall ts oks te oke,
        startTime s = TimeValue ts oks -> e = TimeValue te oke ->
        ((minutes <? 150)%float = true <-> te - ts < 150 * 60000)
        /\ ((300 <? minutes)%float = true <-> 300 * 60000 < te - ts)).
Proof.
  intros Ee Hlt. cbv zeta.
  fold (elapsed_ms s e). fold (duration_minutes s e).
  assert (S : (exists a, emits s p a /\ is_short_anomaly a = true) <->
              (duration_minutes s e <? 150)%float = true).
  { split.
    - intros (a & H). apply emitted_short in H as (e' & Ee' & H & _). congruence.
    - intros H. eexists. apply emitted_short. exists e. eauto. }
  assert (L : (exists a, emits s p a /\ is_long_anomaly a = true) <->
              (300 <? duration_minutes s e)%float = true).
  { split.
    - intros (a & H). apply emitted_long in H as (e' & Ee' & _ & H & _). congruence.
    - intros H. eexists. apply emitted_long. exists e.
      split; [ exact Ee | ]. split; [ now apply long_excludes_short | eauto ]. }
  split; [ exact S | ]. split; [ exact L | ]. split.
  - destruct (date_before _ _ Hlt) as (ta & oka & tb & okb & Hs & -> & Hab).
    assert (N : Prim2SF (duration_minutes s (TimeValue tb okb)) <> S754_nan).
    { eapply sizeable_not_nan, duration_sizeable; [ exact Hs | lia ]. }
    rewrite <- (within_bounds _ N). split.
    + intros H.
      destruct (duration_minutes s (TimeValue tb okb) <? 150)%float eqn:B.
      { destruct (proj2 S eq_refl) as (a & E & K).
        specialize (H a E). unfold is_duration_anomaly in H. rewrite K in H. discriminate. }
      destruct (300 <? duration_minutes s (TimeValue tb okb))%float eqn:A.
      { destruct (proj2 L eq_refl) as (a & E & K).
        specialize (H a E). unfold is_duration_anomaly in H. rewrite K, orb_true_r in H.
        discriminate. }
      auto.
    + intros (B & A) a E.
      destruct (is_duration_anomaly a) eqn:K; [ exfalso | reflexivity ].
      unfold is_duration_anomaly in K. apply orb_true_iff in K as [K | K].
      * assert (H : exists a, emits s p a /\ is_short_anomaly a = true) by eauto.
        apply S in H. congruence.
      * assert (H : exists a, emits s p a /\ is_long_anomaly a = true) by eauto.
        apply L in H. congruence.
  - split.
    + intros (Hs & Hl). apply S in Hs. apply L in Hl.
      apply long_excludes_short in Hl. congruence.
    + intros ts oks te oke Hs ->. exact (minutes_exact s ts oks te oke Hs).
Qed.

Lemma duration_anomaly_iff_witness :
  let e := date (t_0800 + hours 2) in
  let s := mockSession 72 None (Some e) in
  (getTime (startTime s) <? getTime e)%float = true
  /\ ((exists a, emits s mockPatient a /\ is_short_anomaly a = true) <->
      ((getTime e - getTime (startTime s)) / (1000 * 60) <? 150)%float = true).
Proof.
  cbv zeta. split; [ reflexivity | ].
  apply (duration_anomaly_iff
           (mockSession 72 None (Some (date (t_0800 + hours 2)))) mockPatient
           (date (t_0800 + hours 2))); reflexivity.
Defined.

Lemma short_message_text (x : number) :
  short_message x = "Short session duration: " ++ Number_toString (Math_round x)
                    ++ " minutes (minimum: 150 minutes)".
Proof.
  unfold short_message.
  replace (Number_toString 150) with "150" by (vm_compute; reflexivity).
  reflexivity.
Qed.

Lemma prefix_minus (s : string) : prefix "-" ("-" ++ s) = true.
Proof. cbn [append prefix]. destruct (ascii_dec "-" "-"); [ now destruct s | congruence ]. Qed.

Lemma toString_negative (x : number) s k :
  sizeable true k (Prim2SF x) -> Number_toString x = s -> prefix "-" s = true.
Proof.
  unfold Number_toString. intros [-> | (m & e & -> & _)] <-; [ reflexivity | ].
  destruct (shortest_digits m e). apply prefix_minus.
Qed.

(** [Math.round] of a negative number [-(m * 2^e)]: displayed as ["0"] when
    the number is at least -1/2, and with a minus sign below that. *)
Lemma round_negative_cases (x : number) m e :
  Prim2SF x = S754_finite true m e ->
  (e < 0 /\ 2 * Zpos m <= 2 ^ (- e) -> Number_toString (Math_round x) = "0")
  /\ (0 <= e \/ 2 ^ (- e) < 2 * Zpos m ->
      prefix "-" (Number_toString (Math_round x)) = true).
Proof.
  intros E. pose proof (Prim2SF_valid x) as V. unfold Math_round.
  rewrite E in *.
  destruct (Z.leb_spec 0 e) as [He | He].
  - split; [ lia | intros _ ].
    apply (toString_negative x _ (magnitude (Zpos m) e)); [ | reflexivity ].
    rewrite E. right. exists m, e. split; [ reflexivity | lia ].
  - set (r := (2 * Zneg m + 2 ^ (- e)) / 2 ^ (1 - e)).
    cbn [valid_binary] in V. apply canonical_digits in V as (D & _).
    pose proof (digits_bounds m) as [_ U].
    change prec with 53 in D.
    assert (2 ^ Zpos (digits2_pos m) <= 2 ^ 53) by (apply Z.pow_le_mono_r; lia).
    assert (P : 0 < 2 ^ (- e)) by (apply Z.pow_pos_nonneg; lia).
    assert (Q : 2 ^ (1 - e) = 2 * 2 ^ (- e)).
    { replace (1 - e) with (Z.succ (- e)) by lia. apply Z.pow_succ_r. lia. }
    assert (R1 : r < 1) by (apply Z.div_lt_upper_bound; lia).
    assert (R2 : - Zpos m <= r).
    { apply Z.div_le_lower_bound; [ lia | ].
      assert (2 <= 2 ^ (- e)).
      { change 2 with (2 ^ 1) at 1. apply Z.pow_le_mono_r; lia. }
      nia. }
    split.
    + intros (_ & L).
      assert (R0 : r = 0).
      { assert (0 <= r) by (apply Z.div_le_lower_bound; lia). lia. }
      rewrite R0. vm_compute. reflexivity.
    + intros [L | L]; [ lia | ].
      assert (R0 : r < 0) by (apply Z.div_lt_upper_bound; lia).
      destruct (Z.eqb_spec r 0) as [R | _]; [ lia | ]. cbn [andb].
      pose proof (Z2number_represents r ltac:(lia)) as Hr.
      destruct (Prim2SF (Z2number r)) as [ | | | s' m' e'] eqn:Er;
        cbn [represents] in Hr; try tauto; try lia.
      destruct (represents_magnitude _ _ _ _ Hr) as (M' & _ & Hs).
      apply (toString_negative (Z2number r) _ 1); [ | reflexivity ].
      rewrite Er. right. exists m', e'. split; [ | exact M' ].
      rewrite Hs. f_equal. apply Z.ltb_lt. lia.
Qed.

Lemma round_negative_display (x : number) k :
  sizeable true k (Prim2SF x) ->
  Number_toString (Math_round x) = "0"
  \/ prefix "-" (Number_toString (Math_round x)) = true.
Proof.
  intros [E | (m & e & E & _)].
  - right. unfold Math_round. rewrite E.
    apply (toString_negative x _ k); [ rewrite E; now left | reflexivity ].
  - destruct (round_negative_cases x m e E) as (Z & N).
    destruct (Z.leb_spec 0 e); [ right; apply N; lia | ].
    destruct (Z.le_gt_cases (2 * Zpos m) (2 ^ (- e))); [ left; apply Z | right; apply N ]; lia.
Qed.

Lemma SFopp_involutive (x : spec_float) : SFopp (SFopp x) = x.
Proof. destruct x; cbn [SFopp]; now rewrite ?negb_involutive. Qed.

(** With [endTime] before [startTime], the displayed count is ["0"] up to
    half a minute (30000 ms) and carries a minus sign beyond it. *)
Lemma reversed_display (s : ISession) ts oks te oke :
  startTime s = TimeValue ts oks -> te < ts ->
  let shown := Number_toString (Math_round (duration_minutes s (TimeValue te oke))) in
  (ts - te <= 30000 -> shown = "0")
  /\ (30000 < ts - te -> prefix "-" shown = true).
Proof.
  intros Hs Hlt. cbv zeta.
  destruct (Z.lt_ge_cases (ts - te) (2 ^ 53)) as [Small | Large].
  - assert (E : exists m e,
               Prim2SF (duration_minutes s (TimeValue te oke)) = S754_finite true m e
               /\ (ts - te <= 30000 -> e < 0 /\ 2 * Zpos m <= 2 ^ (- e))
               /\ (30000 < ts - te -> 0 <= e \/ 2 ^ (- e) < 2 * Zpos m)).
    { unfold duration_minutes, elapsed_ms.
      rewrite div_spec, sub_spec, Prim2SF_minute, Hs. unfold SF64div, SF64sub.
      pose proof (SFsub_integers_exact te ts _ _ (getTime_represents te oke)
                    (getTime_represents ts oks) ltac:(lia) ltac:(lia)) as R.
      set (g := SFsub prec emax (Prim2SF (getTime (TimeValue te oke)))
                  (Prim2SF (getTime (TimeValue ts oks)))) in *.
      apply represents_opp in R. replace (- (te - ts)) with (ts - te) in R by lia.
      destruct (half_minute (ts - te) (SFopp g) ltac:(lia) R) as (m & e & Q & H).
      exists m, e. split; [ | exact H ].
      rewrite <- (SFopp_involutive g). rewrite SFdiv_opp.
      fold sixty_thousand. rewrite Q. reflexivity. }
    destruct E as (m & e & E & H1 & H2).
    destruct (round_negative_cases _ m e E) as (Z & N).
    split; intros L; [ apply Z, H1, L | apply N, H2, L ].
  - assert (30000 < 2 ^ 53) by reflexivity.
    split; [ lia | intros _ ].
    pose proof (duration_sizeable s ts oks te oke Hs ltac:(lia)) as Z.
    replace (te - ts <? 0) with true in Z by (symmetry; apply Z.ltb_lt; lia).
    assert (D : 54 <= Zdigits2 (Z.abs (te - ts))).
    { rewrite Zdigits2_log2 by lia.
      assert (53 <= Z.log2 (Z.abs (te - ts))) by (apply Z.log2_le_pow2; lia). lia. }
    destruct Z as [E | (m & e & E & M)].
    + unfold Math_round. rewrite E.
      apply (toString_negative (duration_minutes s (TimeValue te oke)) _ 0);
        [ | reflexivity ].
      rewrite E. now left.
    + destruct (round_negative_cases _ m e E) as (_ & N). apply N.
      destruct (Z.leb_spec 0 e) as [He | He]; [ now left | right ].
      unfold magnitude in M. cbn [Zdigits2] in M.
      pose proof (digits_bounds m) as [Lo _].
      assert (2 ^ (- e) <= 2 ^ (Zpos (digits2_pos m) - 1))
        by (apply Z.pow_le_mono_r; lia).
      lia.
Qed.

(** C10, as stated, fails when [endTime] is less than thirty seconds before
    [startTime]: one second earlier is -1/60 of a minute, which
    [Math.round] takes to [-0], displayed as ["0"]. *)
Lemma reversed_times_counterexample :
  let e := date (t_0800 - 1000) in
  let s := mockSession 72 None (Some e) in
  (getTime e <? getTime (startTime s))%float = true
  /\ evaluate s mockPatient =
     Normal {| hasAnomalies := true;
               anomalies := ["Short session duration: 0 minutes (minimum: 150 minutes)"] |}.
Proof. vm_compute. split; reflexivity. Qed.

(** C10, amended. When both times are present and [endTime] is strictly
    earlier than [startTime], the input is neither rejected nor skipped:
    [durationMinutes] is negative and the evaluator emits the short-duration
    anomaly, and no other duration anomaly, with [Math.round] of the
    duration as the displayed count. That count carries a minus sign exactly
    when [endTime] is more than 30000 ms (half a minute) before [startTime],
    and is ["0"] otherwise. *)
Theorem reversed_times_short (s : ISession) (p : DryWeightRef) (e : Date) :
  endTime s = Some e ->
  (getTime e <? getTime (startTime s))%float = true ->
  let minutes := ((getTime e - getTime (startTime s)) / (1000 * 60))%float in
  let shown := Number_toString (Math_round minutes) in
  (minutes <? 0)%float = true
  /\ emits s p ("Short session duration: " ++ shown
                ++ " minutes (minimum: 150 minutes)")
  /\ (forall a, emits s p a -> is_duration_anomaly a = true ->
      a = "Short session duration: " ++ shown ++ " minutes (minimum: 150 minutes)")
  /\ (shown = "0" \/ prefix "-" shown = true)
  /\ (forall ts oks te oke,
        startTime s = TimeValue ts oks -> e = TimeValue te oke ->
        (prefix "-" shown = true <-> 30000 < ts - te)
        /\ (shown = "0" <-> ts - te <= 30000)).
Proof.
  intros Ee Hlt. cbv zeta.
  fold (elapsed_ms s e). fold (duration_minutes s e).
  destruct (date_before _ _ Hlt) as (tb & okb & ta & oka & -> & Hs & Hab).
  pose proof (duration_sizeable s ta oka tb okb Hs ltac:(lia)) as Z.
  replace (tb - ta <? 0) with true in Z by (symmetry; apply Z.ltb_lt; lia).
  destruct (sizeable_negative _ _ Z) as (N0 & N).
  assert (S : (duration_minutes s (TimeValue tb okb) <? 150)%float = true)
    by (rewrite ltb_spec, Prim2SF_150; apply N).
  split; [ rewrite ltb_spec, Prim2SF_zero; exact N0 | ].
  rewrite <- short_message_text.
  split; [ | split; [ | split ] ].
  - apply (proj2 (emitted_duration s p _)), in_duration_check.
    eexists. split; [ exact Ee | left; auto ].
  - intros a E K. pose proof (proj1 (emitted_duration s p a) (conj E K)) as H.
    apply in_duration_check in H as (e' & Ee' & [(_ & ->) | (F & _)]);
      rewrite Ee in Ee'; injection Ee' as <-; [ reflexivity | congruence ].
  - eapply round_negative_display, Z.
  - intros ts oks te oke Hs' He'.
    assert (L : te < ts).
    { rewrite Hs in Hs'. inversion Hs'. inversion He'. lia. }
    rewrite He'.
    destruct (reversed_display s ts oks te oke Hs' L) as (A & B).
    destruct (Z.le_gt_cases (ts - te) 30000) as [C | C].
    + specialize (A C). rewrite A.
      split; split; (reflexivity || lia || discriminate || auto).
    + specialize (B C).
      split; split; try (reflexivity || lia || auto).
      intros F. rewrite F in B. discriminate B.
Qed.

Lemma reversed_times_short_witness :
  let e := date (t_0800 - 31000) in
  let s := mockSession 72 None (Some e) in
  (getTime e <? getTime (startTime s))%float = true
  /\ emits s mockPatient "Short session duration: -1 minutes (minimum: 150 minutes)".
Proof.
  cbv zeta. split; [ reflexivity | ].
  apply (reversed_times_short
           (mockSession 72 None (Some (date (t_0800 - 31000)))) mockPatient
           (date (t_0800 - 31000))); reflexivity.
Defined.

(** ** The session-update handler *)

Lemma findById_replace (id : string) (s' : ISession) (l : list (string * ISession)) :
  find (fun kv => String.eqb (fst kv) id) l <> None ->
  find (fun kv => String.eqb (fst kv) id) (replace_session id s' l) = Some (id, s').
Proof.
  induction l as [ | [k old] rest IH]; cbn [find replace_session fst]; [ congruence | ].
  destruct (String.eqb k id) eqn:E; intros H.
  - cbn [find fst]. rewrite E. apply String.eqb_eq in E. now subst.
  - cbn [find fst]. rewrite E. auto.
Qed.

Lemma findById_save (db : Database) (id : string) (old s' : ISession) :
  findById db id = Some old -> findById (save db id s') id = Some s'.
Proof.
  unfold findById, save. cbn [sessions]. intros H.
  rewrite findById_replace; [ reflexivity | ].
  destruct (find _ (sessions db)); [ discriminate | discriminate H ].
Qed.

Section UpdateHandlerFacts.

Variable Date_parse : string -> Date.
Variable validates : ISession -> bool.

Lemma apply_updates_anomalies (s : ISession) (u : UpdateSessionRequest) :
  session_anomalies (apply_updates Date_parse s u) = session_anomalies s.
Proof.
  unfold apply_updates.
  destruct (upd_nurseNotes u), (upd_endTime u), (upd_postWeight u),
    (upd_vitals u), (upd_status u); reflexivity.
Qed.

Lemma apply_updates_patientId (s : ISession) (u : UpdateSessionRequest) :
  patientId (apply_updates Date_parse s u) = patientId s.
Proof.
  unfold apply_updates.
  destruct (upd_nurseNotes u), (upd_endTime u), (upd_postWeight u),
    (upd_vitals u), (upd_status u); reflexivity.
Qed.

Lemma requested_touches (u : UpdateSessionRequest) :
  reevaluation_requested u = true -> touches_trigger_field u = true.
Proof.
  unfold reevaluation_requested, touches_trigger_field, truthy_post, truthy_string.
  destruct (upd_postWeight u); cbn [defined orb]; try reflexivity;
    destruct (upd_vitals u) as [ | | v]; cbn [orb]; try destruct (upd_post v);
    cbn [defined orb]; try reflexivity;
    destruct (upd_endTime u); cbn [defined]; auto.
Qed.

(** What the handler leaves behind when it does not call the evaluator. *)
Lemma finish_unchanged (db : Database) (id : string) (old : ISession)
    (u : UpdateSessionRequest) (out : Outcome) :
  findById db id = Some old ->
  out = (if validates (apply_updates Date_parse old u)
         then {| response :=
                   Updated (apply_updates Date_parse old u)
                     (0 <? List.length
                             (session_anomalies (apply_updates Date_parse old u)))%nat;
                 database := save db id (apply_updates Date_parse old u);
                 evaluated := None |}
         else {| response := ValidationFailed; database := db; evaluated := None |}) ->
  evaluated out = None
  /\ stored_anomalies (database out) id = Some (session_anomalies old).
Proof.
  intros F ->. unfold stored_anomalies.
  destruct (validates _); cbn [evaluated database]; split; try reflexivity.
  - rewrite (findById_save _ _ _ _ F). cbn [option_map].
    now rewrite apply_updates_anomalies.
  - now rewrite F.
Qed.

(** C9, amended. For a session that is found: the handler calls the
    evaluator only when the payload carries [postWeight], [vitals.post] or
    [endTime]; a payload that carries none of them leaves the stored
    anomaly list as it was, and so does any payload when the session's
    patient is not found; when the patient is found and the payload has a
    [postWeight], a [vitals.post] object or a non-empty [endTime], the
    evaluator is called on the merged session and, once the document is
    saved, its list replaces the stored one. *)
Theorem update_reevaluation (db : Database) (id : string)
    (updates : UpdateSessionRequest) (old : ISession) :
  findById db id = Some old ->
  let out := patch_session Date_parse validates db id updates in
  let merged := apply_updates Date_parse old updates in
  (forall r, evaluated out = Some r -> touches_trigger_field updates = true)
  /\ (touches_trigger_field updates = false ->
      evaluated out = None
      /\ stored_anomalies (database out) id = Some (session_anomalies old))
  /\ (findOne db (patientId old) = None ->
      evaluated out = None
      /\ stored_anomalies (database out) id = Some (session_anomalies old))
  /\ (forall patient,
        reevaluation_requested updates = true ->
        findOne db (patientId old) = Some patient ->
        exists r,
          evaluate merged {| dryWeight := IPatient.dryWeight patient |} = Normal r
          /\ evaluated out = Some r
          /\ (validates (set_anomalies merged (anomalies r)) = true ->
              stored_anomalies (database out) id = Some (anomalies r))
          /\ (validates (set_anomalies merged (anomalies r)) = false ->
              stored_anomalies (database out) id = Some (session_anomalies old))).
Proof.
  intros F. cbv zeta. unfold patch_session. rewrite F.
  rewrite apply_updates_patientId.
  set (merged := apply_updates Date_parse old updates).
  destruct (reevaluation_requested updates) eqn:R.
  - pose proof (requested_touches _ R) as T.
    destruct (findOne db (patientId old)) as [patient | ] eqn:P.
    + rewrite detectAnomalies_run. cbn [call_store session_object patient_object].
      set (pw := {| dryWeight := IPatient.dryWeight patient |}).
      set (r := {| hasAnomalies := (0 <? List.length (checks merged pw))%nat;
                   anomalies := checks merged pw |}).
      assert (St : forall o,
                 o = (if validates (set_anomalies merged (anomalies r))
                      then {| response :=
                                Updated (set_anomalies merged (anomalies r))
                                  (0 <? List.length
                                     (session_anomalies
                                        (set_anomalies merged (anomalies r))))%nat;
                              database := save db id (set_anomalies merged (anomalies r));
                              evaluated := Some r |}
                      else {| response := ValidationFailed; database := db;
                              evaluated := Some r |}) ->
                 evaluated o = Some r
                 /\ (validates (set_anomalies merged (anomalies r)) = true ->
                     stored_anomalies (database o) id = Some (anomalies r))
                 /\ (validates (set_anomalies merged (anomalies r)) = false ->
                     stored_anomalies (database o) id = Some (session_anomalies old))).
      { intros o ->. unfold stored_anomalies.
        destruct (validates (set_anomalies merged (anomalies r)));
          cbn [evaluated database]; repeat split; try discriminate; intros _.
        - now rewrite (findById_save _ _ _ _ F).
        - now rewrite F. }
      destruct (St _ eq_refl) as (E1 & E2 & E3).
      split; [ intros; exact T | ].
      split; [ intros H; congruence | ].
      split; [ discriminate | ].
      intros patient' _ Hp. injection Hp as <-.
      exists r. split; [ apply evaluate_checks | ]. auto.
    + destruct (finish_unchanged db id old updates _ F eq_refl) as (E1 & E2).
      fold merged in E1, E2.
      split; [ intros r H; rewrite E1 in H; discriminate | ].
      split; [ auto | ]. split; [ auto | ]. intros patient _ H. discriminate.
  - destruct (finish_unchanged db id old updates _ F eq_refl) as (E1 & E2).
    fold merged in E1, E2.
    split; [ intros r H; rewrite E1 in H; discriminate | ].
    split; [ auto | ]. split; [ auto | ]. intros patient H. discriminate.
Qed.

End UpdateHandlerFacts.

(** C9, as stated, fails when the session's patient is not found: the
    payload modifies [postWeight], the document is saved with it, and the
    evaluator is not called. *)
Lemma update_without_patient_counterexample :
  let updates := with_postWeight (Value 68%float) in
  let out := patch_session parse_fixture accept_all clinic_without_patient "s1" updates in
  touches_trigger_field updates = true
  /\ option_map postWeight (findById (database out) "s1") = Some (Some 68%float)
  /\ evaluated out = None.
Proof. vm_compute. repeat split. Qed.

Lemma update_reevaluation_witness :
  let updates := with_endTime (Value "2024-01-01T10:00:00.000Z") in
  let out := patch_session parse_fixture accept_all clinic "s1" updates in
  findById clinic "s1" = Some (mockSession 72 None None)
  /\ stored_anomalies (database out) "s1"
     = Some ["Short session duration: 120 minutes (minimum: 150 minutes)"].
Proof.
  cbv zeta. split; [ reflexivity | ].
  destruct (update_reevaluation parse_fixture accept_all clinic "s1"
              (with_endTime (Value "2024-01-01T10:00:00.000Z"))
              (mockSession 72 None None) eq_refl) as (_ & _ & _ & H).
  destruct (H patient_P001 eq_refl eq_refl) as (r & E & _ & S & _).
  rewrite (S eq_refl). f_equal.
  assert (E' : evaluate
                 (apply_updates parse_fixture (mockSession 72 None None)
                    (with_endTime (Value "2024-01-01T10:00:00.000Z")))
                 {| dryWeight := IPatient.dryWeight patient_P001 |}
               = Normal {| hasAnomalies := true;
                           anomalies :=
                             ["Short session duration: 120 minutes (minimum: 150 minutes)"] |})
    by (vm_compute; reflexivity).
  rewrite E' in E. injection E as <-. reflexivity.
Defined.

(** A [null] end time is stored as the epoch, and is not a truthy
    [updates.endTime]: the evaluator is not called, although it would now
    report a short session. *)
Example update_null_endTime :
  let out := patch_session parse_fixture accept_all clinic "s1" (with_endTime Null) in
  option_map endTime (findById (database out) "s1") = Some (Some (date 0))
  /\ evaluated out = None
  /\ stored_anomalies (database out) "s1" = Some []
  /\ evaluate (apply_updates parse_fixture (mockSession 72 None None) (with_endTime Null))
       mockPatient
     = Normal {| hasAnomalies := true;
                 anomalies :=
                   ["Short session duration: -28401600 minutes (minimum: 150 minutes)"] |}.
Proof. vm_compute. repeat split. Qed.

(** * Further properties of the evaluator *)

(** Each check reads its own inputs and nothing else. *)
Lemma weight_check_reads (s s' : ISession) (p p' : DryWeightRef) :
  preWeight s = preWeight s' -> dryWeight p = dryWeight p' ->
  weight_check s p = weight_check s' p'.
Proof.
  intros Hw Hd.
  unfold weight_check, weight_active, weight_gain_percent, weight_gain.
  now rewrite Hw, Hd.
Qed.

Lemma bp_check_reads (s s' : ISession) :
  option_map systolicBP (post (vitals s)) = option_map systolicBP (post (vitals s')) ->
  bp_check s = bp_check s'.
Proof.
  intros Hb. unfold bp_check.
  destruct (post (vitals s)) as [v | ], (post (vitals s')) as [v' | ];
    cbn [option_map] in Hb; try discriminate; [ | reflexivity ].
  injection Hb as ->. reflexivity.
Qed.

Lemma duration_check_reads (s s' : ISession) :
  getTime (startTime s) = getTime (startTime s') ->
  option_map getTime (endTime s) = option_map getTime (endTime s') ->
  duration_check s = duration_check s'.
Proof.
  intros Hs He. unfold duration_check, duration_minutes, elapsed_ms.
  destruct (endTime s) as [e | ], (endTime s') as [e' | ];
    cbn [option_map] in He; try discriminate; [ | reflexivity ].
  injection He as He. now rewrite He, Hs.
Qed.

Lemma evaluate_same_inputs (s s' : ISession) (p p' : DryWeightRef) :
  preWeight s = preWeight s' ->
  dryWeight p = dryWeight p' ->
  option_map systolicBP (post (vitals s)) = option_map systolicBP (post (vitals s')) ->
  getTime (startTime s) = getTime (startTime s') ->
  option_map getTime (endTime s) = option_map getTime (endTime s') ->
  evaluate s p = evaluate s' p'.
Proof.
  intros Hw Hd Hb Hs He. rewrite !evaluate_checks. unfold checks.
  rewrite (weight_check_reads s s' p p' Hw Hd), (bp_check_reads s s' Hb),
    (duration_check_reads s s' Hs He).
  reflexivity.
Qed.

(** X1. The evaluator's result is determined by [preWeight], [dryWeight],
    [vitals.post.systolicBP] and the time values of [startTime] and
    [endTime]: two calls that agree on these five return the same result,
    whatever the other fields of the session hold ([postWeight], the
    pre-dialysis vitals, the diastolic pressure, the status, the stored
    anomaly list, ...). *)
Theorem evaluate_reads (s s' : ISession) (p p' : DryWeightRef) :
  preWeight s = preWeight s' ->
  dryWeight p = dryWeight p' ->
  option_map systolicBP (post (vitals s)) = option_map systolicBP (post (vitals s')) ->
  getTime (startTime s) = getTime (startTime s') ->
  option_map getTime (endTime s) = option_map getTime (endTime s') ->
  evaluate s p = evaluate s' p'.
Proof. exact (evaluate_same_inputs s s' p p'). Qed.

Lemma evaluate_reads_witness :
  let s := mockSession 75 (Some (bp 145 90)) (Some (date (t_0800 + hours 2))) in
  let s' := set_status (set_postWeight (set_anomalies s ["stale"]) (Some 70.5%float))
              completed in
  evaluate s mockPatient = evaluate s' mockPatient.
Proof.
  cbv zeta. apply evaluate_reads; reflexivity.
Defined.

(** X2. The checks are independent: whether an anomaly of one kind is
    emitted, and which, depends on the inputs of that check only. *)
Theorem checks_independent (s s' : ISession) (p p' : DryWeightRef) :
  (preWeight s = preWeight s' -> dryWeight p = dryWeight p' ->
   forall a, is_weight_gain_anomaly a = true -> (emits s p a <-> emits s' p' a))
  /\ (option_map systolicBP (post (vitals s))
      = option_map systolicBP (post (vitals s')) ->
      forall a, is_bp_anomaly a = true -> (emits s p a <-> emits s' p' a))
  /\ (getTime (startTime s) = getTime (startTime s') ->
      option_map getTime (endTime s) = option_map getTime (endTime s') ->
      forall a, is_duration_anomaly a = true -> (emits s p a <-> emits s' p' a)).
Proof.
  split; [ | split ].
  - intros Hw Hd a K.
    pose proof (weight_check_reads s s' p p' Hw Hd) as R.
    pose proof (emitted_weight s p a) as A. pose proof (emitted_weight s' p' a) as B.
    rewrite R in A. tauto.
  - intros Hb a K.
    pose proof (bp_check_reads s s' Hb) as R.
    pose proof (emitted_bp s p a) as A. pose proof (emitted_bp s' p' a) as B.
    rewrite R in A. tauto.
  - intros Hs He a K.
    pose proof (duration_check_reads s s' Hs He) as R.
    pose proof (emitted_duration s p a) as A. pose proof (emitted_duration s' p' a) as B.
    rewrite R in A. tauto.
Qed.

(** A duration computed from an invalid date is [NaN], which neither
    comparison accepts. *)
Lemma invalid_duration (s : ISession) (e : Date) :
  startTime s = InvalidDate \/ e = InvalidDate ->
  (duration_minutes s e <? 150)%float = false
  /\ (300 <? duration_minutes s e)%float = false.
Proof.
  intros H. unfold duration_minutes, elapsed_ms.
  rewrite !ltb_spec, div_spec, sub_spec. unfold SF64div, SF64sub.
  assert (N : SFsub prec emax (Prim2SF (getTime e)) (Prim2SF (getTime (startTime s)))
              = S754_nan).
  { destruct H as [-> | ->]; rewrite getTime_invalid.
    - destruct (Prim2SF (getTime e)); reflexivity.
    - reflexivity. }
  rewrite N. split; reflexivity.
Qed.

(** X3. An invalid date is not an error and is not reported: when
    [startTime] or [endTime] is an invalid Date, the evaluator returns what
    it returns without an end time, so no duration anomaly is emitted. *)
Theorem invalid_date_skips_duration (s : ISession) (p : DryWeightRef) :
  startTime s = InvalidDate \/ endTime s = Some InvalidDate ->
  evaluate s p = evaluate (set_endTime s None) p
  /\ forall a, emits s p a -> is_duration_anomaly a = false.
Proof.
  intros H.
  assert (D : duration_check s = []).
  { unfold duration_check. destruct (endTime s) as [e | ] eqn:E; [ | reflexivity ].
    destruct (invalid_duration s e) as (-> & ->); [ | reflexivity ].
    destruct H as [H | H]; [ now left | right; congruence ]. }
  split.
  - rewrite !evaluate_checks. unfold checks. rewrite D. reflexivity.
  - intros a E. destruct (is_duration_anomaly a) eqn:K; [ | reflexivity ].
    pose proof (proj1 (emitted_duration s p a) (conj E K)) as I.
    rewrite D in I. destruct I.
Qed.

Lemma invalid_date_skips_duration_witness :
  let s := mockSession 72 (Some (bp 145 90)) (Some InvalidDate) in
  endTime s = Some InvalidDate
  /\ evaluate s mockPatient
     = Normal {| hasAnomalies := true;
                 anomalies :=
                   ["High post-dialysis systolic BP: 145 mmHg (threshold: 140 mmHg)"] |}.
Proof.
  cbv zeta. split; [ reflexivity | ].
  rewrite (proj1 (invalid_date_skips_duration
                    (mockSession 72 (Some (bp 145 90)) (Some InvalidDate)) mockPatient
                    (or_intror eq_refl))).
  vm_compute. reflexivity.
Defined.

(** [a.getTime() === b.getTime()] holds only between valid dates with the
    same time value. *)
Lemma date_same (a b : Date) :
  (getTime a =? getTime b)%float = true ->
  exists t oka okb, a = TimeValue t oka /\ b = TimeValue t okb.
Proof.
  rewrite eqb_spec.
  destruct a as [ | ta oka], b as [ | tb okb].
  - rewrite getTime_invalid. discriminate.
  - rewrite getTime_invalid. discriminate.
  - rewrite getTime_invalid. unfold SFeqb.
    destruct (Prim2SF (getTime (TimeValue ta oka))); discriminate.
  - unfold SFeqb.
    rewrite (represents_compare ta tb) by apply getTime_represents.
    destruct (Z.compare_spec ta tb); try discriminate.
    intros _. subst tb. exists ta, oka, okb. auto.
Qed.

(** The duration between a valid date and itself is a zero. *)
Lemma duration_zero (s : ISession) t oks oke :
  startTime s = TimeValue t oks ->
  exists z, Prim2SF (duration_minutes s (TimeValue t oke)) = S754_zero z.
Proof.
  intros Hs. unfold duration_minutes, elapsed_ms.
  rewrite div_spec, sub_spec, Prim2SF_minute, Hs. unfold SF64div, SF64sub.
  destruct (SFsub_equal t _ _ (getTime_represents t oke) (getTime_represents t oks))
    as (z & ->).
  cbn [SFdiv]. eauto.
Qed.

(** X4. A session that ends at the instant it starts is reported as short,
    with a count of 0 minutes, and that is its only duration anomaly. *)
Theorem zero_length_session (s : ISession) (p : DryWeightRef) (e : Date) :
  endTime s = Some e ->
  (getTime e =? getTime (startTime s))%float = true ->
  emits s p "Short session duration: 0 minutes (minimum: 150 minutes)"
  /\ forall a, emits s p a -> is_duration_anomaly a = true ->
     a = "Short session duration: 0 minutes (minimum: 150 minutes)".
Proof.
  intros Ee Heq.
  destruct (date_same _ _ Heq) as (t & oke & oks & -> & Hs).
  destruct (duration_zero s t oks oke Hs) as (z & Z).
  assert (D : duration_check s
              = ["Short session duration: 0 minutes (minimum: 150 minutes)"]).
  { unfold duration_check. rewrite Ee.
    replace (duration_minutes s (TimeValue t oke) <? 150)%float with true
      by (rewrite ltb_spec, Z, Prim2SF_150; destruct z; reflexivity).
    unfold short_message, Math_round. rewrite Z.
    unfold Number_toString at 1. rewrite Z. reflexivity. }
  split.
  - apply (proj2 (emitted_duration s p _)). rewrite D. now left.
  - intros a E K. pose proof (proj1 (emitted_duration s p a) (conj E K)) as I.
    rewrite D in I. destruct I as [<- | []]. reflexivity.
Qed.

Lemma zero_length_session_witness :
  let s := mockSession 72 None (Some (date t_0800)) in
  endTime s = Some (date t_0800)
  /\ emits s mockPatient "Short session duration: 0 minutes (minimum: 150 minutes)".
Proof.
  cbv zeta. split; [ reflexivity | ].
  apply (zero_length_session (mockSession 72 None (Some (date t_0800))) mockPatient
           (date t_0800)); reflexivity.
Defined.

(** * Further properties of the session-update handler *)



Lemma replace_session_twice (id : string) (s' : ISession)
    (l : list (string * ISession)) :
  replace_session id s' (replace_session id s' l) = replace_session id s' l.
Proof.
  induction l as [ | [k old] rest IH]; cbn [replace_session]; [ reflexivity | ].
  destruct (String.eqb k id) eqn:E; cbn [replace_session]; rewrite E;
    [ reflexivity | now rewrite IH ].
Qed.

Lemma save_twice (db : Database) (id : string) (s' : ISession) :
  save (save db id s') id s' = save db id s'.
Proof. unfold save. cbn [sessions patients]. now rewrite replace_session_twice. Qed.

Section UpdateHandlerMore.

Variable Date_parse : string -> Date.
Variable validates : ISession -> bool.

(** Every way the handler can end, for a session that is found. *)
Lemma patch_session_cases (db : Database) (id : string)
    (updates : UpdateSessionRequest) (old : ISession) :
  findById db id = Some old ->
  let merged := apply_updates Date_parse old updates in
  exists final ghost,
    patch_session Date_parse validates db id updates
    = (if validates final
       then {| response := Updated final (0 <? List.length (session_anomalies final))%nat;
               database := save db id final;
               evaluated := ghost |}
       else {| response := ValidationFailed; database := db; evaluated := ghost |})
    /\ ((reevaluation_requested updates = false /\ final = merged /\ ghost = None)
        \/ (reevaluation_requested updates = true
            /\ findOne db (patientId old) = None /\ final = merged /\ ghost = None)
        \/ (exists patient,
              reevaluation_requested updates = true
              /\ findOne db (patientId old) = Some patient
              /\ final = set_anomalies merged
                           (checks merged {| dryWeight := IPatient.dryWeight patient |})
              /\ ghost = Some {| hasAnomalies :=
                                   (0 <? List.length
                                      (checks merged
                                         {| dryWeight := IPatient.dryWeight patient |}))%nat;
                                 anomalies :=
                                   checks merged
                                     {| dryWeight := IPatient.dryWeight patient |} |})).
Proof.
  intros F merged. unfold patch_session. rewrite F.
  rewrite apply_updates_patientId. fold merged.
  destruct (reevaluation_requested updates) eqn:R.
  - destruct (findOne db (patientId old)) as [patient | ] eqn:P.
    + rewrite detectAnomalies_run. cbn [call_store session_object patient_object anomalies].
      eexists _, _. split; [ reflexivity | ].
      right. right. exists patient. auto.
    + exists merged, None. split; [ reflexivity | ]. right. left. auto.
  - exists merged, None. split; [ reflexivity | ]. left. auto.
Qed.

Lemma apply_updates_kept (s : ISession) (u : UpdateSessionRequest) :
  patientId (apply_updates Date_parse s u) = patientId s
  /\ scheduledDate (apply_updates Date_parse s u) = scheduledDate s
  /\ startTime (apply_updates Date_parse s u) = startTime s
  /\ preWeight (apply_updates Date_parse s u) = preWeight s
  /\ machineId (apply_updates Date_parse s u) = machineId s
  /\ createdAt (apply_updates Date_parse s u) = createdAt s.
Proof.
  unfold apply_updates.
  destruct (upd_nurseNotes u), (upd_endTime u), (upd_postWeight u),
    (upd_vitals u), (upd_status u); repeat split.
Qed.


(** X6. The response of a successful update shows the document as it is
    stored: the session returned is the one now found under [id], it passed
    validation, and [hasAnomalies] is computed from its stored list, which is
    the evaluator's when the evaluator was called and the previous one when
    it was not. *)
Theorem update_response_stored (db : Database) (id : string)
    (updates : UpdateSessionRequest) (session : ISession) (flag : bool) :
  let out := patch_session Date_parse validates db id updates in
  response out = Updated session flag ->
  findById (database out) id = Some session
  /\ validates session = true
  /\ flag = (0 <? List.length (session_anomalies session))%nat
  /\ (forall r, evaluated out = Some r ->
      session_anomalies session = anomalies r /\ flag = hasAnomalies r)
  /\ (evaluated out = None ->
      option_map session_anomalies (findById db id) = Some (session_anomalies session)).
Proof.
  cbv zeta. destruct (findById db id) as [old | ] eqn:F.
  - destruct (patch_session_cases db id updates old F) as (final & ghost & -> & C).
    destruct (validates final) eqn:V; cbn [database response evaluated];
      [ | discriminate ].
    intros E. injection E as <- <-.
    split; [ apply (findById_save _ _ _ _ F) | ].
    split; [ exact V | ]. split; [ reflexivity | ].
    destruct C as [(_ & -> & ->) | [(_ & _ & -> & ->) | (pt & _ & _ & -> & ->)]].
    + split; [ discriminate | ]. intros _. cbn [option_map].
      now rewrite apply_updates_anomalies.
    + split; [ discriminate | ]. intros _. cbn [option_map].
      now rewrite apply_updates_anomalies.
    + split; [ | discriminate ]. intros r E. injection E as <-.
      cbn [set_anomalies session_anomalies anomalies hasAnomalies]. auto.
  - unfold patch_session. rewrite F. cbn [response]. discriminate.
Qed.


Lemma spread_twice {A} (old : option A) (x : Field A) :
  spread (spread old x) x = spread old x.
Proof. destruct x; reflexivity. Qed.

Lemma apply_updates_absorbs (s : ISession) (u : UpdateSessionRequest) (l : list string) :
  apply_updates Date_parse (set_anomalies (apply_updates Date_parse s u) l) u
  = set_anomalies (apply_updates Date_parse s u) l.
Proof.
  destruct s. unfold apply_updates.
  destruct (defined (upd_nurseNotes u)), (defined (upd_endTime u)),
    (defined (upd_postWeight u)), (upd_status u), (upd_vitals u) as [ | | v];
    cbn; rewrite ?spread_twice; reflexivity.
Qed.

Lemma apply_updates_twice (s : ISession) (u : UpdateSessionRequest) :
  apply_updates Date_parse (apply_updates Date_parse s u) u
  = apply_updates Date_parse s u.
Proof.
  destruct s. unfold apply_updates.
  destruct (defined (upd_nurseNotes u)), (defined (upd_endTime u)),
    (defined (upd_postWeight u)), (upd_status u), (upd_vitals u) as [ | | v];
    cbn; rewrite ?spread_twice; reflexivity.
Qed.

Lemma update_response_parts (db : Database) (id : string)
    (updates : UpdateSessionRequest) (session : ISession) (flag : bool) :
  response (patch_session Date_parse validates db id updates) = Updated session flag ->
  findById (database (patch_session Date_parse validates db id updates)) id = Some session
  /\ flag = (0 <? List.length (session_anomalies session))%nat
  /\ patients (database (patch_session Date_parse validates db id updates)) = patients db.
Proof.
  destruct (findById db id) as [old | ] eqn:F.
  - destruct (patch_session_cases db id updates old F) as (final & ghost & -> & _).
    destruct (validates final); cbn [database response]; [ | discriminate ].
    intros E. injection E as <- <-.
    split; [ apply (findById_save _ _ _ _ F) | ]. split; reflexivity.
  - unfold patch_session. rewrite F. cbn [response]. discriminate.
Qed.

(** X7. The update is idempotent: sending the same payload a second time
    gives the same response and leaves the database as the first left it
    (the [updatedAt] that the persistence layer maintains on a save is not
    tracked by [save], and is not part of the response). *)
Theorem update_idempotent (db : Database) (id : string)
    (updates : UpdateSessionRequest) :
  let out := patch_session Date_parse validates db id updates in
  patch_session Date_parse validates (database out) id updates = out.
Proof.
  cbv zeta. destruct (findById db id) as [old | ] eqn:F.
  - destruct (patch_session_cases db id updates old F) as (final & ghost & E & C).
    rewrite E. destruct (validates final) eqn:V; cbn [database].
    + (* saved: the second request finds [final] *)
      pose proof (findById_save db id old final F) as F'.
      destruct (patch_session_cases (save db id final) id updates final F')
        as (final' & ghost' & E' & C').
      rewrite E'. clear E E'.
      assert (P : patientId final = patientId old).
      { destruct C as [(_ & -> & _) | [(_ & _ & -> & _) | (pt & _ & _ & -> & _)]];
          apply apply_updates_patientId. }
      unfold findOne in C'. cbn [save patients] in C'. fold (findOne db (patientId final)) in C'.
      rewrite P in C'.
      assert (S : final' = final /\ ghost' = ghost).
      { destruct C as [(R & -> & ->) | [(R & N & -> & ->) | (pt & R & N & -> & ->)]];
          destruct C' as [(R' & -> & ->) | [(R' & N' & -> & ->) | (pt' & R' & N' & -> & ->)]];
          try congruence.
        - split; [ apply apply_updates_twice | reflexivity ].
        - split; [ apply apply_updates_twice | reflexivity ].
        - rewrite N in N'. injection N' as <-.
          rewrite apply_updates_absorbs. split; reflexivity. }
      destruct S as (-> & ->). rewrite V, save_twice. reflexivity.
    + (* refused: nothing was written, the second request is the first *)
      rewrite E. rewrite ?V. reflexivity.
  - unfold patch_session at 2. rewrite F. cbn [database].
    unfold patch_session. rewrite F. reflexivity.
Qed.

(** X8. [postWeight] triggers the evaluator but is not one of its inputs:
    when the payload changes neither [endTime] nor [vitals.post], whatever
    the evaluator returns for the merged session is what it returns for the
    session as it was stored. *)
Theorem update_unread_fields (db : Database) (id : string)
    (updates : UpdateSessionRequest) (old : ISession) (r : AnomalyResult) :
  findById db id = Some old ->
  upd_endTime updates = Undefined ->
  (forall v, upd_vitals updates = Value v -> upd_post v = Undefined) ->
  evaluated (patch_session Date_parse validates db id updates) = Some r ->
  exists patient,
    findOne db (patientId old) = Some patient
    /\ evaluate old {| dryWeight := IPatient.dryWeight patient |} = Normal r.
Proof.
  intros F He Hv.
  destruct (patch_session_cases db id updates old F) as (final & ghost & -> & C).
  assert (G : evaluated (if validates final
                         then {| response :=
                                   Updated final
                                     (0 <? List.length (session_anomalies final))%nat;
                                 database := save db id final;
                                 evaluated := ghost |}
                         else {| response := ValidationFailed; database := db;
                                 evaluated := ghost |}) = ghost)
    by (destruct (validates final); reflexivity).
  rewrite G. clear G.
  destruct C as [(_ & _ & ->) | [(_ & _ & _ & ->) | (pt & _ & N & _ & ->)]];
    try discriminate.
  intros E. injection E as <-. exists pt. split; [ exact N | ].
  rewrite evaluate_checks.
  set (pw := {| dryWeight := IPatient.dryWeight pt |}).
  replace (checks (apply_updates Date_parse old updates) pw) with (checks old pw);
    [ reflexivity | ].
  unfold checks.
  rewrite (weight_check_reads (apply_updates Date_parse old updates) old pw pw),
    (bp_check_reads (apply_updates Date_parse old updates) old),
    (duration_check_reads (apply_updates Date_parse old updates) old);
    try reflexivity;
    unfold apply_updates; rewrite He;
    destruct (upd_nurseNotes updates), (upd_postWeight updates), (upd_status updates),
      (upd_vitals updates) as [ | | v]; try reflexivity;
    rewrite (Hv v eq_refl); reflexivity.
Qed.


(** X10. An update keeps the stored anomaly list current (equal to what the
    evaluator returns for the stored session and its patient), provided the
    payload does not fall between the two tests: if it defines [postWeight],
    [vitals.post] or [endTime] at all, then the trigger fires. *)
Theorem update_keeps_current (db : Database) (id : string)
    (updates : UpdateSessionRequest) :
  touches_trigger_field updates = reevaluation_requested updates ->
  anomalies_current db id ->
  anomalies_current (database (patch_session Date_parse validates db id updates)) id.
Proof.
  intros T Cur. destruct (findById db id) as [old | ] eqn:F.
  - destruct (patch_session_cases db id updates old F) as (final & ghost & -> & C).
    destruct (validates final); cbn [database]; [ | exact Cur ].
    intros s pt Fs Fp. rewrite (findById_save _ _ _ _ F) in Fs. injection Fs as <-.
    unfold findOne in Fp. cbn [save patients] in Fp.
    fold (findOne db (patientId final)) in Fp.
    set (merged := apply_updates Date_parse old updates) in *.
    destruct C as [(R & -> & _) | [(R & N & -> & _) | (pt' & R & N & -> & _)]].
    + (* not requested, hence nothing the evaluator reads was changed *)
      unfold merged in Fp. rewrite apply_updates_patientId in Fp.
      destruct (Cur old pt F Fp) as (flag & E). exists flag.
      unfold merged. rewrite apply_updates_anomalies, <- E.
      rewrite R in T. unfold touches_trigger_field in T.
      apply orb_false_iff in T as (T & T3). apply orb_false_iff in T as (T1 & T2).
      apply evaluate_same_inputs; try reflexivity; unfold apply_updates;
        destruct (upd_endTime updates); try discriminate T3;
        destruct (upd_postWeight updates); try discriminate T1;
        destruct (upd_nurseNotes updates), (upd_status updates),
          (upd_vitals updates) as [ | | v]; try reflexivity;
        destruct (upd_post v); try discriminate T2; reflexivity.
    + unfold merged in Fp. rewrite apply_updates_patientId in Fp. congruence.
    + cbn [set_anomalies patientId] in Fp.
      unfold merged in Fp. rewrite apply_updates_patientId in Fp.
      rewrite N in Fp. injection Fp as <-.
      eexists. rewrite evaluate_checks. reflexivity.
  - unfold patch_session. rewrite F. exact Cur.
Qed.

End UpdateHandlerMore.

Lemma update_response_stored_witness :
  let updates := with_endTime (Value "2024-01-01T10:00:00.000Z") in
  let out := patch_session parse_fixture accept_all clinic "s1" updates in
  exists session,
    response out = Updated session true
    /\ findById (database out) "s1" = Some session
    /\ session_anomalies session
       = ["Short session duration: 120 minutes (minimum: 150 minutes)"].
Proof.
  cbv zeta. eexists. split; [ vm_compute; reflexivity | ].
  split; [ | reflexivity ].
  eapply (update_response_stored parse_fixture accept_all clinic "s1"
            (with_endTime (Value "2024-01-01T10:00:00.000Z"))).
  vm_compute. reflexivity.
Defined.

Lemma update_unread_fields_witness :
  let out := patch_session parse_fixture accept_all clinic "s1"
               (with_postWeight (Value 70.5%float)) in
  evaluated out = Some {| hasAnomalies := false; anomalies := [] |}
  /\ evaluate (mockSession 72 None None) mockPatient
     = Normal {| hasAnomalies := false; anomalies := [] |}.
Proof.
  cbv zeta. split; [ vm_compute; reflexivity | ].
  destruct (update_unread_fields parse_fixture accept_all clinic "s1"
              (with_postWeight (Value 70.5%float)) (mockSession 72 None None)
              {| hasAnomalies := false; anomalies := [] |})
    as (patient & P & E).
  - reflexivity.
  - reflexivity.
  - intros v H. discriminate H.
  - vm_compute. reflexivity.
  - injection P as <-. exact E.
Defined.


Lemma clinic_current : anomalies_current clinic "s1".
Proof.
  intros session patient F P. vm_compute in F. injection F as <-.
  vm_compute in P. injection P as <-.
  exists false. vm_compute. reflexivity.
Qed.

Lemma update_keeps_current_witness :
  anomalies_current
    (database (patch_session parse_fixture accept_all clinic "s1"
                 (with_endTime (Value "2024-01-01T10:00:00.000Z")))) "s1".
Proof.
  apply update_keeps_current; [ reflexivity | exact clinic_current ].
Defined.

(** * The session-create handler *)

Lemma find_app_fresh (id : string) (s : ISession) (l : list (string * ISession)) :
  find (fun kv => String.eqb (fst kv) id) l = None ->
  find (fun kv => String.eqb (fst kv) id) (l ++ [(id, s)]) = Some (id, s).
Proof.
  induction l as [ | [k old] rest IH]; cbn [find app fst].
  - intros _. now rewrite String.eqb_refl.
  - destruct (String.eqb k id); [ discriminate | exact IH ].
Qed.

Lemma find_app_kept (id id' : string) (s : ISession) (l : list (string * ISession)) :
  find (fun kv => String.eqb (fst kv) id') l <> None \/ id' <> id ->
  find (fun kv => String.eqb (fst kv) id') (l ++ [(id, s)])
  = find (fun kv => String.eqb (fst kv) id') l.
Proof.
  induction l as [ | [k old] rest IH]; cbn [find app fst].
  - intros [H | H]; [ congruence | ].
    replace (String.eqb id id') with false; [ reflexivity | ].
    symmetry. apply String.eqb_neq. congruence.
  - destruct (String.eqb k id'); [ reflexivity | exact IH ].
Qed.

Lemma insert_session_spec (db db' : Database) (id : string) (s : ISession) :
  insert_session db id s = Some db' ->
  findById db id = None
  /\ findById db' id = Some s
  /\ patients db' = patients db
  /\ (forall id', id' <> id -> findById db' id' = findById db id')
  /\ (forall id' s', findById db id' = Some s' -> findById db' id' = Some s').
Proof.
  unfold insert_session. destruct (findById db id) eqn:F; [ discriminate | ].
  intros E. injection E as <-.
  assert (N : find (fun kv => String.eqb (fst kv) id) (sessions db) = None).
  { unfold findById in F. destruct (find _ (sessions db)); [ cbn in F; discriminate F | reflexivity ]. }
  unfold findById. cbn [sessions patients].
  split; [ reflexivity | ].
  split; [ now rewrite find_app_fresh | ].
  split; [ reflexivity | ].
  split.
  - intros id' Hne. now rewrite find_app_kept by now right.
  - intros id' s' H. rewrite find_app_kept; [ exact H | ].
    left. intros C. rewrite C in H. discriminate H.
Qed.

Lemma truthy_text_none (x : Field string) :
  truthy_text x = None <-> x = Undefined \/ x = Null \/ x = Value "".
Proof.
  destruct x as [ | | t]; cbn [truthy_text]; try (split; auto; fail).
  destruct (String.eqb_spec t ""); split; intros H; try discriminate; auto.
  - subst. auto.
  - destruct H as [H | [H | H]]; congruence.
Qed.

Section CreateHandlerFacts.

Variable Date_parse : string -> Date.
Variable validates : ISession -> bool.

Lemma create_session_cases (db : Database) (id : string) (now : Date)
    (body : CreateSessionRequest) :
  let out := create_session Date_parse validates db id now body in
  (out = {| create_response := MissingFields; create_database := db;
            create_evaluated := None |}
   /\ (truthy_text (req_patientId body) = None
       \/ truthy_text (req_scheduledDate body) = None
       \/ truthy_text (req_startTime body) = None
       \/ truthy_number (req_preWeight body) = None
       \/ truthy_text (req_machineId body) = None))
  \/ exists patient_id scheduled start pre_weight machine,
       truthy_text (req_patientId body) = Some patient_id
       /\ truthy_text (req_scheduledDate body) = Some scheduled
       /\ truthy_text (req_startTime body) = Some start
       /\ truthy_number (req_preWeight body) = Some pre_weight
       /\ truthy_text (req_machineId body) = Some machine
       /\ ((findOne db patient_id = None
            /\ out = {| create_response := PatientNotFound; create_database := db;
                        create_evaluated := None |})
           \/ exists patient,
                findOne db patient_id = Some patient
                /\ let draft := session_of_body Date_parse body patient_id scheduled start
                                  machine pre_weight now in
                   let pw := {| dryWeight := IPatient.dryWeight patient |} in
                   let r := {| hasAnomalies := (0 <? List.length (checks draft pw))%nat;
                               anomalies := checks draft pw |} in
                   let session := set_anomalies draft (checks draft pw) in
                   out = (if validates session then
                            match insert_session db id session with
                            | Some db' =>
                                {| create_response := Created id session (hasAnomalies r);
                                   create_database := db';
                                   create_evaluated := Some r |}
                            | None =>
                                {| create_response := CreateFailed; create_database := db;
                                   create_evaluated := Some r |}
                            end
                          else {| create_response := CreateValidationFailed;
                                  create_database := db;
                                  create_evaluated := Some r |})).
Proof.
  cbv zeta. unfold create_session.
  destruct (truthy_text (req_patientId body)) as [patient_id | ]; [ | left; auto ].
  destruct (truthy_text (req_scheduledDate body)) as [scheduled | ]; [ | left; auto ].
  destruct (truthy_text (req_startTime body)) as [start | ]; [ | left; auto ].
  destruct (truthy_number (req_preWeight body)) as [pre_weight | ];
    [ | left; split; [ reflexivity | auto ] ].
  destruct (truthy_text (req_machineId body)) as [machine | ];
    [ | left; split; [ reflexivity | tauto ] ].
  right. exists patient_id, scheduled, start, pre_weight, machine.
  repeat (split; [ reflexivity | ]).
  destruct (findOne db patient_id) as [patient | ]; [ right | left; auto ].
  exists patient. split; [ reflexivity | ].
  rewrite detectAnomalies_run. reflexivity.
Qed.


(** X11. The guard of the create handler.  The request is answered 400
    exactly when one of [patientId], [scheduledDate], [startTime],
    [preWeight], [machineId] is falsy, and then nothing is written and the
    evaluator is not called.  Truthiness makes a [preWeight] of [0] a
    missing field. *)
Theorem create_requires_fields (db : Database) (id : string) (now : Date)
    (body : CreateSessionRequest) :
  let out := create_session Date_parse validates db id now body in
  (create_response out = MissingFields <->
   truthy_text (req_patientId body) = None
   \/ truthy_text (req_scheduledDate body) = None
   \/ truthy_text (req_startTime body) = None
   \/ truthy_number (req_preWeight body) = None
   \/ truthy_text (req_machineId body) = None)
  /\ (create_response out = MissingFields ->
      create_database out = db /\ create_evaluated out = None)
  /\ (req_preWeight body = Value 0%float -> create_response out = MissingFields).
Proof.
  cbv zeta.
  destruct (create_session_cases db id now body)
    as [(E & M) | (pid & sd & st & pw & mc & E1 & E2 & E3 & E4 & E5 & C)].
  - rewrite E. cbn [create_response create_database create_evaluated].
    split; [ tauto | ]. split; [ auto | reflexivity ].
  - assert (N : create_response (create_session Date_parse validates db id now body)
                <> MissingFields).
    { destruct C as [(_ & ->) | (pt & _ & ->)]; cbn [create_response]; [ discriminate | ].
      destruct (validates _); [ destruct (insert_session _ _ _) | ];
        cbn [create_response]; discriminate. }
    split; [ | split ].
    + split; [ tauto | ].
      rewrite E1, E2, E3, E4, E5. intros [H | [H | [H | [H | H]]]]; discriminate H.
    + tauto.
    + intros H. rewrite H in E4. discriminate E4.
Qed.

(** X12. What a 201 means.  The session returned is stored under the new
    [_id], which was free; it passed validation; its patient exists; its
    [preWeight] is truthy; its status is the requested one, or
    [in_progress] (not the schema's default) when none was requested; and
    its anomaly list and the [hasAnomalies] of the response are the
    evaluator's result for that very session and the patient's dry
    weight. *)
Theorem create_stores_evaluation (db : Database) (id : string) (now : Date)
    (body : CreateSessionRequest) (id' : string) (session : ISession) (flag : bool) :
  let out := create_session Date_parse validates db id now body in
  create_response out = Created id' session flag ->
  id' = id
  /\ findById db id = None
  /\ findById (create_database out) id = Some session
  /\ validates session = true
  /\ ToBoolean (preWeight session) = true
  /\ status session = match req_status body with
                      | Some st => st
                      | None => in_progress
                      end
  /\ create_evaluated out
     = Some {| hasAnomalies := flag; anomalies := session_anomalies session |}
  /\ exists patient,
       findOne db (patientId session) = Some patient
       /\ evaluate session {| dryWeight := IPatient.dryWeight patient |}
          = Normal {| hasAnomalies := flag; anomalies := session_anomalies session |}.
Proof.
  cbv zeta.
  destruct (create_session_cases db id now body)
    as [(-> & _) | (pid & sd & st & pw & mc & E1 & E2 & E3 & E4 & E5 & C)];
    [ discriminate | ].
  destruct C as [(_ & ->) | (pt & P & ->)]; [ discriminate | ]. cbv zeta.
  set (draft := session_of_body Date_parse body pid sd st mc pw now).
  set (dw := {| dryWeight := IPatient.dryWeight pt |}).
  destruct (validates (set_anomalies draft (checks draft dw))) eqn:V;
    [ | discriminate ].
  destruct (insert_session db id (set_anomalies draft (checks draft dw))) as [db' | ] eqn:I;
    [ | discriminate ].
  cbn [create_response create_database create_evaluated hasAnomalies].
  intros E. injection E as <- <- <-.
  destruct (insert_session_spec _ _ _ _ I) as (I1 & I2 & _).
  repeat (split; [ solve [ auto ] | ]).
  split.
  { cbn [set_anomalies preWeight draft session_of_body].
    unfold truthy_number in E4. destruct (req_preWeight body) as [ | | n]; try discriminate.
    destruct (ToBoolean n) eqn:T; [ | discriminate ]. injection E4 as <-. exact T. }
  split; [ reflexivity | ]. split; [ reflexivity | ].
  exists pt. split; [ exact P | ].
  rewrite evaluate_checks. reflexivity.
Qed.

(** X13. What a create cannot do.  It never touches the patients; it never
    changes or replaces a session that is stored, whatever [_id] the new
    document is given; and unless the answer is 201 it writes nothing. *)
Theorem create_frame (db : Database) (id : string) (now : Date)
    (body : CreateSessionRequest) :
  let out := create_session Date_parse validates db id now body in
  patients (create_database out) = patients db
  /\ (forall id' s, findById db id' = Some s ->
      findById (create_database out) id' = Some s)
  /\ (forall id', id' <> id -> findById (create_database out) id' = findById db id')
  /\ ((forall s flag, create_response out <> Created id s flag) ->
      create_database out = db).
Proof.
  cbv zeta.
  destruct (create_session_cases db id now body)
    as [(-> & _) | (pid & sd & st & pw & mc & _ & _ & _ & _ & _ & C)];
    [ cbn [create_database]; auto | ].
  destruct C as [(_ & ->) | (pt & _ & ->)]; [ cbn [create_database]; auto | ]. cbv zeta.
  destruct (validates _); [ | cbn [create_database]; auto ].
  destruct (insert_session _ _ _) as [db' | ] eqn:I; [ | cbn [create_database]; auto ].
  cbn [create_database create_response].
  destruct (insert_session_spec _ _ _ _ I) as (_ & _ & I3 & I4 & I5).
  split; [ exact I3 | ]. split; [ exact I5 | ]. split; [ exact I4 | ].
  intros H. exfalso. eapply H. reflexivity.
Qed.

End CreateHandlerFacts.

Lemma create_stores_evaluation_witness :
  let out := create_session parse_fixture accept_all clinic "s2" (date t_0800)
               create_fixture in
  stored_anomalies (create_database out) "s2"
  = Some ["Excess interdialytic weight gain: 5.00 kg (7.1% of dry weight)"].
Proof.
  cbv zeta.
  pose (session :=
          set_anomalies
            (session_of_body parse_fixture create_fixture "P001"
               "2024-01-01T10:00:00.000Z" "2024-01-01T10:00:00.000Z" "M-02" 75 (date t_0800))
            ["Excess interdialytic weight gain: 5.00 kg (7.1% of dry weight)"]).
  destruct (create_stores_evaluation parse_fixture accept_all clinic "s2" (date t_0800)
              create_fixture "s2" session true) as (_ & _ & F & _).
  - vm_compute. reflexivity.
  - unfold stored_anomalies. rewrite F. reflexivity.
Defined.

(** * Today's schedule *)

Lemma In_insert_sorted (x a : string * ISession) (l : list (string * ISession)) :
  In x (insert_sorted a l) <-> x = a \/ In x l.
Proof.
  induction l as [ | y rest IH]; cbn [insert_sorted].
  - cbn [In]. intuition congruence.
  - destruct (schedule_leb a y); cbn [In] in *; [ intuition congruence | ].
    rewrite IH. intuition congruence.
Qed.

Lemma In_sort_schedule (x : string * ISession) (l : list (string * ISession)) :
  In x (sort_schedule l) <-> In x l.
Proof.
  induction l as [ | a rest IH]; cbn [sort_schedule fold_right]; [ reflexivity | ].
  fold (sort_schedule rest). rewrite In_insert_sorted, IH. cbn [In]. intuition congruence.
Qed.

Lemma In_not_null {A} (a : A) (l : list (option A)) :
  In a (not_null l) <-> In (Some a) l.
Proof.
  induction l as [ | [b | ] rest IH]; cbn [not_null In]; [ tauto | | ].
  - rewrite IH. intuition congruence.
  - rewrite IH. intuition congruence.
Qed.

Lemma key_compare_refl k : key_compare k k = Eq.
Proof. destruct k; cbn; [ apply Z.compare_refl | reflexivity ]. Qed.

Lemma key_compare_antisym a b : key_compare b a = CompOpp (key_compare a b).
Proof. destruct a, b; cbn; try reflexivity. apply Z.compare_antisym. Qed.

Lemma key_compare_eq a b : key_compare a b = Eq -> a = b.
Proof.
  destruct a, b; cbn; try discriminate; [ | reflexivity ].
  intros H. apply Z.compare_eq in H. now subst.
Qed.

Lemma key_compare_lt_trans a b c :
  key_compare a b = Lt -> key_compare b c = Lt -> key_compare a c = Lt.
Proof.
  destruct a, b, c; cbn; try discriminate; try reflexivity.
  rewrite !Z.compare_lt_iff. lia.
Qed.

Lemma schedule_compare_antisym a b :
  schedule_compare b a = CompOpp (schedule_compare a b).
Proof.
  unfold schedule_compare.
  rewrite (key_compare_antisym (date_key (scheduledDate a))).
  rewrite (key_compare_antisym (date_key (startTime a))).
  destruct (key_compare (date_key (scheduledDate a)) (date_key (scheduledDate b)));
    reflexivity.
Qed.

Lemma schedule_leb_total a b : schedule_leb a b = false -> schedule_leb b a = true.
Proof.
  unfold schedule_leb. rewrite (schedule_compare_antisym (snd a) (snd b)).
  destruct (schedule_compare (snd a) (snd b)); cbn; congruence.
Qed.

Lemma schedule_leb_trans a b c :
  schedule_leb a b = true -> schedule_leb b c = true -> schedule_leb a c = true.
Proof.
  unfold schedule_leb, schedule_compare.
  destruct (key_compare (date_key (scheduledDate (snd a)))
              (date_key (scheduledDate (snd b)))) eqn:E1;
    destruct (key_compare (date_key (scheduledDate (snd b)))
                (date_key (scheduledDate (snd c)))) eqn:E2;
    try discriminate;
    try (apply key_compare_eq in E1; rewrite E1);
    try (apply key_compare_eq in E2; rewrite <- ?E2);
    rewrite ?E1, ?E2, ?key_compare_refl; try reflexivity.
  - destruct (key_compare (date_key (startTime (snd a)))
                (date_key (startTime (snd b)))) eqn:F1;
      destruct (key_compare (date_key (startTime (snd b)))
                  (date_key (startTime (snd c)))) eqn:F2;
      try discriminate;
      try (apply key_compare_eq in F1; rewrite F1);
      try (apply key_compare_eq in F2; rewrite <- ?F2);
      rewrite ?F1, ?F2, ?key_compare_refl; try reflexivity.
    now rewrite (key_compare_lt_trans _ _ _ F1 F2).
  - now rewrite (key_compare_lt_trans _ _ _ E1 E2).
Qed.

Lemma insert_sorted_sorted a l :
  StronglySorted (fun x y => schedule_leb x y = true) l ->
  StronglySorted (fun x y => schedule_leb x y = true) (insert_sorted a l).
Proof.
  induction l as [ | y rest IH]; cbn [insert_sorted]; intros S.
  - constructor; constructor.
  - inversion S as [ | y' rest' Sr Fy]; subst.
    destruct (schedule_leb a y) eqn:L.
    + constructor; [ exact S | ]. constructor; [ exact L | ].
      eapply Forall_impl; [ | exact Fy ]. intros z Hz.
      eapply schedule_leb_trans; eauto.
    + constructor; [ auto | ].
      apply Forall_forall. intros z Hz. apply In_insert_sorted in Hz as [-> | Hz].
      * now apply schedule_leb_total.
      * rewrite Forall_forall in Fy. auto.
Qed.

Lemma sort_schedule_sorted l :
  StronglySorted (fun x y => schedule_leb x y = true) (sort_schedule l).
Proof.
  induction l as [ | a rest IH]; cbn [sort_schedule fold_right]; [ constructor | ].
  now apply insert_sorted_sorted.
Qed.

Lemma other_unit_false (u : option string) (patient : IPatient.t) :
  other_unit u patient = false <->
  (forall x, u = Some x -> x <> "" -> IPatient.unit patient = x).
Proof.
  unfold other_unit. destruct u as [x | ]; [ | split; [ discriminate | reflexivity ] ].
  destruct (String.eqb_spec x ""), (String.eqb_spec (IPatient.unit patient) x);
    cbn [negb andb]; split; intros H; try reflexivity; try discriminate.
  - intros y E. injection E as <-. congruence.
  - intros y E. injection E as <-. congruence.
  - intros y E. injection E as <-. auto.
  - exfalso. apply n0. auto.
Qed.

Lemma hidden_without_anomalies_false (only : option string) (session : ISession) :
  hidden_without_anomalies only session = false <->
  (only = Some "true" -> session_anomalies session <> []).
Proof.
  unfold hidden_without_anomalies. destruct only as [flag | ];
    [ | split; [ discriminate | reflexivity ] ].
  destruct (String.eqb_spec flag "true") as [-> | Hne]; cbn [andb].
  - destruct (session_anomalies session); cbn; split; intros H; try discriminate; auto.
    exfalso. now apply H.
  - split; [ | reflexivity ]. intros _ E. congruence.
Qed.

Lemma entry_leb_for kv kv' patient patient' :
  entry_leb (entry_for kv patient) (entry_for kv' patient') = schedule_leb kv kv'.
Proof.
  unfold entry_leb, schedule_leb, schedule_compare, entry_for.
  cbn [ScheduleEntry.scheduledDate ScheduleEntry.startTime].
  destruct (key_compare (date_key (scheduledDate (snd kv)))
              (date_key (scheduledDate (snd kv')))); reflexivity.
Qed.

Lemma schedule_entry_some db query kv e :
  schedule_entry db query kv = Some e <->
  exists patient,
    findOne db (patientId (snd kv)) = Some patient
    /\ other_unit (q_unit query) patient = false
    /\ hidden_without_anomalies (q_anomaliesOnly query) (snd kv) = false
    /\ e = entry_for kv patient.
Proof.
  unfold schedule_entry.
  destruct (findOne db (patientId (snd kv))) as [patient | ].
  - destruct (other_unit (q_unit query) patient) eqn:U;
      [ | destruct (hidden_without_anomalies (q_anomaliesOnly query) (snd kv)) eqn:H ];
      split; try discriminate;
      try (intros (pt & E & U' & H' & _); injection E as <-; congruence).
    + intros E. injection E as <-. exists patient. auto.
    + intros (pt & E & _ & _ & ->). injection E as <-. reflexivity.
  - split; [ discriminate | ]. intros (pt & E & _). discriminate.
Qed.

Section TodayHandlerFacts.

Variable toISOString : Z -> string.

(** X14. Which sessions today's schedule lists: exactly those stored
    sessions whose [scheduledDate] lies in [[today, tomorrow)], whose
    patient is found (a session without one is dropped silently), whose
    patient is in the unit asked for when a non-empty [unit] is given, and
    which have an anomaly when [anomaliesOnly] is the string ["true"].
    Each is listed with its [_id], its patient and its stored anomaly list,
    and with [hasAnomalies] computed from that list. *)
Theorem today_schedule_lists (db : Database) (today tomorrow : Z) (query : TodayQuery)
    (e : ScheduleEntry.t) :
  In e (schedule_sessions (today_schedule toISOString db today tomorrow query)) <->
  exists id session patient,
    In (id, session) (sessions db)
    /\ scheduled_within today tomorrow (scheduledDate session) = true
    /\ findOne db (patientId session) = Some patient
    /\ (forall u, q_unit query = Some u -> u <> "" -> IPatient.unit patient = u)
    /\ (q_anomaliesOnly query = Some "true" -> session_anomalies session <> [])
    /\ e = entry_for (id, session) patient
    /\ ScheduleEntry.id e = id
    /\ ScheduleEntry.anomalies e = session_anomalies session
    /\ ScheduleEntry.hasAnomalies e = negb (Nat.eqb (List.length (session_anomalies session)) 0).
Proof.
  unfold today_schedule. cbn [schedule_sessions].
  rewrite In_not_null, in_map_iff. split.
  - intros ([id session] & E & I).
    apply In_sort_schedule, filter_In in I as (I & W). cbn [snd] in W.
    apply schedule_entry_some in E as (patient & P & U & H & ->). cbn [snd] in *.
    exists id, session, patient.
    split; [ exact I | ]. split; [ exact W | ]. split; [ exact P | ].
    split; [ now apply other_unit_false | ].
    split; [ now apply hidden_without_anomalies_false | ].
    split; [ reflexivity | ]. split; [ reflexivity | ]. split; [ reflexivity | ].
    cbn. now destruct (session_anomalies session).
  - intros (id & session & patient & I & W & P & U & H & -> & _).
    exists (id, session). split.
    + apply schedule_entry_some. exists patient. cbn [snd].
      split; [ exact P | ]. split; [ now apply other_unit_false | ].
      split; [ now apply hidden_without_anomalies_false | reflexivity ].
    + apply In_sort_schedule, filter_In. auto.
Qed.

Lemma not_null_sorted (f : string * ISession -> option ScheduleEntry.t)
    (l : list (string * ISession)) :
  (forall kv e, f kv = Some e -> exists patient, e = entry_for kv patient) ->
  StronglySorted (fun x y => schedule_leb x y = true) l ->
  StronglySorted (fun a b => entry_leb a b = true) (not_null (map f l)).
Proof.
  intros Hf S. induction S as [ | a rest S IH Fa]; cbn [map not_null]; [ constructor | ].
  destruct (f a) as [e | ] eqn:E; [ | exact IH ].
  constructor; [ exact IH | ].
  apply Forall_forall. intros e' I.
  apply In_not_null, in_map_iff in I as (kv' & E' & I').
  destruct (Hf _ _ E) as (pt & ->). destruct (Hf _ _ E') as (pt' & ->).
  rewrite entry_leb_for. rewrite Forall_forall in Fa. auto.
Qed.

(** X15. Today's schedule is in the order of the query: ascending by
    [scheduledDate], and by [startTime] among sessions scheduled for the same
    instant; the filters do not disturb it.  [count] is the number of
    sessions listed. *)
Theorem today_schedule_sorted (db : Database) (today tomorrow : Z) (query : TodayQuery) :
  let res := today_schedule toISOString db today tomorrow query in
  StronglySorted (fun a b => entry_leb a b = true) (schedule_sessions res)
  /\ schedule_count res = List.length (schedule_sessions res).
Proof.
  cbv zeta. split; [ | reflexivity ].
  unfold today_schedule. cbn [schedule_sessions].
  apply not_null_sorted; [ | apply sort_schedule_sorted ].
  intros kv e E. apply schedule_entry_some in E as (pt & _ & _ & _ & ->). eauto.
Qed.

Lemma schedule_entry_filtered (db : Database) (query : TodayQuery) (kv : string * ISession) :
  schedule_entry db query kv
  = match schedule_entry db {| q_unit := None; q_anomaliesOnly := None |} kv with
    | Some e => if entry_shown query e then Some e else None
    | None => None
    end.
Proof.
  unfold schedule_entry, entry_shown.
  cbn [q_unit q_anomaliesOnly other_unit hidden_without_anomalies].
  destruct (findOne db (patientId (snd kv))) as [patient | ]; [ | reflexivity ].
  unfold other_unit, hidden_without_anomalies, entry_for.
  cbn [ScheduleEntry.unit ScheduleEntry.patient ScheduleEntry.hasAnomalies].
  destruct (q_unit query) as [u | ];
    [ destruct (String.eqb u ""), (String.eqb (IPatient.unit patient) u) | ];
    cbn [negb andb orb]; try reflexivity;
    (destruct (q_anomaliesOnly query) as [flag | ];
     [ destruct (String.eqb flag "true"), (session_anomalies (snd kv)) | ];
     reflexivity).
Qed.

(** X16. The two filters of the query act on the unfiltered schedule: the
    response for any query is the response for the empty query with the
    entries of other units and, under [anomaliesOnly=true], the entries
    without anomalies removed, in the same order.  An empty [unit] and any
    [anomaliesOnly] other than the string ["true"] remove nothing. *)
Theorem today_filters_compose (db : Database) (today tomorrow : Z) (query : TodayQuery) :
  let everything :=
    schedule_sessions
      (today_schedule toISOString db today tomorrow
         {| q_unit := None; q_anomaliesOnly := None |}) in
  schedule_sessions (today_schedule toISOString db today tomorrow query)
  = filter (entry_shown query) everything
  /\ (forall e, q_unit query = Some "" -> q_anomaliesOnly query <> Some "true" ->
      entry_shown query e = true).
Proof.
  cbv zeta. split.
  - unfold today_schedule. cbn [schedule_sessions].
    induction (sort_schedule
                 (filter (fun kv => scheduled_within today tomorrow (scheduledDate (snd kv)))
                         (sessions db))) as [ | kv rest IH];
      cbn [map not_null filter]; [ reflexivity | ].
    rewrite (schedule_entry_filtered db query kv).
    destruct (schedule_entry db {| q_unit := None; q_anomaliesOnly := None |} kv) as [e | ];
      cbn [not_null filter]; [ | exact IH ].
    destruct (entry_shown query e); cbn [not_null]; now rewrite IH.
  - intros e U A. unfold entry_shown. rewrite U. cbn [String.eqb orb andb].
    destruct (q_anomaliesOnly query) as [flag | ]; [ | reflexivity ].
    destruct (String.eqb_spec flag "true"); [ congruence | reflexivity ].
Qed.

End TodayHandlerFacts.

(** * Registering patients, and the databases the routes produce *)

Lemma truthy_positive (x : number) :
  ToBoolean x = true -> (x <=? 0)%float = false -> (0 <? x)%float = true.
Proof.
  rewrite ToBoolean_spec, leb_spec, ltb_spec, Prim2SF_zero.
  destruct (Prim2SF x) as [s | s | | s m e]; try destruct s; cbn; congruence.
Qed.

Lemma truthy_number_some (x : Field number) (n : number) :
  truthy_number x = Some n <-> x = Value n /\ ToBoolean n = true.
Proof.
  destruct x as [ | | y]; cbn [truthy_number]; try (split; [ discriminate | intros (E & _); discriminate ]).
  destruct (ToBoolean y) eqn:T; split.
  - intros E. injection E as <-. auto.
  - intros (E & _). injection E as <-. reflexivity.
  - discriminate.
  - intros (E & T'). injection E as <-. congruence.
Qed.



Lemma findOne_app_kept (l : list IPatient.t) (p found : IPatient.t) (pid : string) :
  find (fun pt => String.eqb (IPatient.patientId pt) pid) l = Some found ->
  find (fun pt => String.eqb (IPatient.patientId pt) pid) (l ++ [p]) = Some found.
Proof.
  induction l as [ | q rest IH]; cbn [find app]; [ discriminate | ].
  destruct (String.eqb (IPatient.patientId q) pid); [ auto | exact IH ].
Qed.

Lemma findOne_none_not_in (l : list IPatient.t) (pid : string) :
  find (fun pt => String.eqb (IPatient.patientId pt) pid) l = None ->
  ~ In pid (map IPatient.patientId l).
Proof.
  induction l as [ | q rest IH]; cbn [find map In]; [ tauto | ].
  destruct (String.eqb_spec (IPatient.patientId q) pid); [ discriminate | ].
  intros H [E | I]; [ congruence | now apply IH ].
Qed.

Lemma findById_none_not_in (l : list (string * ISession)) (id : string) :
  find (fun kv => String.eqb (fst kv) id) l = None -> ~ In id (map fst l).
Proof.
  induction l as [ | q rest IH]; cbn [find map In]; [ tauto | ].
  destruct (String.eqb_spec (fst q) id); [ discriminate | ].
  intros H [E | I]; [ congruence | now apply IH ].
Qed.

Lemma NoDup_app_one {A} (l : list A) (a : A) : NoDup l -> ~ In a l -> NoDup (l ++ [a]).
Proof.
  induction 1 as [ | b rest Hb N IH]; cbn [app]; intros Ha.
  - constructor; [ tauto | constructor ].
  - constructor.
    + rewrite in_app_iff. cbn [In] in *. intuition congruence.
    + apply IH. cbn [In] in Ha. tauto.
Qed.

Lemma replace_session_keys (id : string) (s : ISession) (l : list (string * ISession)) :
  map fst (replace_session id s l) = map fst l.
Proof.
  induction l as [ | [k old] rest IH]; cbn [replace_session map fst]; [ reflexivity | ].
  destruct (String.eqb k id); cbn [map fst]; [ reflexivity | now rewrite IH ].
Qed.

Lemma replace_session_Forall (P : string * ISession -> Prop) (id : string) (s : ISession)
    (l : list (string * ISession)) :
  Forall P l -> (forall old, In (id, old) l -> P (id, s)) -> Forall P (replace_session id s l).
Proof.
  induction 1 as [ | [k old] rest Hk F IH]; cbn [replace_session]; intros Hs;
    [ constructor | ].
  destruct (String.eqb_spec k id) as [-> | Hne].
  - constructor; [ | exact F ]. apply (Hs old). now left.
  - constructor; [ exact Hk | ]. apply IH. intros o I. apply (Hs o). now right.
Qed.

Lemma findById_In (db : Database) (id : string) (s : ISession) :
  findById db id = Some s -> In (id, s) (sessions db).
Proof.
  unfold findById. destruct (find _ (sessions db)) as [[k v] | ] eqn:E; [ | discriminate ].
  cbn [option_map snd]. intros H. injection H as <-.
  apply find_some in E as (I & K). cbn [fst] in K. apply String.eqb_eq in K. now subst.
Qed.

Section PatientHandlerFacts.

Variable Date_parse : string -> Date.
Variable validates_patient : IPatient.t -> bool.

Lemma register_patient_cases (db : Database) (body : CreatePatientRequest) :
  let out := register_patient Date_parse validates_patient db body in
  (out = {| patient_response := MissingPatientFields; patient_database := db |}
   /\ (truthy_text (new_patientId body) = None \/ truthy_text (new_firstName body) = None
       \/ truthy_text (new_lastName body) = None
       \/ truthy_text (new_dateOfBirth body) = None
       \/ truthy_number (new_dryWeight body) = None
       \/ truthy_text (new_unit body) = None))
  \/ exists pid first last birth dw un,
       truthy_text (new_patientId body) = Some pid
       /\ truthy_text (new_firstName body) = Some first
       /\ truthy_text (new_lastName body) = Some last
       /\ truthy_text (new_dateOfBirth body) = Some birth
       /\ truthy_number (new_dryWeight body) = Some dw
       /\ truthy_text (new_unit body) = Some un
       /\ let patient :=
            {| IPatient.patientId := pid; IPatient.firstName := first;
               IPatient.lastName := last; IPatient.dateOfBirth := Date_parse birth;
               IPatient.dryWeight := dw; IPatient.unit := un |} in
          ((dw <=? 0)%float = true
           /\ out = {| patient_response := InvalidDryWeight; patient_database := db |})
          \/ ((dw <=? 0)%float = false /\ validates_patient patient = false
              /\ out = {| patient_response := RegistrationFailed; patient_database := db |})
          \/ ((dw <=? 0)%float = false /\ validates_patient patient = true
              /\ (exists existing, findOne db pid = Some existing)
              /\ out = {| patient_response := DuplicatePatient; patient_database := db |})
          \/ ((dw <=? 0)%float = false /\ validates_patient patient = true
              /\ findOne db pid = None
              /\ out = {| patient_response := Registered patient;
                          patient_database :=
                            {| sessions := sessions db;
                               patients := (patients db ++ [patient])%list |} |}).
Proof.
  cbv zeta. unfold register_patient.
  destruct (truthy_text (new_patientId body)) as [pid | ]; [ | left; auto ].
  destruct (truthy_text (new_firstName body)) as [first | ]; [ | left; auto ].
  destruct (truthy_text (new_lastName body)) as [last | ]; [ | left; auto ].
  destruct (truthy_text (new_dateOfBirth body)) as [birth | ];
    [ | left; split; [ reflexivity | auto ] ].
  destruct (truthy_number (new_dryWeight body)) as [dw | ];
    [ | left; split; [ reflexivity | tauto ] ].
  destruct (truthy_text (new_unit body)) as [un | ];
    [ | left; split; [ reflexivity | tauto ] ].
  right. exists pid, first, last, birth, dw, un.
  repeat (split; [ reflexivity | ]).
  destruct (dw <=? 0)%float; [ left; auto | right ].
  destruct (validates_patient _); [ right | left; auto ].
  destruct (findOne db pid) as [existing | ]; [ left | right ]; eauto 6.
Qed.



End PatientHandlerFacts.

Section ApiFacts.

Variable Date_parse : string -> Date.
Variable validates : ISession -> bool.
Variable validates_patient : IPatient.t -> bool.

Lemma register_well_formed (db : Database) (body : CreatePatientRequest) :
  well_formed db ->
  well_formed (patient_database (register_patient Date_parse validates_patient db body)).
Proof.
  intros W.
  destruct (register_patient_cases Date_parse validates_patient db body)
    as [(-> & _) | (pid & first & last & birth & dw & un
                    & _ & _ & _ & _ & E5 & _ & C)]; [ exact W | ].
  cbv zeta in C.
  destruct C as [(_ & ->) | [(_ & _ & ->) | [(_ & _ & _ & ->) | (L & V & N & ->)]]];
    try exact W.
  cbn [patient_database]. destruct W as (W1 & W2 & W3 & W4).
  apply truthy_number_some in E5 as (_ & T).
  unfold well_formed. cbn [patients sessions].
  split; [ | split; [ exact W2 | split ] ].
  - rewrite map_app. cbn [map IPatient.patientId]. apply NoDup_app_one; [ exact W1 | ].
    now apply findOne_none_not_in.
  - apply Forall_app. split; [ exact W3 | ]. constructor; [ | constructor ].
    cbn [IPatient.dryWeight]. now apply truthy_positive.
  - eapply Forall_impl; [ | exact W4 ]. intros kv (K1 & pt & K2).
    split; [ exact K1 | ]. exists pt. unfold findOne in *. cbn [patients].
    now apply findOne_app_kept.
Qed.

Lemma create_well_formed (db : Database) (id : string) (now : Date)
    (body : CreateSessionRequest) :
  well_formed db ->
  well_formed (create_database (create_session Date_parse validates db id now body)).
Proof.
  intros W.
  destruct (create_session_cases Date_parse validates db id now body)
    as [(-> & _) | (pid & sd & st & pw & mc & _ & _ & _ & E4 & _ & C)]; [ exact W | ].
  destruct C as [(_ & ->) | (pt & P & ->)]; [ exact W | ]. cbv zeta.
  destruct (validates _); [ | exact W ].
  destruct (insert_session _ _ _) as [db' | ] eqn:I; [ | exact W ].
  cbn [create_database]. unfold insert_session in I.
  destruct (findById db id) eqn:F; [ discriminate | ]. injection I as <-.
  destruct W as (W1 & W2 & W3 & W4). unfold well_formed. cbn [patients sessions].
  split; [ exact W1 | split; [ | split; [ exact W3 | ] ] ].
  - rewrite map_app. cbn [map fst]. apply NoDup_app_one; [ exact W2 | ].
    apply findById_none_not_in. unfold findById in F.
    destruct (find _ (sessions db)); [ discriminate F | reflexivity ].
  - apply Forall_app. split; [ exact W4 | ]. constructor; [ | constructor ].
    cbn [snd set_anomalies preWeight patientId session_of_body].
    apply truthy_number_some in E4 as (_ & T). split; [ exact T | ]. exists pt. exact P.
Qed.

Lemma patch_well_formed (db : Database) (id : string) (updates : UpdateSessionRequest) :
  well_formed db ->
  well_formed (database (patch_session Date_parse validates db id updates)).
Proof.
  intros W. destruct (findById db id) as [old | ] eqn:F.
  - destruct (patch_session_cases Date_parse validates db id updates old F)
      as (final & ghost & -> & C).
    destruct (validates final); cbn [database]; [ | exact W ].
    assert (K : patientId final = patientId old /\ preWeight final = preWeight old).
    { pose proof (apply_updates_kept Date_parse old updates) as (A1 & _ & _ & A4 & _).
      destruct C as [(_ & -> & _) | [(_ & _ & -> & _) | (pt & _ & _ & -> & _)]];
        cbn [set_anomalies patientId preWeight]; auto. }
    destruct K as (K1 & K2).
    destruct W as (W1 & W2 & W3 & W4). unfold well_formed, save. cbn [patients sessions].
    split; [ exact W1 | split; [ | split; [ exact W3 | ] ] ].
    + now rewrite replace_session_keys.
    + apply replace_session_Forall; [ exact W4 | ].
      intros _ _. cbn [snd]. rewrite K1, K2.
      rewrite Forall_forall in W4. exact (W4 _ (findById_In _ _ _ F)).
  - unfold patch_session. rewrite F. exact W.
Qed.

Lemma reachable_well_formed (db : Database) :
  reachable Date_parse validates validates_patient db -> well_formed db.
Proof.
  induction 1 as [ | db db' R IH S].
  - repeat split; constructor.
  - destruct S.
    + now apply register_well_formed.
    + now apply create_well_formed.
    + now apply patch_well_formed.
Qed.

(** X19. Invariants of the databases that the three writing routes (register
    a patient, create a session, update a session) produce from an empty
    one, whatever the requests: no two patients share a [patientId] and no
    two sessions an [_id]; every patient's dry weight is strictly positive;
    every session has a truthy [preWeight] and a patient that is found. *)
Theorem reachable_invariant (db : Database) :
  reachable Date_parse validates validates_patient db ->
  NoDup (map IPatient.patientId (patients db))
  /\ NoDup (map fst (sessions db))
  /\ (forall pid patient, findOne db pid = Some patient ->
      (0 <? IPatient.dryWeight patient)%float = true)
  /\ (forall id session, findById db id = Some session ->
      ToBoolean (preWeight session) = true
      /\ exists patient, findOne db (patientId session) = Some patient).
Proof.
  intros R. destruct (reachable_well_formed db R) as (W1 & W2 & W3 & W4).
  split; [ exact W1 | ]. split; [ exact W2 | ]. split.
  - intros pid patient F. unfold findOne in F. apply find_some in F as (I & _).
    rewrite Forall_forall in W3. auto.
  - intros id session F. apply findById_In in F.
    rewrite Forall_forall in W4. exact (W4 _ F).
Qed.

(** X20. On such a database the guard [if (patient)] of the update handler
    always passes and the weight check is never skipped: an update of a
    stored session whose payload has a [postWeight], a [vitals.post] object
    or a non-empty [endTime] calls the evaluator, with a truthy [preWeight]
    and a positive dry weight, and a response 200 carries and stores the
    evaluator's list. *)
Theorem reachable_update_evaluates (db : Database) (id : string)
    (updates : UpdateSessionRequest) (old : ISession) :
  reachable Date_parse validates validates_patient db ->
  findById db id = Some old ->
  reevaluation_requested updates = true ->
  let out := patch_session Date_parse validates db id updates in
  let merged := apply_updates Date_parse old updates in
  exists patient r,
    findOne db (patientId old) = Some patient
    /\ (0 <? IPatient.dryWeight patient)%float = true
    /\ ToBoolean (preWeight merged) = true
    /\ evaluate merged {| dryWeight := IPatient.dryWeight patient |} = Normal r
    /\ evaluated out = Some r
    /\ (forall session flag, response out = Updated session flag ->
        session_anomalies session = anomalies r
        /\ stored_anomalies (database out) id = Some (anomalies r)).
Proof.
  intros R F Q. cbv zeta.
  destruct (reachable_well_formed db R) as (_ & _ & W3 & W4).
  rewrite Forall_forall in W3, W4.
  destruct (W4 _ (findById_In _ _ _ F)) as (T & pt & P). cbn [snd] in T, P.
  assert (D : (0 <? IPatient.dryWeight pt)%float = true).
  { unfold findOne in P. apply find_some in P as (I & _). auto. }
  destruct (patch_session_cases Date_parse validates db id updates old F)
    as (final & ghost & -> & C).
  destruct C as [(Q' & _) | [(_ & N & _) | (pt' & _ & P' & -> & ->)]]; try congruence.
  rewrite P in P'. injection P' as <-.
  eexists pt, _. split; [ exact P | ]. split; [ exact D | ].
  split; [ now rewrite (proj1 (proj2 (proj2 (proj2 (apply_updates_kept Date_parse old updates))))) | ].
  split; [ apply evaluate_checks | ].
  destruct (validates _); cbn [evaluated response database].
  - split; [ reflexivity | ]. intros session flag E. injection E as <- _.
    split; [ reflexivity | ].
    unfold stored_anomalies. now rewrite (findById_save _ _ _ _ F).
  - split; [ reflexivity | ]. discriminate.
Qed.

End ApiFacts.


Lemma opened_clinic_reachable :
  reachable parse_fixture accept_all accept_patient opened_clinic.
Proof.
  eapply reachable_step; [ | apply step_create ].
  eapply reachable_step; [ apply reachable_empty | apply step_register ].
Qed.

Lemma reachable_invariant_witness :
  NoDup (map fst (sessions opened_clinic))
  /\ NoDup (map IPatient.patientId (patients opened_clinic)).
Proof.
  destruct (reachable_invariant parse_fixture accept_all accept_patient opened_clinic)
    as (N1 & N2 & _).
  - eapply reachable_step; [ | apply step_create ].
    eapply reachable_step; [ apply reachable_empty | apply step_register ].
  - split; assumption.
Defined.

Lemma reachable_update_evaluates_witness :
  exists r,
    evaluated (patch_session parse_fixture accept_all opened_clinic "s2"
                 (with_postWeight (Value 70.5%float))) = Some r
    /\ anomalies r = ["Excess interdialytic weight gain: 5.00 kg (7.1% of dry weight)"].
Proof.
  pose (old :=
          set_anomalies
            (session_of_body parse_fixture create_fixture "P001"
               "2024-01-01T10:00:00.000Z" "2024-01-01T10:00:00.000Z" "M-02" 75 (date t_0800))
            ["Excess interdialytic weight gain: 5.00 kg (7.1% of dry weight)"]).
  destruct (reachable_update_evaluates parse_fixture accept_all accept_patient
              opened_clinic "s2" (with_postWeight (Value 70.5%float)) old)
    as (patient & r & P & _ & _ & E & Ev & _).
  - exact opened_clinic_reachable.
  - vm_compute. reflexivity.
  - reflexivity.
  - exists r. split; [ exact Ev | ].
    vm_compute in P. injection P as <-.
    assert (E' : evaluate (apply_updates parse_fixture old (with_postWeight (Value 70.5%float)))
                   {| dryWeight := 70.0%float |}
                 = Normal {| hasAnomalies := true;
                             anomalies :=
                               ["Excess interdialytic weight gain: 5.00 kg (7.1% of dry weight)"] |})
      by (vm_compute; reflexivity).
    cbn [IPatient.dryWeight] in E. rewrite E' in E. injection E as <-. reflexivity.
Defined.

Lemma positive_not_negative (x : number) :
  (0 <? x)%float = true -> (x <? 0)%float = false.
Proof.
  rewrite !ltb_spec, Prim2SF_zero.
  destruct (Prim2SF x) as [s | s | | s m e]; try destruct s; cbn; congruence.
Qed.

(** X26. The weight rule on the data the routes produce.  For a stored
    session and its patient on a database produced by the routes, the
    weight check is never skipped and needs no side condition: the
    weight-gain anomaly is emitted exactly when
    [(preWeight - dryWeight) / dryWeight > 0.05], and never when
    [preWeight <= dryWeight]. *)
Theorem reachable_weight_rule (Date_parse : string -> Date)
    (validates : ISession -> bool) (validates_patient : IPatient.t -> bool)
    (db : Database) (id : string) (session : ISession) (patient : IPatient.t) :
  reachable Date_parse validates validates_patient db ->
  findById db id = Some session ->
  findOne db (patientId session) = Some patient ->
  let p := {| dryWeight := IPatient.dryWeight patient |} in
  ToBoolean (preWeight session) = true
  /\ ToBoolean (dryWeight p) = true
  /\ ((exists a, emits session p a /\ is_weight_gain_anomaly a = true) <->
      (0.05 <? (preWeight session - dryWeight p) / dryWeight p)%float = true)
  /\ ((preWeight session <=? dryWeight p)%float = true ->
      forall a, emits session p a -> is_weight_gain_anomaly a = false).
Proof.
  intros R F P p.
  destruct (reachable_well_formed Date_parse validates validates_patient db R)
    as (_ & _ & W3 & W4).
  rewrite Forall_forall in W3, W4.
  destruct (W4 _ (findById_In _ _ _ F)) as (T & _). cbn [snd] in T.
  assert (D : (0 <? dryWeight p)%float = true).
  { unfold findOne in P. apply find_some in P as (I & _). exact (W3 _ I). }
  pose proof (weight_active_positive_dry session p D) as A.
  split; [ exact T | ]. split; [ now apply positive_truthy | ]. split.
  - rewrite <- A. split.
    + intros (a & H). apply emitted_weight, in_weight_check in H. tauto.
    + intros H. eexists. apply emitted_weight, in_weight_check.
      split; [ exact H | reflexivity ].
  - intros Hle a E.
    destruct (is_weight_gain_anomaly a) eqn:K; [ exfalso | reflexivity ].
    pose proof (proj1 (emitted_weight session p a) (conj E K)) as H.
    apply in_weight_check in H as (B & _). rewrite A in B.
    rewrite (no_gain_below _ _ Hle (positive_not_negative _ D) (positive_truthy _ D)) in B.
    discriminate B.
Qed.

Lemma reachable_weight_rule_witness :
  exists a,
    emits (set_anomalies
             (session_of_body parse_fixture create_fixture "P001"
                "2024-01-01T10:00:00.000Z" "2024-01-01T10:00:00.000Z" "M-02" 75
                (date t_0800))
             ["Excess interdialytic weight gain: 5.00 kg (7.1% of dry weight)"])
          {| dryWeight := 70.0%float |} a
    /\ is_weight_gain_anomaly a = true.
Proof.
  pose (patient :=
          {| IPatient.patientId := "P001"; IPatient.firstName := "John";
             IPatient.lastName := "Doe";
             IPatient.dateOfBirth := parse_fixture "1980-05-15";
             IPatient.dryWeight := 70.0%float; IPatient.unit := "Unit-A" |}).
  refine (proj2 (proj1 (proj2 (proj2 (reachable_weight_rule parse_fixture accept_all
                                        accept_patient opened_clinic "s2" _ patient
                                        opened_clinic_reachable _ _)))) _).
  - vm_compute. reflexivity.
  - vm_compute. reflexivity.
  - vm_compute. reflexivity.
Defined.

(** * From a write to the schedule *)

Lemma listed_in_schedule (toISOString : Z -> string) (db : Database) (today tomorrow : Z)
    (only : option string) (id : string) (session : ISession) (patient : IPatient.t) :
  findById db id = Some session ->
  findOne db (patientId session) = Some patient ->
  scheduled_within today tomorrow (scheduledDate session) = true ->
  (only = Some "true" -> session_anomalies session <> []) ->
  In (entry_for (id, session) patient)
     (schedule_sessions
        (today_schedule toISOString db today tomorrow
           {| q_unit := None; q_anomaliesOnly := only |})).
Proof.
  intros F P W A. unfold today_schedule. cbn [schedule_sessions].
  apply In_not_null, in_map_iff. exists (id, session). split.
  - apply schedule_entry_some. exists patient. cbn [snd q_unit q_anomaliesOnly].
    split; [ exact P | ]. split; [ reflexivity | ].
    split; [ now apply hidden_without_anomalies_false | reflexivity ].
  - apply In_sort_schedule, filter_In. split; [ now apply findById_In | exact W ].
Qed.

(** X25. From a write to the schedule.  A session that has just been
    created (201) or updated (200), and is scheduled in [[today, tomorrow)],
    is listed by [GET /today] with the anomaly list and the [hasAnomalies]
    of that response (for an update, provided its patient is found); when
    [hasAnomalies] is true it is also listed under [anomaliesOnly=true]. *)
Theorem written_session_listed (toISOString : Z -> string)
    (Date_parse : string -> Date) (validates : ISession -> bool)
    (db : Database) (id : string) (session : ISession) (flag : bool)
    (today tomorrow : Z) :
  scheduled_within today tomorrow (scheduledDate session) = true ->
  let listed (after : Database) :=
    exists e,
      ScheduleEntry.id e = id
      /\ ScheduleEntry.anomalies e = session_anomalies session
      /\ ScheduleEntry.hasAnomalies e = flag
      /\ In e (schedule_sessions
                 (today_schedule toISOString after today tomorrow
                    {| q_unit := None; q_anomaliesOnly := None |}))
      /\ (flag = true ->
          In e (schedule_sessions
                  (today_schedule toISOString after today tomorrow
                     {| q_unit := None; q_anomaliesOnly := Some "true" |}))) in
  (forall now body,
     create_response (create_session Date_parse validates db id now body)
     = Created id session flag ->
     listed (create_database (create_session Date_parse validates db id now body)))
  /\ (forall updates patient,
        response (patch_session Date_parse validates db id updates)
        = Updated session flag ->
        findOne db (patientId session) = Some patient ->
        listed (database (patch_session Date_parse validates db id updates))).
Proof.
  intros W. cbv zeta.
  assert (L : forall after patient,
             findById after id = Some session ->
             findOne after (patientId session) = Some patient ->
             flag = (0 <? List.length (session_anomalies session))%nat ->
             exists e,
               ScheduleEntry.id e = id
               /\ ScheduleEntry.anomalies e = session_anomalies session
               /\ ScheduleEntry.hasAnomalies e = flag
               /\ In e (schedule_sessions
                          (today_schedule toISOString after today tomorrow
                             {| q_unit := None; q_anomaliesOnly := None |}))
               /\ (flag = true ->
                   In e (schedule_sessions
                           (today_schedule toISOString after today tomorrow
                              {| q_unit := None; q_anomaliesOnly := Some "true" |})))).
  { intros after patient F P E. exists (entry_for (id, session) patient).
    split; [ reflexivity | ]. split; [ reflexivity | ].
    split; [ now rewrite E | ].
    split.
    - apply listed_in_schedule; auto. discriminate.
    - intros T. apply listed_in_schedule; auto. intros _ N.
      rewrite T, N in E. discriminate E. }
  split.
  - intros now body C.
    destruct (create_session_cases Date_parse validates db id now body)
      as [(E & _) | (pid & sd & st & pw & mc & _ & _ & _ & _ & _ & K)];
      [ rewrite E in C; discriminate C | ].
    destruct K as [(_ & E) | (pt & P & E)]; [ rewrite E in C; discriminate C | ].
    cbv zeta in E. rewrite E in C |- *. clear E.
    destruct (validates _); [ | discriminate C ].
    destruct (insert_session _ _ _) as [db' | ] eqn:I; [ | discriminate C ].
    cbn [create_response create_database hasAnomalies] in *.
    injection C as <- <-.
    destruct (insert_session_spec _ _ _ _ I) as (_ & F & Pt & _).
    apply (L db' pt); [ exact F | | reflexivity ].
    unfold findOne in *. rewrite Pt. exact P.
  - intros updates patient C P.
    destruct (update_response_parts Date_parse validates db id updates session flag C)
      as (F & E & Pt).
    apply (L _ patient); [ exact F | | exact E ].
    unfold findOne in *. rewrite Pt. exact P.
Qed.

Lemma written_session_listed_witness :
  let out := create_session parse_fixture accept_all clinic "s2" (date t_0800)
               create_fixture in
  exists e,
    ScheduleEntry.id e = "s2"
    /\ ScheduleEntry.hasAnomalies e = true
    /\ In e (schedule_sessions
               (today_schedule (fun _ => "2024-01-01T00:00:00.000Z") (create_database out)
                  1704067200000 (1704067200000 + 86400000)
                  {| q_unit := None; q_anomaliesOnly := Some "true" |})).
Proof.
  cbv zeta.
  pose (session :=
          set_anomalies
            (session_of_body parse_fixture create_fixture "P001"
               "2024-01-01T10:00:00.000Z" "2024-01-01T10:00:00.000Z" "M-02" 75 (date t_0800))
            ["Excess interdialytic weight gain: 5.00 kg (7.1% of dry weight)"]).
  destruct (proj1 (written_session_listed (fun _ => "2024-01-01T00:00:00.000Z")
                     parse_fixture accept_all clinic "s2" session true
                     1704067200000 (1704067200000 + 86400000) eq_refl)
                  (date t_0800) create_fixture)
    as (e & I & _ & H & _ & T).
  - vm_compute. reflexivity.
  - exists e. split; [ exact I | ]. split; [ exact H | ]. apply T. reflexivity.
Defined.

(** * The displayed number of minutes *)

(** A mantissa of 53 digits followed by [n] zero bits is rounded to
    itself. *)
Lemma binary_round_aux_exact s c n e :
  Zdigits2 (Zpos c) = 53 -> 0 <= n -> emin <= e + n <= emax - prec ->
  binary_round_aux prec emax s (Zpos c * 2 ^ n) e loc_Exact = S754_finite s c (e + n).
Proof.
  intros Dc Hn He.
  change (SpecFloat.emin prec emax) with (-1074) in He.
  change emax with 1024 in He. change prec with 53 in He.
  assert (B : bounded prec emax c (e + n) = true).
  { unfold bounded, canonical_mantissa.
    change (Zpos (digits2_pos c)) with (Zdigits2 (Zpos c)). rewrite Dc.
    apply andb_true_iff. split; [ apply Z.eqb_eq | apply Z.leb_le ].
    - unfold fexp. change (SpecFloat.emin prec emax) with (-1074). change prec with 53. lia.
    - change emax with 1024. change prec with 53. lia. }
  destruct (Z.eq_dec n 0) as [-> | Hn0].
  - rewrite Z.pow_0_r, Z.mul_1_r, Z.add_0_r in *.
    now apply binary_round_aux_canonical.
  - destruct n as [ | p | p]; try lia.
    unfold binary_round_aux, shr_fexp.
    rewrite Zdigits2_mul_pow2 by lia. rewrite Dc.
    replace (fexp prec emax (53 + Zpos p + e) - e) with (Zpos p)
      by (unfold fexp; change (SpecFloat.emin prec emax) with (-1074);
          change prec with 53; lia).
    cbn [shr shr_record_of_loc].
    rewrite shr_iter_exact by lia.
    cbn [shr_m loc_of_shr_record round_nearest_even].
    rewrite Dc.
    replace (fexp prec emax (53 + (e + Zpos p)) - (e + Zpos p)) with 0
      by (unfold fexp; change (SpecFloat.emin prec emax) with (-1074);
          change prec with 53; lia).
    cbn [shr shr_record_of_loc shr_m].
    unfold bounded in B. apply andb_true_iff in B as [_ B]. now rewrite B.
Qed.

Lemma new_location_zero n : new_location n 0 = loc_Exact.
Proof. unfold new_location. destruct (Z.even n); reflexivity. Qed.

(** A whole number of half minutes is divided exactly: [30000 * j] ms is
    [j / 2] minutes. *)
Lemma half_minutes_exact j g :
  0 < j -> 30000 * j < 2 ^ 50 -> represents (30000 * j) g ->
  exists c E,
    SFdiv prec emax g sixty_thousand = S754_finite false c E
    /\ -69 <= E < 0 /\ 2 * Zpos c = j * 2 ^ (- E).
Proof.
  intros Hj Hd Hg. set (d := 30000 * j) in *.
  assert (Hd0 : 0 < d) by (unfold d; lia).
  destruct g as [sg | sg | | sg mx ex]; cbn [represents] in Hg; try tauto; try lia.
  pose proof (represents_exact_magnitude _ _ _ _ Hg) as Mg.
  destruct (represents_magnitude _ _ _ _ Hg) as (_ & _ & Sg).
  replace (d <? 0) with false in Sg by (symmetry; apply Z.ltb_ge; lia). subst sg.
  destruct Hg as (Hex & Vx & Bx). cbn [cond_Zopp] in Vx.
  rewrite Z.abs_eq in Mg by lia.
  set (dd := Zdigits2 d) in *.
  set (lj := Z.log2 j).
  assert (Lj : 2 ^ lj <= j < 2 ^ (lj + 1)).
  { unfold lj. destruct (Z.log2_spec j Hj). replace (Z.log2 j + 1) with (Z.succ (Z.log2 j)) by lia.
    lia. }
  assert (Hlj : 0 <= lj) by apply Z.log2_nonneg.
  assert (Hdd : lj + 15 <= dd <= lj + 16 /\ dd <= 50).
  { unfold dd. rewrite Zdigits2_log2 by lia.
    assert (A : lj + 14 <= Z.log2 d).
    { apply Z.log2_le_pow2; [ lia | ]. rewrite Z.pow_add_r by lia.
      change (2 ^ 14) with 16384. unfold d. nia. }
    assert (B : Z.log2 d < lj + 16).
    { apply Z.log2_lt_pow2; [ lia | ].
      replace (lj + 16) with (lj + 1 + 15) by lia. rewrite Z.pow_add_r by lia.
      change (2 ^ 15) with 32768. unfold d. nia. }
    assert (C : Z.log2 d < 50) by (apply Z.log2_lt_pow2; lia).
    lia. }
  assert (Eex : ex = dd - 53).
  { pose proof Bx as B. unfold bounded, canonical_mantissa in B.
    apply andb_true_iff in B as [B _]. apply Z.eqb_eq in B.
    unfold magnitude in Mg. cbn [Zdigits2] in Mg. rewrite Mg in B.
    unfold fexp in B. change (SpecFloat.emin prec emax) with (-1074) in B.
    change prec with 53 in B. lia. }
  assert (Dx : Zpos (digits2_pos mx) = 53).
  { unfold magnitude in Mg. cbn [Zdigits2] in Mg. lia. }
  unfold sixty_thousand, SFdiv, SFdiv_core_binary. cbn [Zdigits2 xorb].
  rewrite Dx. change (Zpos (digits2_pos 8246337208320000)) with 53.
  replace (fexp prec emax (53 + ex - (53 + -37))) with (dd - 69)
    by (unfold fexp; change (SpecFloat.emin prec emax) with (-1074);
        change prec with 53; lia).
  replace (Z.min (dd - 69) (ex - -37)) with (dd - 69) by lia.
  replace (ex - -37 - (dd - 69)) with 53 by lia.
  rewrite Z.shiftl_mul_pow2 by lia.
  set (Q := j * 2 ^ (68 - dd)).
  assert (EQ : Zpos mx * 2 ^ 53 = Q * Zpos 8246337208320000).
  { rewrite Vx, Eex. unfold Q.
    change (Zpos 8246337208320000) with (60000 * 2 ^ 37).
    replace (- (dd - 53)) with (53 - dd) by lia.
    replace (d * 2 ^ (53 - dd) * 2 ^ 53) with (d * (2 ^ (53 - dd) * 2 ^ 53)) by ring.
    rewrite <- Z.pow_add_r by lia.
    replace (j * 2 ^ (68 - dd) * (60000 * 2 ^ 37))
      with (60000 * j * (2 ^ (68 - dd) * 2 ^ 37)) by ring.
    rewrite <- Z.pow_add_r by lia.
    replace (53 - dd + 53) with (1 + (68 - dd + 37)) by lia.
    rewrite (Z.pow_add_r 2 1) by lia. unfold d. change (2 ^ 1) with 2. ring. }
  rewrite EQ.
  destruct (Z.div_eucl (Q * Zpos 8246337208320000) (Zpos 8246337208320000))
    as [q0 r] eqn:E.
  assert (Hq : q0 = Q).
  { replace q0 with (Q * Zpos 8246337208320000 / Zpos 8246337208320000)
      by (unfold Z.div; now rewrite E).
    apply Z.div_mul. lia. }
  assert (Hr : r = 0).
  { replace r with ((Q * Zpos 8246337208320000) mod Zpos 8246337208320000)
      by (unfold Z.modulo; now rewrite E).
    apply Z.mod_mul. lia. }
  subst q0 r. rewrite new_location_zero.
  (* [Q] is a mantissa of 53 digits followed by [n] zeros *)
  set (n := lj + 16 - dd).
  assert (Hn : 0 <= n <= 1) by (unfold n; lia).
  set (c := j * 2 ^ (68 - dd - n)).
  assert (Pc : 0 < 2 ^ (68 - dd - n)) by (apply Z.pow_pos_nonneg; lia).
  assert (Hc : 0 < c) by (unfold c; nia).
  assert (Dc : Zdigits2 c = 53).
  { unfold c. rewrite Zdigits2_mul_pow2 by lia. rewrite Zdigits2_log2 by lia.
    fold lj. unfold n. lia. }
  assert (EQc : Q = Zpos (Z.to_pos c) * 2 ^ n).
  { rewrite Z2Pos.id by lia. unfold Q, c.
    rewrite <- Z.mul_assoc, <- Z.pow_add_r by lia. f_equal. f_equal. lia. }
  rewrite EQc.
  rewrite binary_round_aux_exact.
  - exists (Z.to_pos c), (dd - 69 + n). split; [ reflexivity | ].
    split; [ lia | ]. rewrite Z2Pos.id by lia. unfold c.
    replace (- (dd - 69 + n)) with (1 + (68 - dd - n)) by lia.
    rewrite Z.pow_add_r by lia. change (2 ^ 1) with 2. ring.
  - rewrite Z2Pos.id by lia. exact Dc.
  - lia.
  - change (SpecFloat.emin prec emax) with (-1074).
    change emax with 1024. change prec with 53. lia.
Qed.

Lemma div_between a y R : 0 < y -> y * R <= a < y * (R + 1) -> a / y = R.
Proof.
  intros Hy H. symmetry. apply (Z.div_unique a y R (a - y * R)); lia.
Qed.

(** [Math.round] of a quotient [m * 2^e], read on the quotient scaled by
    [2^69]. *)
Lemma round_scaled z e :
  -69 <= e < 0 ->
  (2 * z + 2 ^ (- e)) / 2 ^ (1 - e)
  = (2 * (z * 2 ^ (e - -69)) + 590295810358705651712) / 1180591620717411303424.
Proof.
  intros He.
  assert (P : 0 < 2 ^ (e - -69)) by (apply Z.pow_pos_nonneg; lia).
  assert (E1 : 2 ^ (- e) * 2 ^ (e - -69) = 590295810358705651712).
  { rewrite <- Z.pow_add_r by lia. replace (- e + (e - -69)) with 69 by lia. reflexivity. }
  assert (E2 : 2 ^ (1 - e) * 2 ^ (e - -69) = 1180591620717411303424).
  { rewrite <- Z.pow_add_r by lia. replace (1 - e + (e - -69)) with 70 by lia. reflexivity. }
  rewrite <- E2.
  replace (2 * (z * 2 ^ (e - -69)) + 590295810358705651712)
    with ((2 * z + 2 ^ (- e)) * 2 ^ (e - -69)) by (rewrite <- E1; ring).
  rewrite Z.div_mul_cancel_r; lia.
Qed.

(** The quotient of [d] ms by 60000, once rounded by the division and again
    by [Math.round], is [d / 60000] rounded half up; and so for [-d]. *)
Lemma round_minutes d g :
  0 < d < 2 ^ 50 -> represents d g ->
  exists m e,
    SFdiv prec emax g sixty_thousand = S754_finite false m e
    /\ -69 <= e < 0
    /\ (2 * Zpos m + 2 ^ (- e)) / 2 ^ (1 - e) = (2 * d + 60000) / 120000
    /\ (2 * Zneg m + 2 ^ (- e)) / 2 ^ (1 - e) = (2 * - d + 60000) / 120000.
Proof.
  intros Hd Hg.
  destruct (Z.eq_dec (d mod 30000) 0) as [Hm | Hm].
  - (* a whole number of half minutes *)
    apply Z.mod_divide in Hm; [ | lia ]. destruct Hm as (j & Ej).
    rewrite Z.mul_comm in Ej. subst d.
    destruct (half_minutes_exact j g ltac:(lia) ltac:(lia) Hg) as (c & E & R & HE & V).
    exists c, E. split; [ exact R | ]. split; [ exact HE | ].
    assert (P : 0 < 2 ^ (- E)) by (apply Z.pow_pos_nonneg; lia).
    assert (Q : 2 ^ (1 - E) = 2 * 2 ^ (- E)).
    { replace (1 - E) with (Z.succ (- E)) by lia. apply Z.pow_succ_r. lia. }
    rewrite Q. split.
    + rewrite V. replace (j * 2 ^ (- E) + 2 ^ (- E)) with ((j + 1) * 2 ^ (- E)) by ring.
      rewrite Z.div_mul_cancel_r by lia.
      replace (2 * (30000 * j) + 60000) with ((j + 1) * 60000) by ring.
      change 120000 with (2 * 60000). now rewrite Z.div_mul_cancel_r by lia.
    + replace (2 * Zneg c) with (- (2 * Zpos c)) by lia. rewrite V.
      replace (- (j * 2 ^ (- E)) + 2 ^ (- E)) with ((1 - j) * 2 ^ (- E)) by ring.
      rewrite Z.div_mul_cancel_r by lia.
      replace (2 * - (30000 * j) + 60000) with ((1 - j) * 60000) by ring.
      change 120000 with (2 * 60000). now rewrite Z.div_mul_cancel_r by lia.
  - destruct (minutes_scaled d g ltac:(lia) Hg)
      as (m & e & a & b & c & T & R & He & Eb & B1 & B2 & B3 & B4).
    exists m, e. split; [ exact R | ]. split; [ lia | ].
    assert (P50 : 2 ^ 50 = 1125899906842624) by reflexivity.
    rewrite P50 in Hd.
    split.
    + rewrite round_scaled by lia. rewrite <- Eb.
      set (N := (2 * d + 60000) / 120000).
      pose proof (Z.mul_div_le (2 * d + 60000) 120000 ltac:(lia)) as L.
      pose proof (Z.mul_succ_div_gt (2 * d + 60000) 120000 ltac:(lia)) as U.
      fold N in L, U.
      assert (Ne : 2 * d + 60000 <> 120000 * N).
      { intros E. apply Hm. replace d with ((2 * N - 1) * 30000) by lia.
        apply Z.mod_mul. lia. }
      apply div_between; lia.
    + rewrite round_scaled by lia.
      replace (Zneg m * 2 ^ (e - -69)) with (- b) by (rewrite Eb; lia).
      set (N := (2 * - d + 60000) / 120000).
      pose proof (Z.mul_div_le (2 * - d + 60000) 120000 ltac:(lia)) as L.
      pose proof (Z.mul_succ_div_gt (2 * - d + 60000) 120000 ltac:(lia)) as U.
      fold N in L, U.
      assert (Ne : 2 * - d + 60000 <> 120000 * N).
      { intros E. apply Hm. replace d with ((1 - 2 * N) * 30000) by lia.
        apply Z.mod_mul. lia. }
      apply div_between; lia.
Qed.

(** The minutes an anomaly displays: the elapsed milliseconds over 60000,
    rounded half up, without any error from the two roundings involved. *)
Lemma Math_round_minutes (s : ISession) ts oks te oke :
  startTime s = TimeValue ts oks ->
  Z.abs (te - ts) < 2 ^ 50 ->
  let shown := Math_round (duration_minutes s (TimeValue te oke)) in
  let rounded := (2 * (te - ts) + 60000) / 120000 in
  represents rounded (Prim2SF shown)
  /\ Number_toString shown = Number_toString (Z2number rounded)
  /\ (shown = Z2number rounded
      \/ (rounded = 0 /\ exists z, Prim2SF shown = S754_zero z)).
Proof.
  intros Hs Hd. cbv zeta.
  set (N := (2 * (te - ts) + 60000) / 120000).
  assert (P50 : 2 ^ 50 = 1125899906842624) by reflexivity.
  assert (P53 : 2 ^ 53 = 9007199254740992) by reflexivity.
  assert (BN : Z.abs N < 2 ^ 53).
  { pose proof (Z.mul_div_le (2 * (te - ts) + 60000) 120000 ltac:(lia)) as L.
    pose proof (Z.mul_succ_div_gt (2 * (te - ts) + 60000) 120000 ltac:(lia)) as U.
    fold N in L, U. lia. }
  destruct (Z.lt_trichotomy (te - ts) 0) as [Neg | [Zero | Pos]].
  - (* endTime before startTime *)
    assert (E : exists m e,
               Prim2SF (duration_minutes s (TimeValue te oke)) = S754_finite true m e
               /\ -69 <= e < 0
               /\ (2 * Zneg m + 2 ^ (- e)) / 2 ^ (1 - e) = N).
    { unfold duration_minutes, elapsed_ms.
      rewrite div_spec, sub_spec, Prim2SF_minute, Hs. unfold SF64div, SF64sub.
      pose proof (SFsub_integers_exact te ts _ _ (getTime_represents te oke)
                    (getTime_represents ts oks) ltac:(lia) ltac:(lia)) as R.
      set (g := SFsub prec emax (Prim2SF (getTime (TimeValue te oke)))
                  (Prim2SF (getTime (TimeValue ts oks)))) in *.
      apply represents_opp in R.
      destruct (round_minutes (- (te - ts)) (SFopp g) ltac:(lia) R)
        as (m & e & Q & He & _ & V).
      exists m, e. split; [ | split; [ exact He | ] ].
      - rewrite <- (SFopp_involutive g). rewrite SFdiv_opp.
        fold sixty_thousand. rewrite Q. reflexivity.
      - rewrite V. unfold N. f_equal. lia. }
    destruct E as (m & e & E & He & V).
    unfold Math_round. rewrite E.
    replace (0 <=? e) with false by (symmetry; apply Z.leb_gt; lia).
    cbv zeta. rewrite V.
    destruct (Z.eqb_spec N 0) as [-> | Hn]; cbn [andb].
    + split; [ exact eq_refl | ]. split; [ reflexivity | ].
      right. split; [ reflexivity | ]. now exists true.
    + split; [ now apply Z2number_represents | ]. split; [ reflexivity | now left ].
  - (* the same instant *)
    assert (te = ts) by lia. subst te.
    destruct (duration_zero s ts oks oke Hs) as (z & Z).
    unfold Math_round. rewrite Z. cbv iota.
    replace N with 0 by (unfold N; rewrite Z.sub_diag; reflexivity).
    split; [ rewrite Z; exact eq_refl | ].
    split; [ unfold Number_toString at 1; rewrite Z; reflexivity | ].
    right. split; [ reflexivity | ]. now exists z.
  - assert (E : exists m e,
               Prim2SF (duration_minutes s (TimeValue te oke)) = S754_finite false m e
               /\ -69 <= e < 0
               /\ (2 * Zpos m + 2 ^ (- e)) / 2 ^ (1 - e) = N).
    { unfold duration_minutes, elapsed_ms.
      rewrite div_spec, sub_spec, Prim2SF_minute, Hs. unfold SF64div, SF64sub.
      pose proof (SFsub_integers_exact te ts _ _ (getTime_represents te oke)
                    (getTime_represents ts oks) ltac:(lia) ltac:(lia)) as R.
      fold sixty_thousand.
      destruct (round_minutes (te - ts) _ ltac:(lia) R) as (m & e & Q & He & V & _).
      exists m, e. auto. }
    destruct E as (m & e & E & He & V).
    unfold Math_round. rewrite E.
    replace (0 <=? e) with false by (symmetry; apply Z.leb_gt; lia).
    cbv zeta. rewrite V. rewrite andb_false_r.
    split; [ now apply Z2number_represents | ]. split; [ reflexivity | now left ].
Qed.

Lemma long_message_text (x : number) :
  long_message x = "Long session duration: " ++ Number_toString (Math_round x)
                   ++ " minutes (maximum: 300 minutes)".
Proof.
  unfold long_message.
  replace (Number_toString 300) with "300" by (vm_compute; reflexivity).
  reflexivity.
Qed.

Lemma holds_upto_spec (n : nat) (f : Z -> bool) :
  holds_upto n f = true -> forall z, 0 <= z <= Z.of_nat n -> f z = true.
Proof.
  induction n as [ | k IH]; cbn [holds_upto]; intros H z Hz.
  - replace z with 0 by lia. exact H.
  - apply andb_true_iff in H as (H1 & H2).
    destruct (Z.eq_dec z (Z.of_nat (S k))) as [-> | Hne]; [ exact H1 | ].
    apply IH; [ exact H2 | lia ].
Qed.

(** Whole numbers up to 2000 in absolute value print as their decimal
    numerals, by evaluation of [Number::toString] on each. *)
Lemma toString_small (z : Z) :
  -2000 <= z <= 2000 -> Number_toString (Z2number z) = decimal z.
Proof.
  intros Hz.
  assert (P : holds_upto 2000
                (fun n => String.eqb (Number_toString (Z2number n)) (decimal n)) = true)
    by (vm_compute; reflexivity).
  assert (N : holds_upto 2000
                (fun n => String.eqb (Number_toString (Z2number (- n))) (decimal (- n)))
              = true)
    by (vm_compute; reflexivity).
  assert (B : Z.of_nat 2000 = 2000) by reflexivity.
  destruct (Z.le_gt_cases 0 z) as [Hp | Hn].
  - apply String.eqb_eq.
    exact (holds_upto_spec 2000 _ P z ltac:(lia)).
  - replace z with (- - z) by lia. apply String.eqb_eq.
    exact (holds_upto_spec 2000 _ N (- z) ltac:(lia)).
Qed.

(** X21. The count an anomaly displays is exact.  For two valid dates less
    than [2^50] ms (35 000 years) apart, the number shown in a duration
    anomaly is the elapsed time in minutes rounded half up, as computed on
    the integers: neither the floating-point division nor [Math.round]
    introduces an error; up to 2000 minutes either way it is printed as
    its decimal numeral.  The comparison is made before rounding, so a
    session of at least 149.5 and less than 150 minutes is reported as
    short with "150 minutes (minimum: 150 minutes)", and one of more than
    300 and less than 300.5 minutes as long with "300 minutes". *)
Theorem displayed_minutes_exact (s : ISession) (p : DryWeightRef) ts oks te oke :
  startTime s = TimeValue ts oks ->
  endTime s = Some (TimeValue te oke) ->
  Z.abs (te - ts) < 2 ^ 50 ->
  let rounded := (2 * (te - ts) + 60000) / 120000 in
  (forall a, emits s p a -> is_duration_anomaly a = true ->
   a = "Short session duration: " ++ Number_toString (Z2number rounded)
       ++ " minutes (minimum: 150 minutes)"
   \/ a = "Long session duration: " ++ Number_toString (Z2number rounded)
          ++ " minutes (maximum: 300 minutes)")
  /\ (-2000 <= rounded <= 2000 -> Number_toString (Z2number rounded) = decimal rounded)
  /\ (8970000 <= te - ts < 9000000 ->
      emits s p "Short session duration: 150 minutes (minimum: 150 minutes)")
  /\ (18000000 < te - ts < 18030000 ->
      emits s p "Long session duration: 300 minutes (maximum: 300 minutes)").
Proof.
  intros Hs He Hd. cbv zeta.
  destruct (Math_round_minutes s ts oks te oke Hs Hd) as (_ & T & _). cbv zeta in T.
  destruct (minutes_exact s ts oks te oke Hs) as (S1 & L1).
  split; [ | split; [ apply toString_small | split ] ].
  - intros a E K. pose proof (proj1 (emitted_duration s p a) (conj E K)) as I.
    apply in_duration_check in I as (e & Ee & [(_ & ->) | (_ & _ & ->)]);
      rewrite He in Ee; injection Ee as <-.
    + left. now rewrite short_message_text, T.
    + right. now rewrite long_message_text, T.
  - intros G. apply (proj2 (emitted_duration s p _)), in_duration_check.
    exists (TimeValue te oke). split; [ exact He | left ].
    split; [ apply S1; lia | ].
    rewrite short_message_text, T.
    replace ((2 * (te - ts) + 60000) / 120000) with 150; [ reflexivity | ].
    symmetry. apply div_between; lia.
  - intros G. apply (proj2 (emitted_duration s p _)), in_duration_check.
    exists (TimeValue te oke). split; [ exact He | right ].
    assert (F : (duration_minutes s (TimeValue te oke) <? 150)%float = false).
    { apply not_true_is_false. intros B. apply S1 in B. lia. }
    split; [ exact F | ]. split; [ apply L1; lia | ].
    rewrite long_message_text, T.
    replace ((2 * (te - ts) + 60000) / 120000) with 300; [ reflexivity | ].
    symmetry. apply div_between; lia.
Qed.

Lemma displayed_minutes_exact_witness :
  let e := date (t_0800 + 8999999) in
  let s := mockSession 72 None (Some e) in
  emits s mockPatient "Short session duration: 150 minutes (minimum: 150 minutes)".
Proof.
  cbv zeta.
  refine (proj1 (proj2 (proj2 (displayed_minutes_exact
                          (mockSession 72 None (Some (date (t_0800 + 8999999))))
                          mockPatient t_0800 eq_refl (t_0800 + 8999999) eq_refl
                          eq_refl eq_refl _))) _).
  - reflexivity.
  - unfold t_0800. lia.
Defined.

(** * The dashboard *)



Lemma Set_add_spec (set : list string) (v u : string) :
  In u (Set_add set v) <-> In u set \/ u = v.
Proof.
  unfold Set_add. destruct (existsb (String.eqb v) set) eqn:E.
  - split; [ auto | ]. intros [H | ->]; [ exact H | ].
    apply existsb_exists in E as (x & I & K). apply String.eqb_eq in K. now subst.
  - rewrite in_app_iff. cbn [In]. intuition congruence.
Qed.

Lemma Set_add_NoDup (set : list string) (v : string) : NoDup set -> NoDup (Set_add set v).
Proof.
  intros N. unfold Set_add. destruct (existsb (String.eqb v) set) eqn:E; [ exact N | ].
  apply NoDup_app_one; [ exact N | ]. intros I.
  assert (X : existsb (String.eqb v) set = true).
  { apply existsb_exists. exists v. split; [ exact I | apply String.eqb_refl ]. }
  congruence.
Qed.

Lemma fold_Set_add (l set : list string) :
  NoDup set ->
  NoDup (fold_left Set_add l set)
  /\ (forall u, In u (fold_left Set_add l set) <-> In u set \/ In u l)
  /\ exists rest, fold_left Set_add l set = (set ++ rest)%list.
Proof.
  revert set. induction l as [ | v rest IH]; intros set N; cbn [fold_left].
  - split; [ exact N | ]. split; [ cbn [In]; tauto | ]. exists []. now rewrite app_nil_r.
  - destruct (IH _ (Set_add_NoDup set v N)) as (A & B & (tail & C)).
    split; [ exact A | ]. split.
    + intros u. rewrite B, Set_add_spec. cbn [In]. intuition congruence.
    + rewrite C. unfold Set_add. destruct (existsb (String.eqb v) set).
      * now exists tail.
      * exists (v :: tail). now rewrite <- app_assoc.
Qed.

(** X23. The units offered by the dashboard's filter: each unit that some
    patient belongs to appears, exactly once, and nothing else does; so the
    options, which are keyed by the unit, have distinct keys. *)
Theorem unique_units (patients : list IPatient.t) :
  NoDup (uniqueUnits patients)
  /\ forall u, In u (uniqueUnits patients) <->
               exists patient, In patient patients /\ IPatient.unit patient = u.
Proof.
  unfold uniqueUnits.
  destruct (fold_Set_add (map IPatient.unit patients) [] (NoDup_nil _)) as (A & B & _).
  split; [ exact A | ]. intros u. rewrite B, in_map_iff. cbn [In].
  split.
  - intros [[] | (p & E & I)]. eauto.
  - intros (p & I & E). right. eauto.
Qed.

(** * The session card *)

Lemma duration_text_small (z : Z) :
  -2000 <= z <= 2000 ->
  duration_text (Z2number z) = decimal (z / 60) ++ "h " ++ decimal (Z.rem z 60) ++ "m".
Proof.
  intros Hz.
  assert (P : holds_upto 2000
                (fun n => String.eqb (duration_text (Z2number n))
                            (decimal (n / 60) ++ "h " ++ decimal (Z.rem n 60) ++ "m"))
              = true)
    by (vm_compute; reflexivity).
  assert (N : holds_upto 2000
                (fun n => String.eqb (duration_text (Z2number (- n)))
                            (decimal (- n / 60) ++ "h " ++ decimal (Z.rem (- n) 60) ++ "m"))
              = true)
    by (vm_compute; reflexivity).
  assert (B : Z.of_nat 2000 = 2000) by reflexivity.
  destruct (Z.le_gt_cases 0 z) as [Hp | Hn].
  - apply String.eqb_eq.
    exact (holds_upto_spec 2000 _ P z ltac:(lia)).
  - replace z with (- - z) by lia. apply String.eqb_eq.
    exact (holds_upto_spec 2000 _ N (- z) ltac:(lia)).
Qed.

Lemma duration_text_zero (x : number) (z : bool) :
  Prim2SF x = S754_zero z -> duration_text x = "0h 0m".
Proof.
  intros H. rewrite <- (SF2Prim_Prim2SF x), H.
  destruct z; vm_compute; reflexivity.
Qed.

(** X24. The duration on a session card.  For two valid times whose
    difference rounds to between -2000 and 2000 minutes, the card shows
    [h] hours and [m] minutes where [h] is the rounded number of minutes
    divided by 60 and rounded down, and [m] its remainder with the sign of
    the dividend.  For a session that ends after it starts these add up to
    the duration, with [0 <= m < 60].  For one whose end precedes its start
    by a time that is not a whole number of hours they do not: they add up
    to an hour less, as in "-5h -30m" for -270 minutes. *)
Theorem card_duration (Date_parse : string -> Date) (start finish : string)
    ts oks te oke :
  start <> "" -> finish <> "" ->
  Date_parse start = TimeValue ts oks ->
  Date_parse finish = TimeValue te oke ->
  let minutes := (2 * (te - ts) + 60000) / 120000 in
  -2000 <= minutes <= 2000 ->
  calculateDuration Date_parse start (Some finish)
  = Some (decimal (minutes / 60) ++ "h " ++ decimal (Z.rem minutes 60) ++ "m")
  /\ (0 <= minutes ->
      60 * (minutes / 60) + Z.rem minutes 60 = minutes /\ 0 <= Z.rem minutes 60 < 60)
  /\ (minutes < 0 -> Z.rem minutes 60 <> 0 ->
      60 * (minutes / 60) + Z.rem minutes 60 = minutes - 60).
Proof.
  intros Hs Hf Ps Pf minutes Hm.
  assert (Hd : Z.abs (te - ts) < 2 ^ 50).
  { assert (P50 : 2 ^ 50 = 1125899906842624) by reflexivity. rewrite P50.
    pose proof (Z.mul_div_le (2 * (te - ts) + 60000) 120000 ltac:(lia)) as L.
    pose proof (Z.mul_succ_div_gt (2 * (te - ts) + 60000) 120000 ltac:(lia)) as U.
    fold minutes in L, U. lia. }
  split; [ | split ].
  - unfold calculateDuration.
    replace (String.eqb start "") with false by (symmetry; now apply String.eqb_neq).
    replace (String.eqb finish "") with false by (symmetry; now apply String.eqb_neq).
    cbn [orb]. cbv zeta. rewrite Ps, Pf. f_equal.
    set (s := {| patientId := ""; scheduledDate := TimeValue ts oks;
                 startTime := TimeValue ts oks; endTime := None; preWeight := 0;
                 postWeight := None; vitals := {| pre := None; post := None |};
                 machineId := ""; nurseNotes := None; status := completed;
                 session_anomalies := []; createdAt := TimeValue ts oks;
                 updatedAt := TimeValue ts oks |}).
    destruct (Math_round_minutes s ts oks te oke eq_refl Hd) as (_ & _ & R).
    cbv zeta in R. fold minutes in R.
    unfold duration_minutes, elapsed_ms in R. cbn [startTime s] in R.
    destruct R as [-> | (Z & z & E)].
    + now apply duration_text_small.
    + rewrite (duration_text_zero _ _ E), Z. reflexivity.
  - intros H0. pose proof (Z.rem_bound_pos minutes 60 H0 ltac:(lia)).
    rewrite Z.rem_mod_nonneg by lia.
    pose proof (Z.div_mod minutes 60 ltac:(lia)). split; [ lia | ].
    rewrite <- Z.rem_mod_nonneg by lia. lia.
  - intros Hneg Hr.
    pose proof (Z.quot_rem' minutes 60) as QR.
    assert (RB : -60 < Z.rem minutes 60 <= 0).
    { pose proof (Z.rem_bound_pos (- minutes) 60 ltac:(lia) ltac:(lia)) as B.
      rewrite Z.rem_opp_l in B by lia. lia. }
    assert (D : minutes / 60 = Z.quot minutes 60 - 1).
    { symmetry.
      apply (Z.div_unique minutes 60 (Z.quot minutes 60 - 1) (Z.rem minutes 60 + 60)); lia. }
    lia.
Qed.

Lemma card_duration_witness :
  calculateDuration parse_seed "2024-01-01T11:00:00.000Z" (Some "2024-01-01T06:30:00.000Z")
  = Some "-5h -30m".
Proof.
  refine (proj1 (card_duration parse_seed "2024-01-01T11:00:00.000Z"
                   "2024-01-01T06:30:00.000Z"
                   (1704067200000 + 11 * 3600000) eq_refl
                   (1704067200000 + 13 * 1800000) eq_refl _ _ eq_refl eq_refl _)).
  - discriminate.
  - discriminate.
  - cbv zeta. vm_compute. split; discriminate.
Defined.
